(** * batch-fetch: a request-coalescing coordinator

    Shallow embedding of [src/index.ts].  The file holds two variants of the
    module, one after the other: the first debounces for 500ms and lets a
    late call bypass coalescing, the second debounces for 1000ms and throws
    on a late call.  They are embedded as the modules [V500] and [V1000].

    The module's four global tables, the host's timers, abort controllers,
    in-flight [fetch] calls, the [window] listeners and the promises handed
    to callers are fields of one explicit [State]; every callback turn of the
    event loop (a call, a timeout, a transport completion, a caller's abort)
    is one [step]. *)

From stdpp Require Import gmap strings list fin_maps.
From Stdlib Require Import Lia.

Open Scope string_scope.
Open Scope nat_scope.
Open Scope list_scope.

(** ** Data *)

(** [RequestInit]: the caller's [signal] (an [AbortSignal], identified by a
    number) and the remaining properties, [{ signal, ...otherOptions }]. *)
Record RequestInit := {
  signal : option nat;
  otherOptions : list (string * string);
}.

Record RequestPayload := {
  url : string;
  options : list (string * string);
}.

Record RequestCounter := {
  registered : nat;
  aborted : nat;
  processed : nat;
}.

(** [keyof RequestCounter] *)
Inductive CounterKey := Registered | Aborted | Processed.

Record Error := {
  name : string;
  message : string;
}.

Record Response := {
  status : nat;
  body : string;
}.

(** [response.clone()]: an independent copy with the same contents. *)
Definition clone (r : Response) : Response :=
  {| status := status r; body := body r |}.

(** What [undefined.x += 1] raises. *)
Definition typeError : Error :=
  {| name := "TypeError"; message := "Cannot read properties of undefined" |}.

(** The reason of [controller.abort()] called without argument. *)
Definition abortError : Error :=
  {| name := "AbortError"; message := "signal is aborted without reason" |}.

(** The signal a [fetch] was started with: the caller's own, or the one of an
    [AbortController] made by [dispatchRequest]. *)
Inductive SignalRef :=
| UserSignal (s : nat)
| BatchSignal (ctrl : nat).

(** What is chained on a [fetch] promise: [dispatchRequest]'s
    [.then(..).catch(..)] for a batch, or nothing, the promise being returned
    to the caller as it is. *)
Inductive Continuation :=
| Broadcast (batchId : string)
| Direct (caller : nat).

Record Fetch := {
  f_url : string;
  f_options : list (string * string);
  f_signal : option SignalRef;
  f_cont : Continuation;
  f_done : bool;
}.

(** Calls of [resolve] and [reject] on a promise. *)
Inductive Settlement :=
| Resolve (r : Response)
| Reject (e : Error).

(** One call of [batchFetch]: what its closures captured ([batchId],
    [signal]) and every call made so far of its promise's [resolve] and
    [reject], oldest first.  A promise keeps the first. *)
Record Caller := {
  c_batch : string;
  c_signal : option nat;
  c_settled : list Settlement;
}.

Inductive WindowEvent :=
| BatchFetchThen (batchId : string) (r : Response)
| BatchFetchCatch (batchId : string) (e : Error).

Record State := {
  (* the module's globals *)
  requestPayload : gmap string RequestPayload;
  requestCounter : gmap string RequestCounter;
  requestDebounce : gmap string nat;
  requestSignals : gmap string nat;
  (* the host *)
  clock : nat;
  timers : gmap nat (nat * string);      (* pending timeouts: due time, batchId *)
  nextTimer : nat;
  controllers : list bool;               (* AbortControllers: aborted? *)
  fetches : list Fetch;                  (* every call of fetch, oldest first *)
  thenListeners : list nat;              (* window, 'batchFetchThen' *)
  catchListeners : list nat;             (* window, 'batchFetchCatch' *)
  abortListeners : list (nat * nat);     (* (signal, caller), 'abort', once *)
  userAborted : gmap nat Error;          (* aborted caller signals, with reason *)
  callers : list Caller;
  uncaught : list Error;                 (* exceptions that left a listener *)
  events : list WindowEvent;             (* every window.dispatchEvent *)
}.

(** Timer ids are positive, as in a browser, so that [if (requestDebounce[id])]
    holds exactly when the property is there. *)
Definition init : State := {|
  requestPayload := ∅; requestCounter := ∅; requestDebounce := ∅;
  requestSignals := ∅;
  clock := 0; timers := ∅; nextTimer := 1; controllers := []; fetches := [];
  thenListeners := []; catchListeners := []; abortListeners := [];
  userAborted := ∅; callers := []; uncaught := []; events := [];
|}.

(** ** Field updates *)

Definition set_requestPayload (f : gmap string RequestPayload → gmap string RequestPayload) (st : State) : State :=
  {| requestPayload := f (requestPayload st); requestCounter := requestCounter st;
     requestDebounce := requestDebounce st; requestSignals := requestSignals st;
     clock := clock st; timers := timers st; nextTimer := nextTimer st;
     controllers := controllers st; fetches := fetches st;
     thenListeners := thenListeners st; catchListeners := catchListeners st;
     abortListeners := abortListeners st; userAborted := userAborted st;
     callers := callers st; uncaught := uncaught st; events := events st |}.

Definition set_requestCounter (f : gmap string RequestCounter → gmap string RequestCounter) (st : State) : State :=
  {| requestPayload := requestPayload st; requestCounter := f (requestCounter st);
     requestDebounce := requestDebounce st; requestSignals := requestSignals st;
     clock := clock st; timers := timers st; nextTimer := nextTimer st;
     controllers := controllers st; fetches := fetches st;
     thenListeners := thenListeners st; catchListeners := catchListeners st;
     abortListeners := abortListeners st; userAborted := userAborted st;
     callers := callers st; uncaught := uncaught st; events := events st |}.

Definition set_requestDebounce (f : gmap string nat → gmap string nat) (st : State) : State :=
  {| requestPayload := requestPayload st; requestCounter := requestCounter st;
     requestDebounce := f (requestDebounce st); requestSignals := requestSignals st;
     clock := clock st; timers := timers st; nextTimer := nextTimer st;
     controllers := controllers st; fetches := fetches st;
     thenListeners := thenListeners st; catchListeners := catchListeners st;
     abortListeners := abortListeners st; userAborted := userAborted st;
     callers := callers st; uncaught := uncaught st; events := events st |}.

Definition set_requestSignals (f : gmap string nat → gmap string nat) (st : State) : State :=
  {| requestPayload := requestPayload st; requestCounter := requestCounter st;
     requestDebounce := requestDebounce st; requestSignals := f (requestSignals st);
     clock := clock st; timers := timers st; nextTimer := nextTimer st;
     controllers := controllers st; fetches := fetches st;
     thenListeners := thenListeners st; catchListeners := catchListeners st;
     abortListeners := abortListeners st; userAborted := userAborted st;
     callers := callers st; uncaught := uncaught st; events := events st |}.

Definition set_clock (f : nat → nat) (st : State) : State :=
  {| requestPayload := requestPayload st; requestCounter := requestCounter st;
     requestDebounce := requestDebounce st; requestSignals := requestSignals st;
     clock := f (clock st); timers := timers st; nextTimer := nextTimer st;
     controllers := controllers st; fetches := fetches st;
     thenListeners := thenListeners st; catchListeners := catchListeners st;
     abortListeners := abortListeners st; userAborted := userAborted st;
     callers := callers st; uncaught := uncaught st; events := events st |}.

Definition set_timers (f : gmap nat (nat * string) → gmap nat (nat * string)) (st : State) : State :=
  {| requestPayload := requestPayload st; requestCounter := requestCounter st;
     requestDebounce := requestDebounce st; requestSignals := requestSignals st;
     clock := clock st; timers := f (timers st); nextTimer := nextTimer st;
     controllers := controllers st; fetches := fetches st;
     thenListeners := thenListeners st; catchListeners := catchListeners st;
     abortListeners := abortListeners st; userAborted := userAborted st;
     callers := callers st; uncaught := uncaught st; events := events st |}.

Definition set_nextTimer (f : nat → nat) (st : State) : State :=
  {| requestPayload := requestPayload st; requestCounter := requestCounter st;
     requestDebounce := requestDebounce st; requestSignals := requestSignals st;
     clock := clock st; timers := timers st; nextTimer := f (nextTimer st);
     controllers := controllers st; fetches := fetches st;
     thenListeners := thenListeners st; catchListeners := catchListeners st;
     abortListeners := abortListeners st; userAborted := userAborted st;
     callers := callers st; uncaught := uncaught st; events := events st |}.

Definition set_controllers (f : list bool → list bool) (st : State) : State :=
  {| requestPayload := requestPayload st; requestCounter := requestCounter st;
     requestDebounce := requestDebounce st; requestSignals := requestSignals st;
     clock := clock st; timers := timers st; nextTimer := nextTimer st;
     controllers := f (controllers st); fetches := fetches st;
     thenListeners := thenListeners st; catchListeners := catchListeners st;
     abortListeners := abortListeners st; userAborted := userAborted st;
     callers := callers st; uncaught := uncaught st; events := events st |}.

Definition set_fetches (f : list Fetch → list Fetch) (st : State) : State :=
  {| requestPayload := requestPayload st; requestCounter := requestCounter st;
     requestDebounce := requestDebounce st; requestSignals := requestSignals st;
     clock := clock st; timers := timers st; nextTimer := nextTimer st;
     controllers := controllers st; fetches := f (fetches st);
     thenListeners := thenListeners st; catchListeners := catchListeners st;
     abortListeners := abortListeners st; userAborted := userAborted st;
     callers := callers st; uncaught := uncaught st; events := events st |}.

Definition set_thenListeners (f : list nat → list nat) (st : State) : State :=
  {| requestPayload := requestPayload st; requestCounter := requestCounter st;
     requestDebounce := requestDebounce st; requestSignals := requestSignals st;
     clock := clock st; timers := timers st; nextTimer := nextTimer st;
     controllers := controllers st; fetches := fetches st;
     thenListeners := f (thenListeners st); catchListeners := catchListeners st;
     abortListeners := abortListeners st; userAborted := userAborted st;
     callers := callers st; uncaught := uncaught st; events := events st |}.

Definition set_catchListeners (f : list nat → list nat) (st : State) : State :=
  {| requestPayload := requestPayload st; requestCounter := requestCounter st;
     requestDebounce := requestDebounce st; requestSignals := requestSignals st;
     clock := clock st; timers := timers st; nextTimer := nextTimer st;
     controllers := controllers st; fetches := fetches st;
     thenListeners := thenListeners st; catchListeners := f (catchListeners st);
     abortListeners := abortListeners st; userAborted := userAborted st;
     callers := callers st; uncaught := uncaught st; events := events st |}.

Definition set_abortListeners (f : list (nat * nat) → list (nat * nat)) (st : State) : State :=
  {| requestPayload := requestPayload st; requestCounter := requestCounter st;
     requestDebounce := requestDebounce st; requestSignals := requestSignals st;
     clock := clock st; timers := timers st; nextTimer := nextTimer st;
     controllers := controllers st; fetches := fetches st;
     thenListeners := thenListeners st; catchListeners := catchListeners st;
     abortListeners := f (abortListeners st); userAborted := userAborted st;
     callers := callers st; uncaught := uncaught st; events := events st |}.

Definition set_userAborted (f : gmap nat Error → gmap nat Error) (st : State) : State :=
  {| requestPayload := requestPayload st; requestCounter := requestCounter st;
     requestDebounce := requestDebounce st; requestSignals := requestSignals st;
     clock := clock st; timers := timers st; nextTimer := nextTimer st;
     controllers := controllers st; fetches := fetches st;
     thenListeners := thenListeners st; catchListeners := catchListeners st;
     abortListeners := abortListeners st; userAborted := f (userAborted st);
     callers := callers st; uncaught := uncaught st; events := events st |}.

Definition set_callers (f : list Caller → list Caller) (st : State) : State :=
  {| requestPayload := requestPayload st; requestCounter := requestCounter st;
     requestDebounce := requestDebounce st; requestSignals := requestSignals st;
     clock := clock st; timers := timers st; nextTimer := nextTimer st;
     controllers := controllers st; fetches := fetches st;
     thenListeners := thenListeners st; catchListeners := catchListeners st;
     abortListeners := abortListeners st; userAborted := userAborted st;
     callers := f (callers st); uncaught := uncaught st; events := events st |}.

Definition set_uncaught (f : list Error → list Error) (st : State) : State :=
  {| requestPayload := requestPayload st; requestCounter := requestCounter st;
     requestDebounce := requestDebounce st; requestSignals := requestSignals st;
     clock := clock st; timers := timers st; nextTimer := nextTimer st;
     controllers := controllers st; fetches := fetches st;
     thenListeners := thenListeners st; catchListeners := catchListeners st;
     abortListeners := abortListeners st; userAborted := userAborted st;
     callers := callers st; uncaught := f (uncaught st); events := events st |}.

Definition set_events (f : list WindowEvent → list WindowEvent) (st : State) : State :=
  {| requestPayload := requestPayload st; requestCounter := requestCounter st;
     requestDebounce := requestDebounce st; requestSignals := requestSignals st;
     clock := clock st; timers := timers st; nextTimer := nextTimer st;
     controllers := controllers st; fetches := fetches st;
     thenListeners := thenListeners st; catchListeners := catchListeners st;
     abortListeners := abortListeners st; userAborted := userAborted st;
     callers := callers st; uncaught := uncaught st; events := f (events st) |}.

(** ** Computations that may throw

    A JavaScript function body: it reads and writes the state and either
    returns or throws; what it wrote before throwing stays written. *)

Inductive Res (A : Type) :=
| Ok (a : A)
| Throw (e : Error).
Arguments Ok {A} a.
Arguments Throw {A} e.

Definition M (A : Type) : Type := State → Res A * State.

Definition ret {A} (a : A) : M A := λ st, (Ok a, st).

Definition bind {A B} (m : M A) (k : A → M B) : M B :=
  λ st, match m st with
        | (Ok a, st') => k a st'
        | (Throw e, st') => (Throw e, st')
        end.

Definition throw {A} (e : Error) : M A := λ st, (Throw e, st).

Definition modify (f : State → State) : M unit := λ st, (Ok tt, f st).

Definition when (b : bool) (m : M unit) : M unit := if b then m else ret tt.

Definition gets {A} (f : State → A) : M A := λ st, (Ok (f st), st).

Notation "'let!' x := m 'in' k" := (bind m (λ x, k))
  (at level 10, x name, m at level 100, k at level 200).
Notation "m ;; k" := (bind m (λ _, k))
  (at level 100, k at level 200, right associativity).

(** A listener called by the host: an exception leaving it is reported and
    the host goes on. *)
Definition runListener (m : M unit) (st : State) : State :=
  match m st with
  | (Ok _, st') => st'
  | (Throw e, st') => set_uncaught (λ l, l ++ [e]) st'
  end.

(** ** The host's primitives *)

(** [setTimeout(() => dispatchRequest(batchId), delay)] *)
Definition setTimeout (batchId : string) (delay : nat) : M nat :=
  λ st, let tid := nextTimer st in
        (Ok tid,
         set_nextTimer S (set_timers (insert tid (clock st + delay, batchId)) st)).

Definition clearTimeout (tid : nat) : M unit :=
  modify (set_timers (delete tid)).

(** [new AbortController()] *)
Definition newAbortController : M nat :=
  λ st, (Ok (length (controllers st)), set_controllers (λ l, l ++ [false]) st).

(** [controller.abort()] *)
Definition abortController (ctrl : nat) : M unit :=
  modify (set_controllers (λ l, <[ctrl := true]> l)).

(** [fetch(url, { ...options, signal })], with what is chained on it. *)
Definition fetch (u : string) (o : list (string * string))
    (s : option SignalRef) (k : Continuation) : M nat :=
  λ st, (Ok (length (fetches st)),
         set_fetches (λ l, l ++ [{| f_url := u; f_options := o; f_signal := s;
                                    f_cont := k; f_done := false |}]) st).

(** [new Promise(..)]: a fresh promise, with the closure's captures. *)
Definition newPromise (batchId : string) (s : option nat) : M nat :=
  λ st, (Ok (length (callers st)),
         set_callers (λ l, l ++ [{| c_batch := batchId; c_signal := s;
                                    c_settled := [] |}]) st).

Definition settle (x : Settlement) (c : Caller) : Caller :=
  {| c_batch := c_batch c; c_signal := c_signal c;
     c_settled := c_settled c ++ [x] |}.

Definition resolve (c : nat) (r : Response) : M unit :=
  modify (set_callers (alter (settle (Resolve r)) c)).

Definition reject (c : nat) (e : Error) : M unit :=
  modify (set_callers (alter (settle (Reject e)) c)).

(** The state of a caller's promise: settled by the first call of [resolve]
    or [reject], pending before. *)
Definition promise (c : nat) (st : State) : option Settlement :=
  match callers st !! c with
  | Some k => head (c_settled k)
  | None => None
  end.

Definition remove (c : nat) (l : list nat) : list nat :=
  filter (λ x, x ≠ c) l.

(** The reason a signal was aborted with, if it was. *)
Definition abortReason (s : SignalRef) (st : State) : option Error :=
  match s with
  | UserSignal n => userAborted st !! n
  | BatchSignal ctrl =>
      match controllers st !! ctrl with
      | Some true => Some abortError
      | _ => None
      end
  end.

(** [window.dispatchEvent]: the listeners registered when the event is
    dispatched are called in order, each one only if it is still registered
    when its turn comes. *)
Fixpoint callListeners (registry : State → list nat) (handler : nat → M unit)
    (snapshot : list nat) (st : State) : State :=
  match snapshot with
  | [] => st
  | c :: rest =>
      callListeners registry handler rest
        (if decide (c ∈ registry st) then runListener (handler c) st else st)
  end.

(** [counter[itemType]] and [counter[itemType] += 1] *)
Definition field (k : CounterKey) (c : RequestCounter) : nat :=
  match k with
  | Registered => registered c
  | Aborted => aborted c
  | Processed => processed c
  end.

Definition bump (k : CounterKey) (c : RequestCounter) : RequestCounter :=
  match k with
  | Registered => {| registered := registered c + 1; aborted := aborted c;
                     processed := processed c |}
  | Aborted => {| registered := registered c; aborted := aborted c + 1;
                  processed := processed c |}
  | Processed => {| registered := registered c; aborted := aborted c;
                    processed := processed c + 1 |}
  end.

(** [event.detail?.[batchId]] for an event whose detail is [{ [b]: v }]. *)
Definition detail {A} (b : string) (v : A) (batchId : string) : option A :=
  if decide (batchId = b) then Some v else None.

#[global] Instance Error_eq_dec : EqDecision Error.
Proof. solve_decision. Defined.

(** One callback turn of the event loop. *)
Inductive Event :=
| EvCall (u : string) (o : RequestInit)        (* batchFetch(u, o) *)
| EvAdvance (dt : nat)                          (* dt milliseconds pass *)
| EvTimeout (tid : nat)                         (* a due timeout runs *)
| EvFetchResolve (fid : nat) (r : Response)     (* a fetch promise fulfils *)
| EvFetchReject (fid : nat) (e : Error)         (* a fetch promise rejects *)
| EvAbort (s : nat) (reason : Error).           (* a caller aborts its signal *)

Definition markDone (fid : nat) : State → State :=
  set_fetches (alter (λ f, {| f_url := f_url f; f_options := f_options f;
                              f_signal := f_signal f; f_cont := f_cont f;
                              f_done := true |}) fid).

(** The reason of the signal a fetch runs under, if that signal is aborted. *)
Definition fetchAborted (f : Fetch) (st : State) : option Error :=
  match f_signal f with
  | Some s => abortReason s st
  | None => None
  end.

(** ** The 500ms variant (first module of [src/index.ts]) *)

Module V500.
Section WithHash.

(** [hash] of the [object-hash] package on the object
    [{ url: u, <key>: o }]; the key is part of what is hashed. *)
Variable hash : string → string → list (string * string) → string.

Definition incrementRequestCounter (batchId : string) (itemType : CounterKey) : M unit :=
  λ st, match requestCounter st !! batchId with
        | Some c => (Ok tt, set_requestCounter (insert batchId (bump itemType c)) st)
        | None => (Throw typeError, st)
        end.

Definition isRequestCounterMax (batchId : string) (itemType : CounterKey) : M bool :=
  gets (λ st,
    match requestCounter st !! batchId with
    | None => false
    | Some c =>
        if registered c =? 0 then false
        else registered c =? field itemType c
    end).

Definition unegisterRequest (batchId : string) : M unit :=
  modify (set_requestPayload (delete batchId)) ;;
  modify (set_requestCounter (delete batchId)) ;;
  modify (set_requestDebounce (delete batchId)) ;;
  modify (set_requestSignals (delete batchId)).

Definition dispatchRequest (batchId : string) : M unit :=
  let! ctrl := newAbortController in
  modify (set_requestSignals (insert batchId ctrl)) ;;
  let! payload := gets (λ st, requestPayload st !! batchId) in
  let! ctrl' := gets (λ st, requestSignals st !! batchId) in
  fetch (from_option url "" payload)
        (from_option options [] payload)
        (BatchSignal <$> ctrl')
        (Broadcast batchId) ;;
  ret tt.

Definition debounceRequest (batchId : string) : M unit :=
  let! old := gets (λ st, requestDebounce st !! batchId) in
  match old with
  | Some tid => clearTimeout tid
  | None => ret tt
  end ;;
  let! tid := setTimeout batchId 500 in
  modify (set_requestDebounce (insert batchId tid)).

Definition registerRequest (batchId : string) (u : string)
    (o : list (string * string)) : M unit :=
  let! p := gets (λ st, requestPayload st !! batchId) in
  match p with
  | Some _ => ret tt
  | None => modify (set_requestPayload (insert batchId {| url := u; options := o |}))
  end ;;
  let! c := gets (λ st, requestCounter st !! batchId) in
  match c with
  | Some _ => ret tt
  | None => modify (set_requestCounter
              (insert batchId {| registered := 0; aborted := 0; processed := 0 |}))
  end ;;
  incrementRequestCounter batchId Registered ;;
  debounceRequest batchId.

(** The three closures of one [batchFetch] call, over its [batchId],
    [signal], [resolve] and [reject] (the promise [c]). *)

Definition onBatchFetchThen (batchId : string) (c : nat)
    (b : string) (r : Response) : M unit :=
  match detail b r batchId with
  | Some response =>
      modify (set_thenListeners (remove c)) ;;
      incrementRequestCounter batchId Processed ;;
      let! full := isRequestCounterMax batchId Processed in
      when full (unegisterRequest batchId) ;;
      resolve c (clone response)
  | None => ret tt
  end.

Definition onBatchFetchCatch (batchId : string) (c : nat)
    (b : string) (e : Error) : M unit :=
  match detail b e batchId with
  | Some error =>
      modify (set_catchListeners (remove c)) ;;
      incrementRequestCounter batchId Processed ;;
      let! full := isRequestCounterMax batchId Processed in
      when full (unegisterRequest batchId) ;;
      reject c error
  | None => ret tt
  end.

Definition onAbort (batchId : string) (s : nat) (c : nat) : M unit :=
  modify (set_thenListeners (remove c)) ;;
  modify (set_catchListeners (remove c)) ;;
  incrementRequestCounter batchId Aborted ;;
  let! full := isRequestCounterMax batchId Aborted in
  when full (
    let! d := gets (λ st, requestDebounce st !! batchId) in
    match d with
    | Some tid => clearTimeout tid
    | None => ret tt
    end ;;
    let! g := gets (λ st, requestSignals st !! batchId) in
    match g with
    | Some ctrl => abortController ctrl
    | None => ret tt
    end ;;
    unegisterRequest batchId) ;;
  (* try { signal.throwIfAborted() } catch (error) { reject(error) } *)
  let! reason := gets (λ st, userAborted st !! s) in
  match reason with
  | Some error => reject c error
  | None => ret tt
  end.

Definition batchFetch (u : string) (o : RequestInit) : M nat :=
  let batchId := hash u "otherOptions" (otherOptions o) in
  let! dispatched := gets (λ st, requestSignals st !! batchId) in
  match dispatched with
  | Some _ =>
    (* return fetch(url, options) *)
    let! c := newPromise batchId (signal o) in
    fetch u (otherOptions o) (UserSignal <$> signal o) (Direct c) ;;
    ret c
  | None =>
    registerRequest batchId u (otherOptions o) ;;
    let! c := newPromise batchId (signal o) in
    modify (set_thenListeners (λ l, l ++ [c])) ;;
    modify (set_catchListeners (λ l, l ++ [c])) ;;
    match signal o with
    | Some s => modify (set_abortListeners (λ l, l ++ [(s, c)]))
    | None => ret tt
    end ;;
    ret c
  end.

(** The listeners as the host calls them: the closure of caller [c]. *)

Definition listenerThen (b : string) (r : Response) (c : nat) : M unit :=
  let! k := gets (λ st, callers st !! c) in
  match k with
  | Some k => onBatchFetchThen (c_batch k) c b r
  | None => ret tt
  end.

Definition listenerCatch (b : string) (e : Error) (c : nat) : M unit :=
  let! k := gets (λ st, callers st !! c) in
  match k with
  | Some k => onBatchFetchCatch (c_batch k) c b e
  | None => ret tt
  end.

Definition listenerAbort (s : nat) (c : nat) : M unit :=
  let! k := gets (λ st, callers st !! c) in
  match k with
  | Some k => onAbort (c_batch k) s c
  | None => ret tt
  end.

Definition dispatchEvent (ev : WindowEvent) (st : State) : State :=
  let st1 := set_events (λ l, l ++ [ev]) st in
  match ev with
  | BatchFetchThen b r =>
      callListeners thenListeners (listenerThen b r) (thenListeners st1) st1
  | BatchFetchCatch b e =>
      callListeners catchListeners (listenerCatch b e) (catchListeners st1) st1
  end.

(** [dispatchRequest]'s [.then] and [.catch] callbacks. *)

Definition dispatchRequest_then (batchId : string) (response : Response) : State → State :=
  dispatchEvent (BatchFetchThen batchId response).

Definition dispatchRequest_catch (batchId : string) (error : Error) : State → State :=
  if decide (name error = "AbortError") then id
  else dispatchEvent (BatchFetchCatch batchId error).

(** A caller's signal fires 'abort': its listeners, registered with
    [once], are taken off and called in order. *)
Definition fireAbort (s : nat) (st : State) : State :=
  let snapshot := filter (λ p, p.1 = s) (abortListeners st) in
  foldl (λ acc p, runListener (listenerAbort s p.2) acc)
        (set_abortListeners (filter (λ p, p.1 ≠ s)) st) snapshot.

(** What follows a fetch promise that fulfils or rejects. *)

Definition fetchFulfilled (f : Fetch) (r : Response) (st : State) : State :=
  match f_cont f with
  | Broadcast b => dispatchRequest_then b r st
  | Direct c => (resolve c r st).2
  end.

Definition fetchRejected (f : Fetch) (e : Error) (st : State) : State :=
  match f_cont f with
  | Broadcast b => dispatchRequest_catch b e st
  | Direct c => (reject c e st).2
  end.

(** One turn.  [None]: the host cannot produce this event in this state (a
    timeout that is not pending or not due; a fetch that is unknown or has
    completed; a fetch under an aborted signal completing otherwise than by
    rejecting with the signal's reason). *)
Definition step (ev : Event) (st : State) : option State :=
  match ev with
  | EvCall u o => Some (batchFetch u o st).2
  | EvAdvance dt => Some (set_clock (λ t, t + dt) st)
  | EvTimeout tid =>
      match timers st !! tid with
      | Some (due, batchId) =>
          if decide (due ≤ clock st)
          then Some (runListener (dispatchRequest batchId) (set_timers (delete tid) st))
          else None
      | None => None
      end
  | EvFetchResolve fid r =>
      match fetches st !! fid with
      | Some f =>
          if f_done f then None
          else match fetchAborted f st with
               | Some _ => None
               | None => Some (fetchFulfilled f r (markDone fid st))
               end
      | None => None
      end
  | EvFetchReject fid e =>
      match fetches st !! fid with
      | Some f =>
          if f_done f then None
          else match fetchAborted f st with
               | Some reason =>
                   if decide (reason = e)
                   then Some (fetchRejected f e (markDone fid st))
                   else None
               | None => Some (fetchRejected f e (markDone fid st))
               end
      | None => None
      end
  | EvAbort s reason =>
      match userAborted st !! s with
      | Some _ => Some st
      | None => Some (fireAbort s (set_userAborted (insert s reason) st))
      end
  end.

Fixpoint run (evs : list Event) (st : State) : option State :=
  match evs with
  | [] => Some st
  | ev :: rest =>
      match step ev st with
      | Some st' => run rest st'
      | None => None
      end
  end.

End WithHash.
End V500.

(** ** The 1000ms variant (second module of [src/index.ts]) *)

Module V1000.
Section WithHash.

Variable hash : string → string → list (string * string) → string.

(** [(requestCounter[batchId] as RequestCounter).k = f(..)]: the cast checks
    nothing, a missing entry throws. *)
Definition updateCounter (batchId : string)
    (f : RequestCounter → RequestCounter) : M unit :=
  λ st, match requestCounter st !! batchId with
        | Some c => (Ok tt, set_requestCounter (insert batchId (f c)) st)
        | None => (Throw typeError, st)
        end.

(** [requestCounter?.[batchId]?.k === requestCounter?.[batchId]?.registered] *)
Definition counterEquals (batchId : string) (k : CounterKey) : M bool :=
  gets (λ st,
    match requestCounter st !! batchId with
    | Some c => field k c =? registered c
    | None => true
    end).

Definition unegisterRequest (batchId : string) : M unit :=
  modify (set_requestPayload (delete batchId)) ;;
  modify (set_requestCounter (delete batchId)) ;;
  modify (set_requestDebounce (delete batchId)) ;;
  modify (set_requestSignals (delete batchId)).

Definition dispatchRequest (batchId : string) : M unit :=
  let! ctrl := newAbortController in
  modify (set_requestSignals (insert batchId ctrl)) ;;
  let! payload := gets (λ st, requestPayload st !! batchId) in
  let! ctrl' := gets (λ st, requestSignals st !! batchId) in
  fetch (from_option url "" payload)
        (from_option options [] payload)
        (BatchSignal <$> ctrl')
        (Broadcast batchId) ;;
  ret tt.

Definition debounceRequest (batchId : string) : M unit :=
  let! old := gets (λ st, requestDebounce st !! batchId) in
  match old with
  | Some tid => clearTimeout tid
  | None => ret tt
  end ;;
  let! tid := setTimeout batchId 1000 in
  modify (set_requestDebounce (insert batchId tid)).

Definition alreadyDispatched : Error :=
  {| name := "Error"; message := "Request already dispatched" |}.

Definition registerRequest (u : string) (o : list (string * string)) : M string :=
  let batchId := hash u "options" o in
  let! g := gets (λ st, requestSignals st !! batchId) in
  match g with
  | Some _ => throw alreadyDispatched
  | None => ret tt
  end ;;
  let! p := gets (λ st, requestPayload st !! batchId) in
  match p with
  | Some _ => ret tt
  | None => modify (set_requestPayload (insert batchId {| url := u; options := o |}))
  end ;;
  let! c := gets (λ st, requestCounter st !! batchId) in
  match c with
  | Some _ => ret tt
  | None => modify (set_requestCounter
              (insert batchId {| registered := 0; aborted := 0; processed := 0 |}))
  end ;;
  updateCounter batchId (bump Registered) ;;
  debounceRequest batchId ;;
  ret batchId.

Definition onBatchFetchThen (batchId : string) (c : nat)
    (b : string) (r : Response) : M unit :=
  match detail b r batchId with
  | Some response =>
      modify (set_thenListeners (remove c)) ;;
      updateCounter batchId (bump Processed) ;;
      let! full := counterEquals batchId Processed in
      when full (unegisterRequest batchId) ;;
      resolve c (clone response)
  | None => ret tt
  end.

Definition onBatchFetchCatch (batchId : string) (c : nat)
    (b : string) (e : Error) : M unit :=
  match detail b e batchId with
  | Some error =>
      modify (set_catchListeners (remove c)) ;;
      updateCounter batchId (bump Processed) ;;
      let! full := counterEquals batchId Processed in
      when full (unegisterRequest batchId) ;;
      reject c error
  | None => ret tt
  end.

Definition onAbort (batchId : string) (s : nat) (c : nat) : M unit :=
  modify (set_thenListeners (remove c)) ;;
  modify (set_catchListeners (remove c)) ;;
  (* (requestCounter[batchId] as RequestCounter).aborted = 1 *)
  updateCounter batchId
    (λ k, {| registered := registered k; aborted := 1; processed := processed k |}) ;;
  let! full := counterEquals batchId Aborted in
  when full (
    let! g := gets (λ st, requestSignals st !! batchId) in
    match g with
    | Some ctrl => abortController ctrl
    | None => ret tt
    end ;;
    let! d := gets (λ st, requestDebounce st !! batchId) in
    match d with
    | Some tid => clearTimeout tid
    | None => ret tt
    end ;;
    unegisterRequest batchId) ;;
  let! reason := gets (λ st, userAborted st !! s) in
  match reason with
  | Some error => reject c error
  | None => ret tt
  end.

Definition batchFetch (u : string) (o : RequestInit) : M nat :=
  let! batchId := registerRequest u (otherOptions o) in
  let! c := newPromise batchId (signal o) in
  modify (set_thenListeners (λ l, l ++ [c])) ;;
  modify (set_catchListeners (λ l, l ++ [c])) ;;
  match signal o with
  | Some s => modify (set_abortListeners (λ l, l ++ [(s, c)]))
  | None => ret tt
  end ;;
  ret c.

Definition listenerThen (b : string) (r : Response) (c : nat) : M unit :=
  let! k := gets (λ st, callers st !! c) in
  match k with
  | Some k => onBatchFetchThen (c_batch k) c b r
  | None => ret tt
  end.

Definition listenerCatch (b : string) (e : Error) (c : nat) : M unit :=
  let! k := gets (λ st, callers st !! c) in
  match k with
  | Some k => onBatchFetchCatch (c_batch k) c b e
  | None => ret tt
  end.

Definition listenerAbort (s : nat) (c : nat) : M unit :=
  let! k := gets (λ st, callers st !! c) in
  match k with
  | Some k => onAbort (c_batch k) s c
  | None => ret tt
  end.

Definition dispatchEvent (ev : WindowEvent) (st : State) : State :=
  let st1 := set_events (λ l, l ++ [ev]) st in
  match ev with
  | BatchFetchThen b r =>
      callListeners thenListeners (listenerThen b r) (thenListeners st1) st1
  | BatchFetchCatch b e =>
      callListeners catchListeners (listenerCatch b e) (catchListeners st1) st1
  end.

Definition dispatchRequest_then (batchId : string) (response : Response) : State → State :=
  dispatchEvent (BatchFetchThen batchId response).

Definition dispatchRequest_catch (batchId : string) (error : Error) : State → State :=
  if decide (name error = "AbortError") then id
  else dispatchEvent (BatchFetchCatch batchId error).

Definition fireAbort (s : nat) (st : State) : State :=
  let snapshot := filter (λ p, p.1 = s) (abortListeners st) in
  foldl (λ acc p, runListener (listenerAbort s p.2) acc)
        (set_abortListeners (filter (λ p, p.1 ≠ s)) st) snapshot.

Definition fetchFulfilled (f : Fetch) (r : Response) (st : State) : State :=
  match f_cont f with
  | Broadcast b => dispatchRequest_then b r st
  | Direct c => (resolve c r st).2
  end.

Definition fetchRejected (f : Fetch) (e : Error) (st : State) : State :=
  match f_cont f with
  | Broadcast b => dispatchRequest_catch b e st
  | Direct c => (reject c e st).2
  end.

(** As [V500.step]; a call that throws leaves the state as it was when it
    threw. *)
Definition step (ev : Event) (st : State) : option State :=
  match ev with
  | EvCall u o => Some (batchFetch u o st).2
  | EvAdvance dt => Some (set_clock (λ t, t + dt) st)
  | EvTimeout tid =>
      match timers st !! tid with
      | Some (due, batchId) =>
          if decide (due ≤ clock st)
          then Some (runListener (dispatchRequest batchId) (set_timers (delete tid) st))
          else None
      | None => None
      end
  | EvFetchResolve fid r =>
      match fetches st !! fid with
      | Some f =>
          if f_done f then None
          else match fetchAborted f st with
               | Some _ => None
               | None => Some (fetchFulfilled f r (markDone fid st))
               end
      | None => None
      end
  | EvFetchReject fid e =>
      match fetches st !! fid with
      | Some f =>
          if f_done f then None
          else match fetchAborted f st with
               | Some reason =>
                   if decide (reason = e)
                   then Some (fetchRejected f e (markDone fid st))
                   else None
               | None => Some (fetchRejected f e (markDone fid st))
               end
      | None => None
      end
  | EvAbort s reason =>
      match userAborted st !! s with
      | Some _ => Some st
      | None => Some (fireAbort s (set_userAborted (insert s reason) st))
      end
  end.

Fixpoint run (evs : list Event) (st : State) : option State :=
  match evs with
  | [] => Some st
  | ev :: rest =>
      match step ev st with
      | Some st' => run rest st'
      | None => None
      end
  end.

End WithHash.
End V1000.

(** * Specification-level definitions *)

(** ** What each function leaves behind *)

(** The counter [registerRequest] starts a batch with. *)
Definition noCounter : RequestCounter :=
  {| registered := 0; aborted := 0; processed := 0 |}.

(** The state a registering call leaves: [registerRequest], then the promise
    and its listeners. *)
Definition joinedState (delay : nat) (b u : string) (o : RequestInit) (st : State) : State :=
  {| requestPayload :=
       match requestPayload st !! b with
       | Some _ => requestPayload st
       | None => <[b := {| url := u; options := otherOptions o |}]> (requestPayload st)
       end;
     requestCounter :=
       <[b := bump Registered
                (default {| registered := 0; aborted := 0; processed := 0 |}
                         (requestCounter st !! b))]> (requestCounter st);
     requestDebounce := <[b := nextTimer st]> (requestDebounce st);
     requestSignals := requestSignals st;
     clock := clock st;
     timers := <[nextTimer st := (clock st + delay, b)]>
                 (match requestDebounce st !! b with
                  | Some tid => delete tid (timers st)
                  | None => timers st
                  end);
     nextTimer := S (nextTimer st);
     controllers := controllers st;
     fetches := fetches st;
     thenListeners := thenListeners st ++ [length (callers st)];
     catchListeners := catchListeners st ++ [length (callers st)];
     abortListeners := abortListeners st ++
       match signal o with Some s => [(s, length (callers st))] | None => [] end;
     userAborted := userAborted st;
     callers := callers st ++ [{| c_batch := b; c_signal := signal o; c_settled := [] |}];
     uncaught := uncaught st;
     events := events st |}.

(** The state a late call leaves in the 500ms variant: a promise, and a
    [fetch] of its own whose promise it is. *)
Definition bypassedState (hash : string → string → list (string * string) → string)
    (u : string) (o : RequestInit) (st : State) : State :=
  set_fetches (λ l, l ++ [{| f_url := u; f_options := otherOptions o;
                             f_signal := UserSignal <$> signal o;
                             f_cont := Direct (length (callers st));
                             f_done := false |}])
    (set_callers (λ l, l ++ [{| c_batch := hash u "otherOptions" (otherOptions o);
                                c_signal := signal o; c_settled := [] |}]) st).

(** What [unegisterRequest] leaves. *)
Definition retired (b : string) (st : State) : State :=
  set_requestSignals (delete b)
    (set_requestDebounce (delete b)
       (set_requestCounter (delete b)
          (set_requestPayload (delete b) st))).

(** [isRequestCounterMax] on a counter. *)
Definition isMax (k : CounterKey) (c : RequestCounter) : bool :=
  if registered c =? 0 then false else registered c =? field k c.

(** What the [batchFetchThen] and [batchFetchCatch] listeners of the 500ms
    variant do to the state when the event is for their batch. *)
Definition delivered (b : string) (c : nat) (x : Settlement)
    (unlisten : State → State) (st : State) : State :=
  match requestCounter st !! b with
  | None => set_uncaught (λ l, l ++ [typeError]) (unlisten st)
  | Some cnt =>
      set_callers (alter (settle x) c)
        (if isMax Processed (bump Processed cnt)
         then retired b (set_requestCounter (insert b (bump Processed cnt)) (unlisten st))
         else set_requestCounter (insert b (bump Processed cnt)) (unlisten st))
  end.

(** What the abort listener of the 500ms variant does to the state. *)
Definition withdrawn (b : string) (s c : nat) (st : State) : State :=
  let st1 := set_catchListeners (remove c) (set_thenListeners (remove c) st) in
  match requestCounter st !! b with
  | None => set_uncaught (λ l, l ++ [typeError]) st1
  | Some cnt =>
      let st2 := set_requestCounter (insert b (bump Aborted cnt)) st1 in
      let st3 :=
        if isMax Aborted (bump Aborted cnt)
        then retired b
               (match requestSignals st !! b with
                | Some ctrl => set_controllers (λ l, <[ctrl := true]> l)
                | None => id
                end
                  (match requestDebounce st !! b with
                   | Some tid => set_timers (delete tid)
                   | None => id
                   end st2))
        else st2 in
      match userAborted st !! s with
      | Some e => set_callers (alter (settle (Reject e)) c) st3
      | None => st3
      end
  end.

(** What [dispatchRequest] leaves: a fresh controller, registered for the
    batch, and one more fetch, with the payload of the batch if it has one. *)
Definition dispatched (b : string) (st : State) : State :=
  set_fetches (λ l, l ++ [{| f_url := from_option url "" (requestPayload st !! b);
                             f_options := from_option options [] (requestPayload st !! b);
                             f_signal := Some (BatchSignal (length (controllers st)));
                             f_cont := Broadcast b;
                             f_done := false |}])
    (set_requestSignals (insert b (length (controllers st)))
       (set_controllers (λ l, l ++ [false]) st)).

(** What two calls in a row that coalesce leave behind: two promises whose
    closures hold the same [batchId], one counter entry that counts both,
    and a single pending timer, the second call's. *)
Definition coalesced (b : string) (o1 o2 : RequestInit) (st st2 : State) : Prop :=
  callers st2 = callers st ++
    [{| c_batch := b; c_signal := signal o1; c_settled := [] |};
     {| c_batch := b; c_signal := signal o2; c_settled := [] |}]
  ∧ requestCounter st2 !! b =
      Some (bump Registered (bump Registered (default noCounter (requestCounter st !! b))))
  ∧ requestDebounce st2 !! b = Some (S (nextTimer st))
  ∧ timers st2 !! nextTimer st = None
  ∧ (∃ due, timers st2 !! S (nextTimer st) = Some (due, b)).

(** ** Broadcasts *)

(** The batch an event is for, what its listeners hand to their promise,
    where they are registered and how one takes itself off. *)
Definition batchOf (ev : WindowEvent) : string :=
  match ev with BatchFetchThen b _ | BatchFetchCatch b _ => b end.

Definition settlementOf (ev : WindowEvent) : Settlement :=
  match ev with
  | BatchFetchThen _ r => Resolve (clone r)
  | BatchFetchCatch _ e => Reject e
  end.

Definition listenersOf (ev : WindowEvent) (st : State) : list nat :=
  match ev with
  | BatchFetchThen _ _ => thenListeners st
  | BatchFetchCatch _ _ => catchListeners st
  end.

Definition unlisten (ev : WindowEvent) (c : nat) : State → State :=
  match ev with
  | BatchFetchThen _ _ => set_thenListeners (remove c)
  | BatchFetchCatch _ _ => set_catchListeners (remove c)
  end.

Definition broadcastListener (ev : WindowEvent) (c : nat) : M unit :=
  match ev with
  | BatchFetchThen b r => V500.listenerThen b r c
  | BatchFetchCatch b e => V500.listenerCatch b e c
  end.

(** Caller [c] exists and its closures hold [b]. *)
Definition isCallerOf (b : string) (st : State) (c : nat) : bool :=
  match callers st !! c with
  | Some k => bool_decide (c_batch k = b)
  | None => false
  end.

(** The counter after [n] more callers have been processed. *)
Definition processedBy (n : nat) (cnt : RequestCounter) : RequestCounter :=
  {| registered := registered cnt; aborted := aborted cnt;
     processed := processed cnt + n |}.

(** What a broadcast leaves, [L] being the callers of the batch among the
    listeners called and [cnt] the batch's counter before. *)
Record Broadcasted (ev : WindowEvent) (L : list nat) (cnt : RequestCounter)
    (st st' : State) : Prop := {
  bc_callers : ∀ c, callers st' !! c =
    if decide (c ∈ L) then settle (settlementOf ev) <$> callers st !! c
    else callers st !! c;
  bc_listeners : listenersOf ev st' = filter (λ c, c ∉ L) (listenersOf ev st);
  bc_uncaught : uncaught st' = uncaught st;
  bc_registry :
    if bool_decide (L ≠ [] ∧ processed cnt + length L = registered cnt)
    then requestCounter st' = delete (batchOf ev) (requestCounter st)
         ∧ requestPayload st' = delete (batchOf ev) (requestPayload st)
         ∧ requestDebounce st' = delete (batchOf ev) (requestDebounce st)
         ∧ requestSignals st' = delete (batchOf ev) (requestSignals st)
    else requestCounter st' =
           <[batchOf ev := processedBy (length L) cnt]> (requestCounter st)
         ∧ requestPayload st' = requestPayload st
         ∧ requestDebounce st' = requestDebounce st
         ∧ requestSignals st' = requestSignals st;
}.

(** An outcome of the transport call that the dispatcher passes on: a
    response, or an error that is not an abort error. *)
Definition broadcastable (out : Settlement) : Prop :=
  match out with
  | Resolve _ => True
  | Reject e => name e ≠ "AbortError"
  end.

(** The host event by which fetch [fid] completes with this outcome. *)
Definition completion (fid : nat) (out : Settlement) : Event :=
  match out with
  | Resolve r => EvFetchResolve fid r
  | Reject e => EvFetchReject fid e
  end.

(** What a caller of the batch receives of the outcome. *)
Definition delivery (out : Settlement) : Settlement :=
  match out with
  | Resolve r => Resolve (clone r)
  | Reject e => Reject e
  end.

(** The window event that carries the outcome to the callers of [b]. *)
Definition eventOf (b : string) (out : Settlement) : WindowEvent :=
  match out with
  | Resolve r => BatchFetchThen b r
  | Reject e => BatchFetchCatch b e
  end.

(** ** A batch under way *)

(** Nothing is registered under [b], and the window listeners are callers
    that exist. *)
Record quiescent (b : string) (st : State) : Prop := {
  q_payload : requestPayload st !! b = None;
  q_counter : requestCounter st !! b = None;
  q_debounce : requestDebounce st !! b = None;
  q_signals : requestSignals st !! b = None;
  q_then : ∀ c, c ∈ thenListeners st → c < length (callers st);
  q_catch : ∀ c, c ∈ catchListeners st → c < length (callers st);
}.

(** No listener for the event that carries this outcome belongs to a caller
    of [b]: none is left over from an earlier batch with this signature. *)
Definition unheard (b : string) (out : Settlement) (st : State) : Prop :=
  ∀ c, c ∈ listenersOf (eventOf b out) st → isCallerOf b st c = false.

(** A call for the url and options of the batch, or time passing. *)
Definition isJoin (u : string) (other : list (string * string)) (ev : Event) : Prop :=
  match ev with
  | EvCall u' o => u' = u ∧ otherOptions o = other
  | EvAdvance _ => True
  | _ => False
  end.

(** The signals of the calls among the events, in order. *)
Definition joinSignals (evs : list Event) : list (option nat) :=
  omap (λ ev, match ev with EvCall _ o => Some (signal o) | _ => None end) evs.

(** The abort listeners of callers numbered from [c] on with these signals. *)
Fixpoint abortEntries (c : nat) (sigs : list (option nat)) : list (nat * nat) :=
  match sigs with
  | [] => []
  | s :: rest =>
      match s with Some s => [(s, c)] | None => [] end ++ abortEntries (S c) rest
  end.

(** Where a batch is between its first call and its outcome. *)
Inductive Phase :=
| Debouncing (tid due : nat)   (* the timer [tid] is pending, due at [due] *)
| InFlight (tid : nat).        (* the timer [tid] has run, the fetch is out *)

(** The fetch [dispatchRequest] makes for the batch. *)
Definition batchFetchOf (b u : string) (other : list (string * string))
    (st0 : State) (done : bool) : Fetch :=
  {| f_url := u; f_options := other;
     f_signal := Some (BatchSignal (length (controllers st0)));
     f_cont := Broadcast b; f_done := done |}.

(** A batch under way, as seen from the state [st0] it started in: the
    callers with signals [sigs] joined, in this order, and those in [K] have
    withdrawn, each with the reason its signal was aborted with. *)
Record Batch (b u : string) (other : list (string * string)) (st0 : State)
    (sigs : list (option nat)) (K : gmap nat Error) (ph : Phase) (st : State) : Prop := {
  batch_len : length (callers st) = length (callers st0) + length sigs;
  batch_old : ∀ c, c < length (callers st0) → callers st !! c = callers st0 !! c;
  batch_new : ∀ i s, sigs !! i = Some s →
    callers st !! (length (callers st0) + i) =
      Some {| c_batch := b; c_signal := s;
              c_settled := match K !! (length (callers st0) + i) with
                           | Some e => [Reject e]
                           | None => []
                           end |};
  batch_then : thenListeners st =
    thenListeners st0 ++
      filter (λ c, K !! c = None) (seq (length (callers st0)) (length sigs));
  batch_catch : catchListeners st =
    catchListeners st0 ++
      filter (λ c, K !! c = None) (seq (length (callers st0)) (length sigs));
  batch_counter : requestCounter st !! b =
    Some {| registered := length sigs; aborted := size K; processed := 0 |};
  batch_payload : requestPayload st !! b = Some {| url := u; options := other |};
  batch_phase :
    match ph with
    | Debouncing tid due =>
        requestSignals st !! b = None
        ∧ requestDebounce st !! b = Some tid
        ∧ timers st !! tid = Some (due, b)
        ∧ fetches st = fetches st0
        ∧ controllers st = controllers st0
    | InFlight tid =>
        requestSignals st !! b = Some (length (controllers st0))
        ∧ requestDebounce st !! b = Some tid
        ∧ timers st !! tid = None
        ∧ fetches st = fetches st0 ++ [batchFetchOf b u other st0 false]
        ∧ controllers st = controllers st0 ++ [false]
    end;
  batch_uncaught : uncaught st = uncaught st0;
  batch_events : events st = events st0;
}.

(** The state while the calls of a batch come in: before the first call
    nothing but the clock has changed; from the first call on the batch is
    debouncing and nobody has withdrawn. *)
Definition Gathered (b u : string) (other : list (string * string)) (st0 : State)
    (sigs : list (option nat)) (st : State) : Prop :=
  abortListeners st = abortListeners st0 ++ abortEntries (length (callers st0)) sigs
  ∧ userAborted st = userAborted st0
  ∧ match sigs with
    | [] => set_clock (λ _, 0) st = set_clock (λ _, 0) st0
    | _ => ∃ tid due, Batch b u other st0 sigs ∅ (Debouncing tid due) st
    end.

(** [K] holds exactly the callers whose signal is in [A]. *)
Definition cancelledBy (c0 : nat) (sigs : list (option nat))
    (A K : gmap nat Error) : Prop :=
  (∀ i s, sigs !! i = Some s → K !! (c0 + i) = s ≫= (A !!.))
  ∧ (∀ c, is_Some (K !! c) → c0 ≤ c < c0 + length sigs).

(** A batch under way whose withdrawn callers are those whose signal was
    aborted, [A] giving the aborted signals and their reasons. *)
Definition Serving (b u : string) (other : list (string * string)) (st0 : State)
    (sigs : list (option nat)) (A : gmap nat Error) (ph : Phase) (st : State) : Prop :=
  ∃ K, Batch b u other st0 sigs K ph st
       ∧ cancelledBy (length (callers st0)) sigs A K
       ∧ abortListeners st =
           abortListeners st0 ++
             filter (λ p, A !! p.1 = None) (abortEntries (length (callers st0)) sigs)
       ∧ userAborted st = A ∪ userAborted st0.

(** What the batch may go through once its callers have joined: time
    passing, its timer running, a caller's signal aborted.  The signals are
    the callers' own: not aborted and not listened to before the batch. *)
Definition isService (st0 : State) (tid : nat) (ev : Event) : Prop :=
  match ev with
  | EvAdvance _ => True
  | EvTimeout t => t = tid
  | EvAbort s _ => userAborted st0 !! s = None ∧ ∀ c, (s, c) ∉ abortListeners st0
  | _ => False
  end.

(** The signals aborted by the events, each with its first reason. *)
Definition recordAbort (A : gmap nat Error) (ev : Event) : gmap nat Error :=
  match ev with
  | EvAbort s e => match A !! s with Some _ => A | None => <[s := e]> A end
  | _ => A
  end.

Definition abortsOf (A : gmap nat Error) (evs : list Event) : gmap nat Error :=
  foldl recordAbort A evs.

(** The timer runs among the events. *)
Definition hasTimeout (evs : list Event) : bool :=
  existsb (λ ev, match ev with EvTimeout _ => true | _ => false end) evs.

(** The timer of the batch, and the phase the batch is in after the events. *)
Definition tidOf (ph : Phase) : nat :=
  match ph with Debouncing tid _ | InFlight tid => tid end.

Definition phaseAfter (ph : Phase) (evs : list Event) : Phase :=
  if hasTimeout evs then InFlight (tidOf ph) else ph.

(** ** Inputs of the worked examples *)

(** [object-hash] is not part of the repository; the examples use this
    stand-in, which writes its three arguments out. *)
Definition sampleHash (u key : string) (o : list (string * string)) : string :=
  (u +:+ "|" +:+ key +:+ "|"
     +:+ foldr (λ p acc, p.1 +:+ "=" +:+ p.2 +:+ ";" +:+ acc) "" o)%string.

(** A signature function that ignores the name of the options property, so
    that one state can be read by both variants. *)
Definition keylessHash (u key : string) (o : list (string * string)) : string :=
  (u +:+ "|"
     +:+ foldr (λ p acc, p.1 +:+ "=" +:+ p.2 +:+ ";" +:+ acc) "" o)%string.

Definition get : RequestInit :=
  {| signal := None; otherOptions := [("method", "GET")] |}.

Definition getWith (s : nat) : RequestInit :=
  {| signal := Some s; otherOptions := [("method", "GET")] |}.

Definition ok200 : Response := {| status := 200; body := "{}" |}.

Definition failedToFetch : Error :=
  {| name := "TypeError"; message := "Failed to fetch" |}.

(** A reason given to [controller.abort(reason)]. *)
Definition navigatedAway : Error :=
  {| name := "AbortError"; message := "navigated away" |}.

(** The [batchId] of the worked examples, in each variant. *)
Definition apiGet500 : string := sampleHash "/api" "otherOptions" [("method", "GET")].
Definition apiGet1000 : string := sampleHash "/api" "options" [("method", "GET")].

(** The state once a first call for ["/api"] has been dispatched. *)
Definition dispatchedState : State :=
  default init
    (V500.run keylessHash [EvCall "/api" get; EvAdvance 500; EvTimeout 1] init).

(** The state once the only caller of a dispatched batch has aborted: the
    batch's own controller is aborted, its fetch still in flight. *)
Definition escalatedState : State :=
  default init
    (V500.run sampleHash
       [EvCall "/api" (getWith 7); EvAdvance 500; EvTimeout 1; EvAbort 7 abortError]
       init).

(** The state once the only caller of a batch has received the response and
    the batch is retired; the caller's abort listener is still installed. *)
Definition retiredState : State :=
  default init
    (V500.run sampleHash
       [EvCall "/api" (getWith 7); EvAdvance 500; EvTimeout 1; EvFetchResolve 0 ok200]
       init).

(** Three calls that coalesce, the third 100ms after the others. *)
Definition threeCalls : list Event :=
  [EvCall "/api" (getWith 7); EvCall "/api" get; EvAdvance 100; EvCall "/api" (getWith 8)].

(** The first caller withdraws, the timer runs when it is due, the third
    caller withdraws. *)
Definition twoWithdraw : list Event :=
  [EvAbort 7 abortError; EvAdvance 500; EvTimeout 3; EvAbort 8 navigatedAway].

(** * Further specification-level definitions *)

(** ** Outcomes and the listeners left behind *)



(** ** The quiet window *)

(** The time that has passed since the last call among the events (since
    the start when there is none). *)
Definition quiet (evs : list Event) : nat :=
  foldl (λ q ev, match ev with
                 | EvCall _ _ => 0
                 | EvAdvance dt => q + dt
                 | _ => q
                 end) 0 evs.

(** The debounce timer of [b] after the events of a gathering: none before
    the first call; afterwards a single one, the one [requestDebounce]
    holds, due [d] after the last call. *)
Definition armed (d : nat) (b : string) (evs : list Event) (st : State) : Prop :=
  match joinSignals evs with
  | [] => requestDebounce st !! b = None
          ∧ ∀ tid due, timers st !! tid ≠ Some (due, b)
  | _ => ∃ tid due,
      requestDebounce st !! b = Some tid
      ∧ timers st !! tid = Some (due, b)
      ∧ due + quiet evs = clock st + d
      ∧ ∀ tid' due', timers st !! tid' = Some (due', b) → tid' = tid
  end.

(** ** The abort listeners of both variants *)

(** What an abort listener does to the state, [upd] being how it updates the
    counter and [full] the test it makes afterwards: the 500ms variant
    increments [aborted] and asks [isRequestCounterMax], the 1000ms variant
    sets [aborted] to 1 and compares it with [registered]. *)
Definition abortedWith (upd : RequestCounter → RequestCounter)
    (full : RequestCounter → bool) (b : string) (s c : nat) (st : State) : State :=
  let st1 := set_catchListeners (remove c) (set_thenListeners (remove c) st) in
  match requestCounter st !! b with
  | None => set_uncaught (λ l, l ++ [typeError]) st1
  | Some cnt =>
      let st2 := set_requestCounter (insert b (upd cnt)) st1 in
      let st3 :=
        if full (upd cnt)
        then retired b
               (match requestSignals st !! b with
                | Some ctrl => set_controllers (λ l, <[ctrl := true]> l)
                | None => id
                end
                  (match requestDebounce st !! b with
                   | Some tid => set_timers (delete tid)
                   | None => id
                   end st2))
        else st2 in
      match userAborted st !! s with
      | Some e => set_callers (alter (settle (Reject e)) c) st3
      | None => st3
      end
  end.

(** [counter.aborted = 1] *)
Definition abortedOne (k : RequestCounter) : RequestCounter :=
  {| registered := registered k; aborted := 1; processed := processed k |}.

(** The test of the abort listener of the 1000ms variant,
    [counter.aborted === counter.registered]. *)
Definition abortedIsRegistered (k : RequestCounter) : bool :=
  aborted k =? registered k.

(** ** A batch of the 1000ms variant under way *)

(** As [Batch], except for the counter: the abort listener of the 1000ms
    variant sets [aborted] to 1, so the entry holds 1 as soon as a caller
    has withdrawn, however many have. *)
Definition Batch1000 (b u : string) (other : list (string * string)) (st0 : State)
    (sigs : list (option nat)) (K : gmap nat Error) (ph : Phase) (st : State) : Prop :=
  requestCounter st !! b =
    Some {| registered := length sigs; aborted := Nat.min 1 (size K); processed := 0 |}
  ∧ Batch b u other st0 sigs K ph
      (set_requestCounter
         (insert b {| registered := length sigs; aborted := size K; processed := 0 |}) st).

(** Such a batch whose withdrawn callers are those whose signal was aborted,
    as [Serving]. *)
Definition Serving1000 (b u : string) (other : list (string * string)) (st0 : State)
    (sigs : list (option nat)) (A : gmap nat Error) (ph : Phase) (st : State) : Prop :=
  ∃ K, Batch1000 b u other st0 sigs K ph st
       ∧ cancelledBy (length (callers st0)) sigs A K
       ∧ abortListeners st =
           abortListeners st0 ++
             filter (λ p, A !! p.1 = None) (abortEntries (length (callers st0)) sigs)
       ∧ userAborted st = A ∪ userAborted st0.

(** ** The registry in every reachable state *)

(** The states either variant can be in: those some sequence of turns leads
    to from the initial state. *)
Definition reachable (hash : string → string → list (string * string) → string)
    (st : State) : Prop :=
  ∃ evs, V500.run hash evs init = Some st ∨ V1000.run hash evs init = Some st.

(** What the four tables, the timers, the controllers and the fetches have
    to do with each other. *)
Record consistent (st : State) : Prop := {
  (* the payload, counter and debounce tables have the same keys *)
  cs_payload : ∀ b, is_Some (requestPayload st !! b) ↔ is_Some (requestCounter st !! b);
  cs_debounce : ∀ b, is_Some (requestDebounce st !! b) ↔ is_Some (requestCounter st !! b);
  (* a controller in [requestSignals] belongs to a registered batch, is not
     aborted, and is the controller of that batch only *)
  cs_signals : ∀ b ctrl, requestSignals st !! b = Some ctrl →
    is_Some (requestCounter st !! b) ∧ controllers st !! ctrl = Some false;
  cs_signals_inj : ∀ b b' ctrl,
    requestSignals st !! b = Some ctrl → requestSignals st !! b' = Some ctrl → b = b';
  (* a counter that is there has not reached [registered] *)
  cs_counter : ∀ b c, requestCounter st !! b = Some c →
    aborted c < registered c ∧ processed c < registered c;
  (* a pending timer is the one its batch holds, and the batch has not been
     dispatched *)
  cs_timer : ∀ tid due b, timers st !! tid = Some (due, b) →
    tid < nextTimer st ∧ requestDebounce st !! b = Some tid
    ∧ requestSignals st !! b = None;
  (* a fetch of [dispatchRequest] runs under a controller of its own; while
     it is in flight and not aborted, that controller is the one
     [requestSignals] holds for the batch *)
  cs_fetch : ∀ fid f b, fetches st !! fid = Some f → f_cont f = Broadcast b →
    ∃ ctrl, f_signal f = Some (BatchSignal ctrl)
            ∧ (f_done f = false → controllers st !! ctrl = Some false →
               requestSignals st !! b = Some ctrl);
  cs_ctrl_lt : ∀ fid f ctrl, fetches st !! fid = Some f →
    f_signal f = Some (BatchSignal ctrl) → ctrl < length (controllers st);
  cs_ctrl : ∀ fid fid' f f' ctrl,
    fetches st !! fid = Some f → fetches st !! fid' = Some f' →
    f_signal f = Some (BatchSignal ctrl) → f_signal f' = Some (BatchSignal ctrl) →
    fid = fid';
}.

(** The part of the state [consistent] speaks about. *)
Definition registry (st : State) :=
  (requestPayload st, requestCounter st, requestDebounce st, requestSignals st,
   timers st, nextTimer st, controllers st, fetches st).

(** Nothing of [b] is under way: no timer is pending for it and no fetch of
    [dispatchRequest] for it is in flight under a live controller. *)
Definition settledSignature (b : string) (st : State) : Prop :=
  (∀ tid due, timers st !! tid ≠ Some (due, b))
  ∧ (∀ fid f ctrl, fetches st !! fid = Some f → f_cont f = Broadcast b →
       f_signal f = Some (BatchSignal ctrl) → f_done f = false →
       controllers st !! ctrl ≠ Some false).

(** Fetch [fid] was made by [dispatchRequest] for [b] and can still complete
    with an outcome of the transport: it has not completed and the
    controller it runs under is not aborted. *)
Definition inFlight (b : string) (st : State) (fid : nat) : Prop :=
  ∃ f, fetches st !! fid = Some f ∧ f_cont f = Broadcast b
       ∧ f_done f = false ∧ fetchAborted f st = None.

(** ** Signatures apart *)

(** The turn [ev], taken in [st], is about the signature [b]: a call that
    hashes to it, its timer, a fetch made for it or for one of its callers,
    the abort of a signal one of its callers listens to.  [key] is the name
    the variant hashes the options under. *)
Definition touches (hash : string → string → list (string * string) → string)
    (key : string) (st : State) (ev : Event) (b : string) : Prop :=
  match ev with
  | EvCall u o => hash u key (otherOptions o) = b
  | EvAdvance _ => False
  | EvTimeout tid => ∃ due, timers st !! tid = Some (due, b)
  | EvFetchResolve fid _ | EvFetchReject fid _ =>
      ∃ f, fetches st !! fid = Some f
           ∧ (f_cont f = Broadcast b
              ∨ ∃ c k, f_cont f = Direct c ∧ callers st !! c = Some k ∧ c_batch k = b)
  | EvAbort s _ =>
      ∃ c k, (s, c) ∈ abortListeners st ∧ callers st !! c = Some k ∧ c_batch k = b
  end.

(** Nothing of [b] has changed from [st] to [st']: its four table entries
    and the promises of its callers. *)
Definition apart (b : string) (st st' : State) : Prop :=
  requestPayload st' !! b = requestPayload st !! b
  ∧ requestCounter st' !! b = requestCounter st !! b
  ∧ requestDebounce st' !! b = requestDebounce st !! b
  ∧ requestSignals st' !! b = requestSignals st !! b
  ∧ ∀ c k, callers st !! c = Some k → c_batch k = b → callers st' !! c = Some k.

(** The same while listeners run: no caller is added and no caller changes
    its batch. *)
Definition kept (b : string) (st st' : State) : Prop :=
  apart b st st'
  ∧ ∀ c, c_batch <$> callers st' !! c = c_batch <$> callers st !! c.

(** ** A batch that is spent *)

(** The four table entries of [b]. *)
Definition entriesOf (b : string) (st : State) :=
  (requestPayload st !! b, requestCounter st !! b,
   requestDebounce st !! b, requestSignals st !! b).

(** The batch registered under [b] is spent: [dispatchRequest] has run for
    it ([requestSignals] holds its controller) and no fetch made for it is
    in flight any more. *)
Definition spent (b : string) (st : State) : Prop :=
  is_Some (requestSignals st !! b) ∧ ∀ fid, ¬ inFlight b st fid.

(** Any turn but the abort of a signal. *)
Definition noAbort (ev : Event) : Prop :=
  match ev with
  | EvAbort _ _ => False
  | _ => True
  end.

(** ** Further inputs of the worked examples *)

(** Three calls that coalesce, the first and the third with the same
    signal. *)
Definition sharedCalls : list Event :=
  [EvCall "/api" (getWith 7); EvCall "/api" (getWith 8); EvAdvance 100;
   EvCall "/api" (getWith 7)].

(** The second caller withdraws; the timer has not run 200ms later. *)
Definition oneWithdraws : list Event :=
  [EvAbort 8 navigatedAway; EvAdvance 200].

(** The second caller withdraws and the timer runs when it is due. *)
Definition oneWithdrawsThenTimer : list Event :=
  [EvAbort 8 navigatedAway; EvAdvance 500; EvTimeout 3].

(** The state after a first call for ["/api"], its timer pending. *)
Definition calledState : State :=
  default init (V500.run keylessHash [EvCall "/api" get] init).

(** The [batchId] of a call for ["/users"] in the 500ms variant. *)
Definition usersGet500 : string := sampleHash "/users" "otherOptions" [("method", "GET")].

(** Two batches with different signatures, both debouncing. *)
Definition twoBatches : State :=
  default init
    (V500.run sampleHash
       [EvCall "/api" (getWith 7); EvCall "/users" (getWith 8); EvAdvance 100] init).

(** Two callers of the 1000ms variant have coalesced. *)
Definition twoJoined1000 : State :=
  default init
    (V1000.run sampleHash [EvCall "/api" (getWith 7); EvCall "/api" (getWith 8)] init).

(** The state a partial cancellation leaves: of two callers the first has
    withdrawn and the second has received the response. *)
Definition leftoverState : State :=
  default init
    (V500.run sampleHash
       [EvCall "/api" (getWith 7); EvCall "/api" get; EvAbort 7 abortError;
        EvAdvance 500; EvTimeout 2; EvFetchResolve 0 ok200] init).

(** * Proofs *)

(** ** Running the computations symbolically *)

(** On a state given by its sixteen fields, the monad, the field updates and
    the host's primitives compute away; the tables stay folded. *)
Ltac mrun :=
  cbv beta iota zeta delta
    [bind ret gets modify throw when
     set_requestPayload set_requestCounter set_requestDebounce set_requestSignals
     set_clock set_timers set_nextTimer set_controllers set_fetches
     set_thenListeners set_catchListeners set_abortListeners set_userAborted
     set_callers set_uncaught set_events
     requestPayload requestCounter requestDebounce requestSignals clock timers
     nextTimer controllers fetches thenListeners catchListeners abortListeners
     userAborted callers uncaught events fst snd
     setTimeout clearTimeout newAbortController abortController fetch newPromise
     resolve reject retired joinedState bypassedState dispatched markDone
     from_option default id] in *.

Ltac destruct_state st :=
  destruct st as [pl cn db sg ck tm nt ct fs tl cl al ua cs uc es]; mrun.

(** Run, and split on every table lookup the run depends on. *)
Ltac mcases :=
  mrun;
  repeat (match goal with
          | H : ?m !! ?k = _ |- context [?m !! ?k] => rewrite H
          | |- context [<[?k:=?v]> ?m !! ?k] => rewrite (lookup_insert_eq m k v)
          | |- context [match ?m !! ?k with _ => _ end] => destruct (m !! k) eqn:?
          end; mrun).

(** Project a field out of a chain of field updates. *)
Ltac mproj :=
  cbn [requestPayload requestCounter requestDebounce requestSignals clock timers
       nextTimer controllers fetches thenListeners catchListeners abortListeners
       userAborted callers uncaught events
       set_requestPayload set_requestCounter set_requestDebounce set_requestSignals
       set_clock set_timers set_nextTimer set_controllers set_fetches
       set_thenListeners set_catchListeners set_abortListeners set_userAborted
       set_callers set_uncaught set_events].

(** ** A call that registers, a call that comes late *)

Section Calls.
Variable hash : string → string → list (string * string) → string.

Lemma V500_batchFetch_join u o st :
  requestSignals st !! hash u "otherOptions" (otherOptions o) = None →
  V500.batchFetch hash u o st =
    (Ok (length (callers st)),
     joinedState 500 (hash u "otherOptions" (otherOptions o)) u o st).
Proof.
  intros Hs. unfold V500.batchFetch. set (b := hash _ _ _) in *.
  unfold V500.registerRequest, V500.incrementRequestCounter, V500.debounceRequest.
  destruct_state st. mcases; destruct (signal o); mrun;
    rewrite ?insert_insert_eq, ?app_nil_r; reflexivity.
Qed.

Lemma V1000_batchFetch_join u o st :
  requestSignals st !! hash u "options" (otherOptions o) = None →
  V1000.batchFetch hash u o st =
    (Ok (length (callers st)),
     joinedState 1000 (hash u "options" (otherOptions o)) u o st).
Proof.
  intros Hs. unfold V1000.batchFetch.
  unfold V1000.registerRequest, V1000.updateCounter, V1000.debounceRequest.
  set (b := hash _ _ _) in *.
  destruct_state st. mcases; destruct (signal o); mrun;
    rewrite ?insert_insert_eq, ?app_nil_r; reflexivity.
Qed.

Lemma V500_batchFetch_late u o st ctrl :
  requestSignals st !! hash u "otherOptions" (otherOptions o) = Some ctrl →
  V500.batchFetch hash u o st = (Ok (length (callers st)), bypassedState hash u o st).
Proof.
  intros Hs. unfold V500.batchFetch. destruct_state st. mcases. reflexivity.
Qed.

Lemma V1000_batchFetch_late u o st ctrl :
  requestSignals st !! hash u "options" (otherOptions o) = Some ctrl →
  V1000.batchFetch hash u o st = (Throw V1000.alreadyDispatched, st).
Proof.
  intros Hs. unfold V1000.batchFetch, V1000.registerRequest.
  destruct_state st. mcases. reflexivity.
Qed.

(** C5: on a call whose signature already has a dispatched transport call
    the 500ms variant returns a promise and makes its own
    [fetch(url, options)], touching neither the registry nor the
    listeners, while the 1000ms variant throws
    [Error('Request already dispatched')] and changes nothing; so the two
    variants are not equivalent there. *)
Theorem late_join_policies_differ u o st ctrl ctrl' :
  requestSignals st !! hash u "otherOptions" (otherOptions o) = Some ctrl →
  requestSignals st !! hash u "options" (otherOptions o) = Some ctrl' →
  V500.batchFetch hash u o st = (Ok (length (callers st)), bypassedState hash u o st)
  ∧ fetches (bypassedState hash u o st) =
      fetches st ++ [{| f_url := u; f_options := otherOptions o;
                        f_signal := UserSignal <$> signal o;
                        f_cont := Direct (length (callers st)); f_done := false |}]
  ∧ requestCounter (bypassedState hash u o st) = requestCounter st
  ∧ thenListeners (bypassedState hash u o st) = thenListeners st
  ∧ V1000.batchFetch hash u o st =
      (Throw {| name := "Error"; message := "Request already dispatched" |}, st)
  ∧ V500.batchFetch hash u o st ≠ V1000.batchFetch hash u o st.
Proof.
  intros H5 H10.
  rewrite (V500_batchFetch_late _ _ _ _ H5), (V1000_batchFetch_late _ _ _ _ H10).
  repeat split; discriminate.
Qed.

End Calls.

Lemma late_join_policies_differ_witness :
  requestSignals dispatchedState !! keylessHash "/api" "otherOptions" (otherOptions get) = Some 0
  ∧ requestSignals dispatchedState !! keylessHash "/api" "options" (otherOptions get) = Some 0
  ∧ V500.batchFetch keylessHash "/api" get dispatchedState
    ≠ V1000.batchFetch keylessHash "/api" get dispatchedState.
Proof.
  assert (H : requestSignals dispatchedState !! "/api|method=GET;" = Some 0)
    by (vm_compute; reflexivity).
  split; [exact H|]. split; [exact H|].
  apply (late_join_policies_differ keylessHash "/api" get dispatchedState 0 0 H H).
Defined.

(** ** The signature leaves the signal out *)

Section Signature.
Variable hash : string → string → list (string * string) → string.

Lemma joinedState_coalesced delay b u o1 o2 st :
  coalesced b o1 o2 st (joinedState delay b u o2 (joinedState delay b u o1 st)).
Proof.
  unfold coalesced, noCounter. destruct_state st.
  rewrite !lookup_insert_eq. mrun.
  repeat split.
  - by rewrite <- app_assoc.
  - rewrite lookup_insert_ne by lia. apply lookup_delete_eq.
  - eexists. reflexivity.
Qed.

(** C9: in both variants the [batchId] is [hash] of the url and of the
    options without their [signal], so two calls that differ only in their
    signal get the same [batchId] and coalesce into the same batch. *)
Theorem signature_ignores_signal u o1 o2 st :
  otherOptions o1 = otherOptions o2 →
  requestSignals st !! hash u "otherOptions" (otherOptions o1) = None →
  requestSignals st !! hash u "options" (otherOptions o1) = None →
  (∃ st2, V500.run hash [EvCall u o1; EvCall u o2] st = Some st2
          ∧ coalesced (hash u "otherOptions" (otherOptions o1)) o1 o2 st st2)
  ∧ (∃ st2, V1000.run hash [EvCall u o1; EvCall u o2] st = Some st2
            ∧ coalesced (hash u "options" (otherOptions o1)) o1 o2 st st2).
Proof.
  intros Ho H5 H10. split.
  - cbn [V500.run V500.step].
    rewrite (V500_batchFetch_join hash u o1 st H5). cbn [snd].
    rewrite V500_batchFetch_join by (rewrite <- Ho; exact H5). cbn [snd].
    rewrite <- Ho. eexists. split; [reflexivity|]. apply joinedState_coalesced.
  - cbn [V1000.run V1000.step].
    rewrite (V1000_batchFetch_join hash u o1 st H10). cbn [snd].
    rewrite V1000_batchFetch_join by (rewrite <- Ho; exact H10). cbn [snd].
    rewrite <- Ho. eexists. split; [reflexivity|]. apply joinedState_coalesced.
Qed.

End Signature.

Lemma signature_ignores_signal_witness :
  otherOptions get = otherOptions (getWith 7)
  ∧ ∃ st2, V500.run sampleHash [EvCall "/api" get; EvCall "/api" (getWith 7)] init = Some st2
           ∧ coalesced (sampleHash "/api" "otherOptions" (otherOptions get))
                       get (getWith 7) init st2.
Proof.
  split; [reflexivity|].
  apply (signature_ignores_signal sampleHash "/api" get (getWith 7) init);
    reflexivity.
Defined.

(** ** What the listeners do *)

Lemma isRequestCounterMax_eq b k st :
  V500.isRequestCounterMax b k st =
    (Ok (from_option (isMax k) false (requestCounter st !! b)), st).
Proof.
  unfold V500.isRequestCounterMax, gets, isMax.
  by destruct (requestCounter st !! b).
Qed.

Lemma onBatchFetchThen_eq b c r st :
  runListener (V500.onBatchFetchThen b c b r) st =
    delivered b c (Resolve (clone r)) (set_thenListeners (remove c)) st.
Proof.
  unfold runListener, V500.onBatchFetchThen, detail, delivered.
  rewrite decide_True by done.
  unfold V500.incrementRequestCounter, V500.isRequestCounterMax, V500.unegisterRequest.
  fold (isMax Processed). destruct_state st. mcases; [|reflexivity].
  fold (isMax Processed (bump Processed r0)).
  destruct (isMax Processed (bump Processed r0)); reflexivity.
Qed.

Lemma onBatchFetchCatch_eq b c e st :
  runListener (V500.onBatchFetchCatch b c b e) st =
    delivered b c (Reject e) (set_catchListeners (remove c)) st.
Proof.
  unfold runListener, V500.onBatchFetchCatch, detail, delivered.
  rewrite decide_True by done.
  unfold V500.incrementRequestCounter, V500.isRequestCounterMax, V500.unegisterRequest.
  destruct_state st. mcases; [|reflexivity].
  fold (isMax Processed (bump Processed r)).
  destruct (isMax Processed (bump Processed r)); reflexivity.
Qed.

Lemma onBatchFetchThen_other b' b c r st :
  b' ≠ b → runListener (V500.onBatchFetchThen b' c b r) st = st.
Proof.
  intros. unfold V500.onBatchFetchThen, detail. by rewrite decide_False.
Qed.

Lemma onBatchFetchCatch_other b' b c e st :
  b' ≠ b → runListener (V500.onBatchFetchCatch b' c b e) st = st.
Proof.
  intros. unfold V500.onBatchFetchCatch, detail. by rewrite decide_False.
Qed.

Lemma onAbort_eq b s c st :
  runListener (V500.onAbort b s c) st = withdrawn b s c st.
Proof.
  unfold runListener, V500.onAbort, withdrawn.
  unfold V500.incrementRequestCounter, V500.isRequestCounterMax, V500.unegisterRequest.
  destruct_state st.
  destruct (cn !! b) as [cnt|] eqn:Hc; mrun; [|reflexivity].
  rewrite lookup_insert_eq. fold (isMax Aborted (bump Aborted cnt)).
  destruct (isMax Aborted (bump Aborted cnt)); mcases; reflexivity.
Qed.

Lemma runListener_gets {A} (f : State → A) (k : A → M unit) st :
  runListener (bind (gets f) k) st = runListener (k (f st)) st.
Proof. reflexivity. Qed.

Lemma listenerThen_eq b r c st :
  runListener (V500.listenerThen b r c) st =
    match callers st !! c with
    | Some k =>
        if decide (c_batch k = b)
        then delivered b c (Resolve (clone r)) (set_thenListeners (remove c)) st
        else st
    | None => st
    end.
Proof.
  unfold V500.listenerThen. rewrite runListener_gets.
  destruct (callers st !! c) as [k|]; [|reflexivity].
  case_decide as Hb.
  - rewrite Hb. apply onBatchFetchThen_eq.
  - by apply onBatchFetchThen_other.
Qed.

Lemma listenerCatch_eq b e c st :
  runListener (V500.listenerCatch b e c) st =
    match callers st !! c with
    | Some k =>
        if decide (c_batch k = b)
        then delivered b c (Reject e) (set_catchListeners (remove c)) st
        else st
    | None => st
    end.
Proof.
  unfold V500.listenerCatch. rewrite runListener_gets.
  destruct (callers st !! c) as [k|]; [|reflexivity].
  case_decide as Hb.
  - rewrite Hb. apply onBatchFetchCatch_eq.
  - by apply onBatchFetchCatch_other.
Qed.

Lemma listenerAbort_eq s c st :
  runListener (V500.listenerAbort s c) st =
    match callers st !! c with
    | Some k => withdrawn (c_batch k) s c st
    | None => st
    end.
Proof.
  unfold V500.listenerAbort. rewrite runListener_gets.
  destruct (callers st !! c) as [k|]; [|reflexivity].
  apply onAbort_eq.
Qed.

(** What no listener touches is as it was after a dispatch. *)
Lemma callListeners_frame {A} (proj : State → A) registry handler snapshot st :
  (∀ c st', proj (runListener (handler c) st') = proj st') →
  proj (callListeners registry handler snapshot st) = proj st.
Proof.
  intros Hh. revert st. induction snapshot as [|c rest IH]; intros st; [done|].
  cbn [callListeners]. rewrite IH. case_decide; [apply Hh | done].
Qed.

Lemma delivered_events b c x unlisten st :
  (∀ st', events (unlisten st') = events st') →
  events (delivered b c x unlisten st) = events st.
Proof.
  intros Hu. unfold delivered.
  destruct (requestCounter st !! b) as [cnt|];
    [destruct (isMax Processed (bump Processed cnt))|]; mrun; apply Hu.
Qed.

Lemma dispatchEvent_events ev st :
  events (V500.dispatchEvent ev st) = events st ++ [ev].
Proof.
  unfold V500.dispatchEvent. destruct ev as [b r|b e].
  - rewrite (callListeners_frame events); [done|].
    intros c st'. rewrite listenerThen_eq.
    destruct (callers st' !! c); [case_decide|]; try done.
    by apply delivered_events.
  - rewrite (callListeners_frame events); [done|].
    intros c st'. rewrite listenerCatch_eq.
    destruct (callers st' !! c); [case_decide|]; try done.
    by apply delivered_events.
Qed.

(** ** The abort outcome of an escalation is swallowed *)

(** C6: when the fetch of a batch rejects, [dispatchRequest]'s failure branch
    dispatches [batchFetchCatch] exactly when the error is not an abort
    error; on an error named ['AbortError'] it changes nothing, so no
    listener runs and no promise is touched.  After the coordinator has
    aborted the batch's own controller, the abort error is the only way the
    fetch can still complete. *)
Theorem abort_outcome_not_broadcast
    (hash : string → string → list (string * string) → string)
    fid f b st e st' :
  fetches st !! fid = Some f →
  f_cont f = Broadcast b →
  V500.step hash (EvFetchReject fid e) st = Some st' →
  (∀ ctrl, f_signal f = Some (BatchSignal ctrl) →
           controllers st !! ctrl = Some true → e = abortError)
  ∧ (name e = "AbortError" → st' = markDone fid st)
  ∧ events st' =
      (if decide (name e = "AbortError") then events st
       else events st ++ [BatchFetchCatch b e]).
Proof.
  intros Hf Hk Hstep. cbn [V500.step] in Hstep. rewrite Hf in Hstep.
  destruct (f_done f); [done|].
  assert (Hst : st' = V500.dispatchRequest_catch b e (markDone fid st)).
  { unfold V500.fetchRejected in Hstep. rewrite Hk in Hstep.
    destruct (fetchAborted f st); [case_decide|]; congruence. }
  split; [|split].
  - intros ctrl Hsig Hab. unfold fetchAborted in Hstep. rewrite Hsig in Hstep.
    cbn [abortReason] in Hstep. rewrite Hab in Hstep. by case_decide.
  - intros Hn. rewrite Hst. unfold V500.dispatchRequest_catch.
    by rewrite decide_True.
  - rewrite Hst. unfold V500.dispatchRequest_catch. case_decide; [done|].
    by rewrite dispatchEvent_events.
Qed.

Lemma abort_outcome_not_broadcast_witness :
  V500.step sampleHash (EvFetchReject 0 abortError) escalatedState
    = Some (markDone 0 escalatedState)
  ∧ events (markDone 0 escalatedState) = events escalatedState.
Proof.
  assert (Hstep : V500.step sampleHash (EvFetchReject 0 abortError) escalatedState
                  = Some (markDone 0 escalatedState)) by (vm_compute; reflexivity).
  split; [exact Hstep|].
  destruct (abort_outcome_not_broadcast sampleHash 0
              {| f_url := "/api"; f_options := [("method", "GET")];
                 f_signal := Some (BatchSignal 0);
                 f_cont := Broadcast (sampleHash "/api" "otherOptions" [("method", "GET")]);
                 f_done := false |}
              (sampleHash "/api" "otherOptions" [("method", "GET")])
              escalatedState abortError (markDone 0 escalatedState))
    as (_ & _ & Hev); [vm_compute; reflexivity | reflexivity | exact Hstep |].
  exact Hev.
Defined.

(** ** The abort listener and a retired batch *)

(** C10: the abort listener takes its two window listeners off and then
    increments the [aborted] counter of its batch without checking that the
    entry is there.  When the entry is gone the increment throws a
    [TypeError]: the listener stops there and never calls [reject].  When
    the entry is there the listener returns normally. *)
Theorem abort_listener_needs_registered_batch b s c st :
  V500.onAbort b s c st =
    match requestCounter st !! b with
    | None =>
        (Throw typeError,
         set_catchListeners (remove c) (set_thenListeners (remove c) st))
    | Some _ => (Ok tt, withdrawn b s c st)
    end.
Proof.
  unfold V500.onAbort, withdrawn.
  unfold V500.incrementRequestCounter, V500.isRequestCounterMax, V500.unegisterRequest.
  destruct_state st.
  destruct (cn !! b) as [cnt|] eqn:Hc; mrun; [|reflexivity].
  rewrite lookup_insert_eq. fold (isMax Aborted (bump Aborted cnt)).
  destruct (isMax Aborted (bump Aborted cnt)); mcases; reflexivity.
Qed.

(** The same on a run: the only caller receives the response, the batch is
    retired, and the caller's signal is aborted afterwards.  The listener
    throws, the exception is reported, the promise stays fulfilled. *)
Example abort_after_retirement :
  requestCounter retiredState !! sampleHash "/api" "otherOptions" [("method", "GET")] = None
  ∧ ∃ st, V500.step sampleHash (EvAbort 7 abortError) retiredState = Some st
          ∧ uncaught retiredState = [] ∧ uncaught st = [typeError]
          ∧ promise 0 st = Some (Resolve (clone ok200)).
Proof.
  split; [vm_compute; reflexivity|].
  eexists. split; [vm_compute; reflexivity|]. repeat split.
Qed.

(** ** The debounce timer *)

Lemma dispatchRequest_eq b st :
  runListener (V500.dispatchRequest b) st = dispatched b st.
Proof.
  unfold runListener, V500.dispatchRequest. destruct_state st.
  rewrite lookup_insert_eq. reflexivity.
Qed.

Section Debounce.
Variable hash : string → string → list (string * string) → string.

(** C7: every join cancels the timer the batch had and arms a new one for
    the whole quiet window.  After a first call, [d] milliseconds, and a
    second identical call, the only pending timer of the batch is the
    second call's, due 500ms after the second call; it cannot run earlier
    (with [d = 100]: not before 600ms after the first call), and when it
    runs it dispatches one fetch. *)
Theorem debounce_rearms u o1 o2 st d :
  otherOptions o1 = otherOptions o2 →
  requestSignals st !! hash u "otherOptions" (otherOptions o1) = None →
  (∀ tid due, timers st !! tid = Some (due, hash u "otherOptions" (otherOptions o1)) →
              requestDebounce st !! hash u "otherOptions" (otherOptions o1) = Some tid) →
  ∃ st1 st2,
    V500.step hash (EvCall u o1) st = Some st1
    ∧ timers st1 =
        <[nextTimer st := (clock st + 500, hash u "otherOptions" (otherOptions o1))]>
          (match requestDebounce st !! hash u "otherOptions" (otherOptions o1) with
           | Some tid => delete tid (timers st)
           | None => timers st
           end)
    ∧ V500.run hash [EvAdvance d; EvCall u o2] st1 = Some st2
    ∧ requestDebounce st2 !! hash u "otherOptions" (otherOptions o1)
        = Some (S (nextTimer st))
    ∧ (∀ tid due,
         timers st2 !! tid = Some (due, hash u "otherOptions" (otherOptions o1)) →
         tid = S (nextTimer st) ∧ due = clock st + d + 500)
    ∧ timers st2 !! S (nextTimer st)
        = Some (clock st + d + 500, hash u "otherOptions" (otherOptions o1))
    ∧ (∀ dt tid due st3,
         timers st2 !! tid = Some (due, hash u "otherOptions" (otherOptions o1)) →
         V500.run hash [EvAdvance dt; EvTimeout tid] st2 = Some st3 →
         clock st + d + 500 ≤ clock st3)
    ∧ (∀ dt, 500 ≤ dt →
         ∃ st3, V500.run hash [EvAdvance dt; EvTimeout (S (nextTimer st))] st2 = Some st3
                ∧ length (fetches st3) = S (length (fetches st))).
Proof.
  intros Ho Hs Htm. set (b := hash u "otherOptions" (otherOptions o1)) in *.
  eexists _, _. split.
  { cbn [V500.step]. rewrite V500_batchFetch_join by exact Hs. reflexivity. }
  split; [reflexivity|]. split.
  { cbn [V500.run V500.step]. rewrite V500_batchFetch_join; rewrite <- Ho; [reflexivity|].
    exact Hs. }
  fold b. clear Hs. destruct_state st.
  rewrite !lookup_insert_eq.
  assert (Hone : ∀ tid due,
    <[S nt:=(ck + d + 500, b)]> (delete nt (<[nt:=(ck + 500, b)]>
       match db !! b with Some tid0 => delete tid0 tm | None => tm end))
      !! tid = Some (due, b) → tid = S nt ∧ due = ck + d + 500).
  { intros tid due Hl. destruct (decide (tid = S nt)) as [->|Hne].
    - rewrite lookup_insert_eq in Hl. by inversion Hl.
    - exfalso. rewrite lookup_insert_ne in Hl by done.
      apply lookup_delete_Some in Hl as [Hne' Hl].
      rewrite lookup_insert_ne in Hl by done.
      destruct (db !! b) as [old|] eqn:Hd.
      + apply lookup_delete_Some in Hl as [Hne'' Hl].
        apply Htm in Hl. congruence.
      + apply Htm in Hl. congruence. }
  split; [reflexivity|]. split; [exact Hone|]. split; [reflexivity|]. split.
  - intros dt tid due st3 Hl Hrun. destruct (Hone _ _ Hl) as [-> ->].
    cbn [V500.run V500.step] in Hrun. mrun.
    rewrite lookup_insert_eq in Hrun. case_decide; [|done].
    inversion Hrun; subst st3. rewrite dispatchRequest_eq. mrun. lia.
  - intros dt Hdt. eexists. cbn [V500.run V500.step]. mrun.
    rewrite lookup_insert_eq. rewrite decide_True by lia.
    split; [reflexivity|]. rewrite dispatchRequest_eq. mrun.
    rewrite length_app. cbn [length]. lia.
Qed.

End Debounce.

(** A second identical call 100ms into the window: the dispatch is not
    possible 599ms after the first call and happens at 600ms. *)
Lemma debounce_rearms_witness :
  otherOptions get = otherOptions get
  ∧ V500.run sampleHash
      [EvCall "/api" get; EvAdvance 100; EvCall "/api" get; EvAdvance 499; EvTimeout 2]
      init = None
  ∧ ∃ st1 st2,
      V500.step sampleHash (EvCall "/api" get) init = Some st1
      ∧ V500.run sampleHash [EvAdvance 100; EvCall "/api" get] st1 = Some st2
      ∧ timers st2 !! 1 = None
      ∧ timers st2 !! 2
          = Some (600, sampleHash "/api" "otherOptions" [("method", "GET")]).
Proof.
  split; [reflexivity|]. split; [vm_compute; reflexivity|].
  destruct (debounce_rearms sampleHash "/api" get get init 100)
    as (st1 & st2 & H1 & _ & H2 & _ & _ & H3 & _).
  - reflexivity.
  - reflexivity.
  - intros tid due H. vm_compute in H. discriminate.
  - exists st1, st2. split; [exact H1|]. split; [exact H2|]. split; [|exact H3].
    destruct (timers st2 !! 1) as [[due b']|] eqn:Hl; [|reflexivity].
    exfalso. cbn in H1. injection H1 as <-. cbn in H2. injection H2 as <-.
    vm_compute in Hl. discriminate.
Defined.

(** ** Runs on which the code departs from its specification *)

(** C2 on the code, 500ms variant: two callers coalesce, the first aborts,
    the second receives the response.  The abort incremented [aborted] only,
    so [processed] stops at 1 of 2 registered: the entry is never deleted,
    the signature stays marked as dispatched, and an identical call made
    afterwards is not coalesced any more. *)
Theorem partial_cancel_leaves_entry :
  ∃ st,
    V500.run sampleHash
      [EvCall "/api" (getWith 7); EvCall "/api" get; EvAbort 7 abortError;
       EvAdvance 500; EvTimeout 2; EvFetchResolve 0 ok200] init = Some st
    ∧ promise 0 st = Some (Reject abortError)
    ∧ promise 1 st = Some (Resolve (clone ok200))
    ∧ thenListeners st = [] ∧ map f_done (fetches st) = [true]
    ∧ requestCounter st !! apiGet500
        = Some {| registered := 2; aborted := 1; processed := 1 |}
    ∧ requestSignals st !! apiGet500 = Some 0
    ∧ V500.batchFetch sampleHash "/api" get st
        = (Ok 2, bypassedState sampleHash "/api" get st).
Proof.
  eexists. split; [vm_compute; reflexivity|].
  repeat split; vm_compute; reflexivity.
Qed.

(** C3 on the code, 1000ms variant: two callers coalesce and both abort
    before the timer runs.  The listener sets [aborted] to 1 instead of
    incrementing it, which never equals the 2 registered: the timer is not
    cleared, it runs and the fetch is made.  The 500ms variant clears the
    timer on the same run. *)
Theorem v1000_full_cancel_still_dispatches :
  (∃ st,
     V1000.run sampleHash
       [EvCall "/api" (getWith 7); EvCall "/api" (getWith 8);
        EvAbort 7 abortError; EvAbort 8 abortError] init = Some st
     ∧ promise 0 st = Some (Reject abortError)
     ∧ promise 1 st = Some (Reject abortError)
     ∧ requestCounter st !! apiGet1000
         = Some {| registered := 2; aborted := 1; processed := 0 |}
     ∧ timers st !! 2 = Some (1000, apiGet1000)
     ∧ ∃ st', V1000.run sampleHash [EvAdvance 1000; EvTimeout 2] st = Some st'
              ∧ map f_url (fetches st') = ["/api"])
  ∧ (∃ st,
       V500.run sampleHash
         [EvCall "/api" (getWith 7); EvCall "/api" (getWith 8);
          EvAbort 7 abortError; EvAbort 8 abortError] init = Some st
       ∧ timers st = ∅ ∧ requestCounter st !! apiGet500 = None
       ∧ V500.run sampleHash [EvAdvance 500; EvTimeout 2] st = None).
Proof.
  split.
  - eexists. split; [vm_compute; reflexivity|].
    repeat split; try (vm_compute; reflexivity).
    eexists. split; vm_compute; reflexivity.
  - eexists. split; [vm_compute; reflexivity|].
    repeat split; vm_compute; reflexivity.
Qed.

(** The same after the dispatch: both callers abort while the fetch is in
    flight; the 1000ms variant leaves the batch's controller alone and the
    fetch completes, the 500ms variant aborts it. *)
Example v1000_full_cancel_in_flight :
  (∃ st,
     V1000.run sampleHash
       [EvCall "/api" (getWith 7); EvCall "/api" (getWith 8);
        EvAdvance 1000; EvTimeout 2;
        EvAbort 7 abortError; EvAbort 8 abortError] init = Some st
     ∧ controllers st = [false]
     ∧ ∃ st', V1000.step sampleHash (EvFetchResolve 0 ok200) st = Some st')
  ∧ (∃ st,
       V500.run sampleHash
         [EvCall "/api" (getWith 7); EvCall "/api" (getWith 8);
          EvAdvance 500; EvTimeout 2;
          EvAbort 7 abortError; EvAbort 8 abortError] init = Some st
       ∧ controllers st = [true]
       ∧ V500.step sampleHash (EvFetchResolve 0 ok200) st = None).
Proof.
  split.
  - eexists. split; [vm_compute; reflexivity|].
    split; [vm_compute; reflexivity|].
    eexists. vm_compute. reflexivity.
  - eexists. split; [vm_compute; reflexivity|].
    split; vm_compute; reflexivity.
Qed.

(** C8 on the code, 500ms variant: a caller is fulfilled, which takes off its
    [batchFetchThen] listener only.  A later batch with the same signature
    fails: the first caller's [batchFetchCatch] listener is still there,
    reacts to the broadcast, counts itself as processed in the new batch,
    retires it and calls [reject] on its fulfilled promise; the listener of
    the new batch's own caller then finds no counter entry, throws, and its
    promise is never settled. *)
Theorem settled_caller_reacts_to_later_broadcast :
  ∃ st1 st2,
    V500.run sampleHash
      [EvCall "/api" get; EvAdvance 500; EvTimeout 1; EvFetchResolve 0 ok200]
      init = Some st1
    ∧ promise 0 st1 = Some (Resolve (clone ok200))
    ∧ thenListeners st1 = [] ∧ catchListeners st1 = [0]
    ∧ requestCounter st1 !! apiGet500 = None
    ∧ V500.run sampleHash
        [EvCall "/api" get; EvAdvance 500; EvTimeout 2; EvFetchReject 1 failedToFetch]
        st1 = Some st2
    ∧ c_settled <$> callers st2 !! 0
        = Some [Resolve (clone ok200); Reject failedToFetch]
    ∧ c_settled <$> callers st2 !! 1 = Some []
    ∧ uncaught st2 = [typeError]
    ∧ catchListeners st2 = [] ∧ map f_done (fetches st2) = [true; true].
Proof.
  eexists _, _. split; [vm_compute; reflexivity|].
  do 4 (split; [vm_compute; reflexivity|]).
  split; [vm_compute; reflexivity|].
  repeat split; vm_compute; reflexivity.
Qed.

(** C1 on the code, 500ms variant: a caller is fulfilled and its batch
    retired; its [batchFetchCatch] listener stays, as in C8.  Two identical
    calls then coalesce and their one fetch fails.  The listener left
    behind runs first and counts itself in the new batch, the listener of
    the first new caller brings [processed] to 2 of 2, retires the batch and
    rejects its promise, and the listener of the second new caller finds no
    counter entry and throws before [reject]: one fetch was made for the two
    calls, but the promise of the second caller is never settled. *)
Theorem coalesced_caller_never_settled :
  ∃ st1 st2 st3,
    V500.run sampleHash
      [EvCall "/api" get; EvAdvance 500; EvTimeout 1; EvFetchResolve 0 ok200]
      init = Some st1
    ∧ requestCounter st1 !! apiGet500 = None
    ∧ catchListeners st1 = [0]
    ∧ V500.run sampleHash
        [EvCall "/api" get; EvCall "/api" get; EvAdvance 500; EvTimeout 3] st1
      = Some st2
    ∧ requestCounter st2 !! apiGet500
      = Some {| registered := 2; aborted := 0; processed := 0 |}
    ∧ map f_done (fetches st2) = [true; false]
    ∧ V500.step sampleHash (EvFetchReject 1 failedToFetch) st2 = Some st3
    ∧ map f_done (fetches st3) = [true; true]
    ∧ map c_settled (callers st3)
      = [[Resolve (clone ok200); Reject failedToFetch]; [Reject failedToFetch]; []]
    ∧ uncaught st3 = [typeError]
    ∧ catchListeners st3 = []
    ∧ requestCounter st3 !! apiGet500 = None
    ∧ timers st3 = ∅.
Proof.
  eexists _, _, _. split; [vm_compute; reflexivity|].
  do 2 (split; [vm_compute; reflexivity|]).
  split; [vm_compute; reflexivity|].
  do 2 (split; [vm_compute; reflexivity|]).
  split; [vm_compute; reflexivity|].
  repeat split; vm_compute; reflexivity.
Qed.

(** C4 on the code, 500ms variant: a caller with signal 7 is fulfilled and
    its batch retired; its abort listener stays on the signal, no outcome
    listener taking it off.  Two identical calls then join a new batch, the
    first with the same signal 7, the second with none, and signal 7 is
    aborted: one caller of two withdraws.  The listener left behind runs
    first and counts an abort in the new batch, the listener of the
    withdrawing caller counts the second, and [aborted] equals [registered].
    Before the timer has run, the timer is cleared and the batch
    unregistered: no fetch is ever made.  After it has run, the controller
    of the fetch is aborted: the fetch can only reject with the abort error,
    which is not broadcast.  Either way the promise of the caller that did
    not withdraw is never settled. *)
Theorem stale_abort_listener_cancels_batch :
  ∃ st1,
    V500.run sampleHash
      [EvCall "/api" (getWith 7); EvAdvance 500; EvTimeout 1; EvFetchResolve 0 ok200]
      init = Some st1
    ∧ requestCounter st1 !! apiGet500 = None
    ∧ abortListeners st1 = [(7, 0)]
    ∧ (∃ st2 st3,
         V500.run sampleHash [EvCall "/api" (getWith 7); EvCall "/api" get] st1
         = Some st2
         ∧ requestCounter st2 !! apiGet500
           = Some {| registered := 2; aborted := 0; processed := 0 |}
         ∧ (∃ due, timers st2 !! 3 = Some (due, apiGet500))
         ∧ V500.step sampleHash (EvAbort 7 abortError) st2 = Some st3
         ∧ timers st3 = ∅
         ∧ requestCounter st3 !! apiGet500 = None
         ∧ map f_done (fetches st3) = [true]
         ∧ map c_settled (callers st3)
           = [[Resolve (clone ok200); Reject abortError]; [Reject abortError]; []]
         ∧ ∀ dt, V500.run sampleHash [EvAdvance dt; EvTimeout 3] st3 = None)
    ∧ (∃ st2 st3 st4,
         V500.run sampleHash
           [EvCall "/api" (getWith 7); EvCall "/api" get; EvAdvance 500; EvTimeout 3]
           st1 = Some st2
         ∧ controllers st2 = [false; false]
         ∧ V500.step sampleHash (EvAbort 7 abortError) st2 = Some st3
         ∧ controllers st3 = [false; true]
         ∧ requestCounter st3 !! apiGet500 = None
         ∧ (∀ r, V500.step sampleHash (EvFetchResolve 1 r) st3 = None)
         ∧ V500.step sampleHash (EvFetchReject 1 abortError) st3 = Some st4
         ∧ map f_done (fetches st4) = [true; true]
         ∧ events st4 = events st1
         ∧ map c_settled (callers st4)
           = [[Resolve (clone ok200); Reject abortError]; [Reject abortError]; []]).
Proof.
  eexists. split; [vm_compute; reflexivity|].
  do 2 (split; [vm_compute; reflexivity|]). split.
  - eexists _, _. split; [vm_compute; reflexivity|].
    split; [vm_compute; reflexivity|].
    split; [eexists; vm_compute; reflexivity|].
    split; [vm_compute; reflexivity|].
    do 4 (split; [vm_compute; reflexivity|]).
    intros dt. vm_compute. reflexivity.
  - eexists _, _, _. split; [vm_compute; reflexivity|].
    split; [vm_compute; reflexivity|].
    split; [vm_compute; reflexivity|].
    do 2 (split; [vm_compute; reflexivity|]).
    split; [intros r; vm_compute; reflexivity|].
    split; [vm_compute; reflexivity|].
    repeat split; vm_compute; reflexivity.
Qed.

(** ** One batch, from its first call to its outcome *)

Lemma dispatchEvent_eq ev st :
  V500.dispatchEvent ev st =
    callListeners (listenersOf ev) (broadcastListener ev)
      (listenersOf ev st) (set_events (λ l, l ++ [ev]) st).
Proof. by destruct ev. Qed.

Lemma broadcastListener_eq ev c st :
  runListener (broadcastListener ev c) st =
    if isCallerOf (batchOf ev) st c
    then delivered (batchOf ev) c (settlementOf ev) (unlisten ev c) st
    else st.
Proof.
  unfold isCallerOf. destruct ev as [b r|b e]; cbn [broadcastListener batchOf].
  - rewrite listenerThen_eq. destruct (callers st !! c); [|done].
    case_decide; [by rewrite bool_decide_true | by rewrite bool_decide_false].
  - rewrite listenerCatch_eq. destruct (callers st !! c); [|done].
    case_decide; [by rewrite bool_decide_true | by rewrite bool_decide_false].
Qed.

(** Listeners of other batches do nothing. *)
Lemma callListeners_noop ev snapshot st :
  (∀ c, c ∈ snapshot → isCallerOf (batchOf ev) st c = false) →
  callListeners (listenersOf ev) (broadcastListener ev) snapshot st = st.
Proof.
  induction snapshot as [|c rest IH]; intros Hno; [done|].
  cbn [callListeners]. rewrite broadcastListener_eq.
  rewrite (Hno c) by set_solver.
  replace (if decide (c ∈ listenersOf ev st) then st else st) with st
    by (by case_decide).
  apply IH. intros c' Hc'. apply Hno. set_solver.
Qed.

Lemma isMax_processed cnt :
  isMax Processed (bump Processed cnt) = true ↔ registered cnt = processed cnt + 1.
Proof.
  unfold isMax. cbn [bump field registered processed].
  destruct (Nat.eqb_spec (registered cnt) 0), (Nat.eqb_spec (registered cnt) (processed cnt + 1));
    split; intros; try done; lia.
Qed.

Lemma isCallerOf_settled b x c (f : State → State) st c' :
  callers (f st) = alter (settle x) c (callers st) →
  isCallerOf b (f st) c' = isCallerOf b st c'.
Proof.
  intros Hc. unfold isCallerOf. rewrite Hc.
  rewrite list_lookup_alter. case_decide; [subst c'|done].
  destruct (callers st !! c); reflexivity.
Qed.

Lemma delivered_spec ev c cnt st :
  requestCounter st !! batchOf ev = Some cnt →
  callers (delivered (batchOf ev) c (settlementOf ev) (unlisten ev c) st)
    = alter (settle (settlementOf ev)) c (callers st)
  ∧ listenersOf ev (delivered (batchOf ev) c (settlementOf ev) (unlisten ev c) st)
    = remove c (listenersOf ev st)
  ∧ uncaught (delivered (batchOf ev) c (settlementOf ev) (unlisten ev c) st)
    = uncaught st
  ∧ (if isMax Processed (bump Processed cnt)
     then requestCounter (delivered (batchOf ev) c (settlementOf ev) (unlisten ev c) st)
            = delete (batchOf ev) (requestCounter st)
          ∧ requestPayload (delivered (batchOf ev) c (settlementOf ev) (unlisten ev c) st)
            = delete (batchOf ev) (requestPayload st)
          ∧ requestDebounce (delivered (batchOf ev) c (settlementOf ev) (unlisten ev c) st)
            = delete (batchOf ev) (requestDebounce st)
          ∧ requestSignals (delivered (batchOf ev) c (settlementOf ev) (unlisten ev c) st)
            = delete (batchOf ev) (requestSignals st)
     else requestCounter (delivered (batchOf ev) c (settlementOf ev) (unlisten ev c) st)
            = <[batchOf ev := bump Processed cnt]> (requestCounter st)
          ∧ requestPayload (delivered (batchOf ev) c (settlementOf ev) (unlisten ev c) st)
            = requestPayload st
          ∧ requestDebounce (delivered (batchOf ev) c (settlementOf ev) (unlisten ev c) st)
            = requestDebounce st
          ∧ requestSignals (delivered (batchOf ev) c (settlementOf ev) (unlisten ev c) st)
            = requestSignals st).
Proof.
  intros Hc. unfold delivered. rewrite Hc.
  destruct (isMax Processed (bump Processed cnt)); destruct ev; destruct_state st;
    rewrite ?delete_insert_eq; done.
Qed.

Lemma filter_all {A} (P : A → Prop) `{∀ x, Decision (P x)} (l : list A) :
  (∀ x, x ∈ l → P x) → filter P l = l.
Proof.
  induction l as [|x l IH]; intros Hall; [done|].
  rewrite filter_cons_True by (apply Hall; set_solver).
  f_equal. apply IH. intros; apply Hall; set_solver.
Qed.

Lemma filter_remove (P : nat → Prop) `{∀ x, Decision (P x)} c l :
  filter (λ x, x ∉ c :: filter P l) l = filter (λ x, x ∉ filter P l) (remove c l).
Proof.
  unfold remove. rewrite list_filter_filter. apply list_filter_iff.
  intros x. rewrite not_elem_of_cons. tauto.
Qed.

Lemma broadcast ev snapshot : ∀ st cnt,
  requestCounter st !! batchOf ev = Some cnt →
  NoDup (filter (λ c, isCallerOf (batchOf ev) st c = true) snapshot) →
  (∀ c, c ∈ filter (λ c, isCallerOf (batchOf ev) st c = true) snapshot →
        c ∈ listenersOf ev st) →
  processed cnt + length (filter (λ c, isCallerOf (batchOf ev) st c = true) snapshot)
    ≤ registered cnt →
  Broadcasted ev (filter (λ c, isCallerOf (batchOf ev) st c = true) snapshot) cnt st
    (callListeners (listenersOf ev) (broadcastListener ev) snapshot st).
Proof.
  induction snapshot as [|c rest IH]; intros st cnt Hcnt Hnd Hin Hle.
  { cbn [callListeners]. rewrite filter_nil. split.
    - intros c. by rewrite decide_False by set_solver.
    - rewrite filter_all; [done|]. intros; set_solver.
    - done.
    - rewrite bool_decide_false by (by intros [? _]).
      repeat split. rewrite insert_id; [done|]. rewrite Hcnt. f_equal.
      destruct cnt; unfold processedBy; cbn. f_equal. lia. }
  cbn [callListeners]. rewrite broadcastListener_eq.
  rewrite filter_cons in *.
  destruct (decide (isCallerOf (batchOf ev) st c = true)) as [Hc|Hc].
  2: { apply not_true_is_false in Hc. rewrite Hc.
       replace (if decide (c ∈ listenersOf ev st) then st else st) with st
         by (by case_decide).
       by apply IH. }
  rewrite Hc. rewrite decide_True by (apply Hin; set_solver).
  set (st1 := delivered _ _ _ _ st).
  destruct (delivered_spec ev c cnt st Hcnt) as (Hcs & Hls & Hun & Hreg).
  fold st1 in Hcs, Hls, Hun, Hreg.
  assert (Hsame : ∀ c', isCallerOf (batchOf ev) st1 c' = isCallerOf (batchOf ev) st c').
  { intros c'. unfold isCallerOf. rewrite Hcs, list_lookup_alter.
    case_decide; [subst c'|done]. destruct (callers st !! c); reflexivity. }
  set (L := filter (λ c, isCallerOf (batchOf ev) st c = true) rest) in *.
  assert (HL : filter (λ c, isCallerOf (batchOf ev) st1 c = true) rest = L).
  { apply list_filter_iff. intros c'. by rewrite Hsame. }
  apply NoDup_cons in Hnd as [HcL HndL].
  cbn [length] in Hle.
  destruct (isMax Processed (bump Processed cnt)) eqn:Hmax.
  - (* the batch is retired by this caller: nobody of the batch is left *)
    apply isMax_processed in Hmax.
    assert (L = []) as HLnil by (apply length_zero_iff_nil; lia).
    rewrite callListeners_noop.
    2: { intros c' Hc'. rewrite Hsame.
         destruct (isCallerOf (batchOf ev) st c') eqn:Hc''; [|done].
         assert (c' ∈ L) as Hc'L by (apply list_elem_of_filter; done).
         rewrite HLnil in Hc'L. by apply elem_of_nil in Hc'L. }
    rewrite HLnil. destruct Hreg as (? & ? & ? & ?). split.
    + intros c'. rewrite Hcs, list_lookup_alter.
      destruct (decide (c = c')) as [->|Hcc'].
      * by rewrite decide_True by (by apply list_elem_of_singleton).
      * by rewrite decide_False by (rewrite list_elem_of_singleton; congruence).
    + rewrite Hls. unfold remove. apply list_filter_iff.
      intros x. by rewrite list_elem_of_singleton.
    + done.
    + rewrite bool_decide_true; [done|]. cbn [length]. split; [done|lia].
  - assert (registered cnt ≠ processed cnt + 1) as Hne.
    { intros Heq. apply isMax_processed in Heq. congruence. }
    destruct Hreg as (Hr1 & Hr2 & Hr3 & Hr4).
    destruct (IH st1 (bump Processed cnt)) as [Ic Il Iu Ir].
    + by rewrite Hr1, lookup_insert_eq.
    + by rewrite HL.
    + rewrite HL. intros c' Hc'. rewrite Hls. unfold remove.
      apply list_elem_of_filter. split; [set_solver|]. apply Hin. set_solver.
    + rewrite HL. cbn [bump processed registered]. lia.
    + rewrite HL in *. split.
      * intros c'. rewrite Ic, Hcs, list_lookup_alter.
        destruct (decide (c = c')) as [->|Hcc'].
        -- rewrite decide_False by done.
           by rewrite decide_True by (apply elem_of_cons; by left).
        -- destruct (decide (c' ∈ L)).
           ++ by rewrite decide_True by (apply elem_of_cons; by right).
           ++ by rewrite decide_False by (rewrite not_elem_of_cons; split; congruence).
      * rewrite Il, Hls. unfold remove. rewrite list_filter_filter.
        apply list_filter_iff. intros x. rewrite not_elem_of_cons. tauto.
      * congruence.
      * cbn [bump processed registered length] in *.
        destruct (decide (L ≠ [] ∧ processed cnt + 1 + length L = registered cnt))
          as [[HLne Heq]|Hno].
        -- rewrite bool_decide_true in Ir by done.
           rewrite bool_decide_true by (split; [done|lia]).
           destruct Ir as (-> & -> & -> & ->).
           rewrite Hr1, Hr2, Hr3, Hr4, delete_insert_eq. done.
        -- rewrite bool_decide_false in Ir by done.
           rewrite bool_decide_false.
           2: { intros [_ Heq]. apply Hno. split; [|lia].
                intros ->. cbn [length] in Heq. lia. }
           destruct Ir as (-> & -> & -> & ->).
           rewrite Hr1, Hr2, Hr3, Hr4, insert_insert_eq. repeat split.
           f_equal. unfold processedBy. cbn. f_equal. lia.
Qed.

Lemma run_app hash evs1 evs2 st :
  V500.run hash (evs1 ++ evs2) st = V500.run hash evs1 st ≫= V500.run hash evs2.
Proof.
  revert st. induction evs1 as [|ev evs1 IH]; intros st; [done|].
  cbn [app V500.run]. destruct (V500.step hash ev st); [apply IH|done].
Qed.

Lemma abortEntries_app c sigs1 sigs2 :
  abortEntries c (sigs1 ++ sigs2) =
    abortEntries c sigs1 ++ abortEntries (c + length sigs1) sigs2.
Proof.
  revert c. induction sigs1 as [|s sigs1 IH]; intros c; cbn [app abortEntries length].
  - by rewrite Nat.add_0_r.
  - rewrite IH, <- app_assoc. do 3 f_equal. lia.
Qed.

Lemma joinSignals_app evs1 evs2 :
  joinSignals (evs1 ++ evs2) = joinSignals evs1 ++ joinSignals evs2.
Proof. apply omap_app. Qed.

Lemma Batch_ext b u other st0 sigs K ph st st' :
  Batch b u other st0 sigs K ph st →
  callers st' = callers st →
  thenListeners st' = thenListeners st →
  catchListeners st' = catchListeners st →
  requestCounter st' = requestCounter st →
  requestPayload st' = requestPayload st →
  requestSignals st' = requestSignals st →
  requestDebounce st' = requestDebounce st →
  timers st' = timers st →
  fetches st' = fetches st →
  controllers st' = controllers st →
  uncaught st' = uncaught st →
  events st' = events st →
  Batch b u other st0 sigs K ph st'.
Proof.
  intros [] Hc Ht Hk Hn Hp Hs Hd Htm Hf Hct Hu He.
  split; rewrite ?Hc, ?Ht, ?Hk, ?Hn, ?Hp, ?Hu, ?He; try done.
  destruct ph; rewrite ?Hs, ?Hd, ?Htm, ?Hf, ?Hct; done.
Qed.

Lemma filter_none_empty (l : list nat) :
  filter (λ c, (∅ : gmap nat Error) !! c = None) l = l.
Proof. apply filter_all. intros. apply lookup_empty. Qed.

Section Gathering.
Variable hash : string → string → list (string * string) → string.
Variables (u : string) (other : list (string * string)).
Let b := hash u "otherOptions" other.

Lemma gathered_init st : Gathered b u other st [] st.
Proof. unfold Gathered. cbn [abortEntries]. by rewrite app_nil_r. Qed.

Lemma gathered_advance st0 sigs st dt :
  Gathered b u other st0 sigs st →
  Gathered b u other st0 sigs (set_clock (λ t, t + dt) st).
Proof.
  intros (Ha & Hu & Hb). split; [done|]. split; [done|].
  destruct sigs as [|s sigs].
  - rewrite <- Hb. by destruct st.
  - destruct Hb as (tid & due & Hb). exists tid, due.
    by eapply Batch_ext.
Qed.

Lemma gathered_call st0 sigs st o :
  quiescent b st0 →
  otherOptions o = other →
  Gathered b u other st0 sigs st →
  Gathered b u other st0 (sigs ++ [signal o]) (joinedState 500 b u o st).
Proof.
  intros Hq Ho (Ha & Hu & Hb). split; [|split].
  - cbn [joinedState abortListeners]. rewrite Ha, abortEntries_app, <- app_assoc.
    f_equal. f_equal. cbn [abortEntries]. rewrite app_nil_r.
    destruct sigs as [|s sigs].
    + assert (callers st = callers st0) as -> by
        (change (callers (set_clock (λ _, 0) st) = callers (set_clock (λ _, 0) st0));
         by rewrite Hb).
      cbn [length]. by rewrite Nat.add_0_r.
    + destruct Hb as (tid & due & Hb). by rewrite (batch_len _ _ _ _ _ _ _ _ Hb).
  - done.
  - destruct (sigs ++ [signal o]) eqn:Hne; [by destruct sigs|]. rewrite <- Hne. clear Hne.
    exists (nextTimer st), (clock st + 500).
    destruct sigs as [|s sigs].
    + (* the first call *)
      assert (Hst : ∀ {A} (f : State → A), 
                (∀ x, f (set_clock (λ _, 0) x) = f x) → f st = f st0).
      { intros A f Hf. by rewrite <- (Hf st), <- (Hf st0), Hb. }
      destruct Hq as [Hqp Hqc Hqd Hqs Hqt Hqk].
      assert (callers st = callers st0) as Hcs by (by apply (Hst _ callers)).
      split; cbn [joinedState callers thenListeners catchListeners requestCounter
                  requestPayload requestSignals requestDebounce timers fetches
                  controllers uncaught events app length].
      * rewrite length_app, Hcs. done.
      * intros c Hc. rewrite Hcs. by rewrite lookup_app_l by lia.
      * intros i s Hi. destruct i; [|done]. cbn in Hi. injection Hi as <-.
        rewrite Nat.add_0_r, lookup_empty, <- Hcs.
        rewrite lookup_app_r by lia. by rewrite Nat.sub_diag.
      * rewrite filter_none_empty, (Hst _ thenListeners), Hcs; done.
      * rewrite filter_none_empty, (Hst _ catchListeners), Hcs; done.
      * rewrite lookup_insert_eq, (Hst _ requestCounter), Hqc by done.
        by rewrite map_size_empty.
      * rewrite (Hst _ requestPayload), Hqp, lookup_insert_eq, Ho by done. done.
      * rewrite (Hst _ requestSignals), lookup_insert_eq, lookup_insert_eq by done.
        rewrite (Hst _ fetches), (Hst _ controllers) by done. done.
      * by apply (Hst _ uncaught).
      * by apply (Hst _ events).
    + destruct Hb as (tid & due & [Hlen Hold Hnew Hthen Hcatch Hcnt Hpay Hph Hunc Hev]).
      destruct Hph as (Hs & Hd & Htm & Hf & Hct).
      set (sigs' := s :: sigs) in *.
      split; cbn [joinedState callers thenListeners catchListeners requestCounter
                  requestPayload requestSignals requestDebounce timers fetches
                  controllers uncaught events].
      * rewrite !length_app, Hlen. cbn [length]. lia.
      * intros c Hc. rewrite lookup_app_l by lia. by apply Hold.
      * intros i s' Hi. rewrite lookup_empty.
        destruct (decide (i < length sigs')) as [Hlt|Hge].
        -- rewrite lookup_app_l in Hi by done. rewrite lookup_app_l by lia.
           rewrite (Hnew _ _ Hi). by rewrite lookup_empty.
        -- rewrite lookup_app_r in Hi by lia.
           destruct (i - length sigs') eqn:Hdiff; [|by destruct n].
           cbn in Hi. injection Hi as <-.
           rewrite lookup_app_r by lia.
           replace (length (callers st0) + i - length (callers st)) with 0 by lia.
           done.
      * rewrite Hthen, Hlen, length_app, seq_app, !filter_none_empty, <- app_assoc.
        done.
      * rewrite Hcatch, Hlen, length_app, seq_app, !filter_none_empty, <- app_assoc.
        done.
      * rewrite lookup_insert_eq, Hcnt, length_app. cbn. by rewrite map_size_empty.
      * by rewrite Hpay.
      * rewrite !lookup_insert_eq. done.
      * done.
      * done.
Qed.

Lemma gathered_run st0 : quiescent b st0 → ∀ evs,
  Forall (isJoin u other) evs →
  ∃ st, V500.run hash evs st0 = Some st
        ∧ Gathered b u other st0 (joinSignals evs) st.
Proof.
  intros Hq evs. induction evs as [|ev evs IH] using rev_ind; intros Hevs.
  { exists st0. split; [done|]. apply gathered_init. }
  apply Forall_app in Hevs as [Hevs Hev]. apply Forall_inv in Hev.
  destruct (IH Hevs) as (st & Hrun & Hg).
  rewrite run_app, Hrun, joinSignals_app. cbn [mbind option_bind V500.run].
  destruct ev as [u' o|dt|?|? ?|? ?|? ?]; try done.
  - destruct Hev as [-> Ho]. cbn [V500.step].
    assert (requestSignals st !! b = None) as Hs.
    { destruct Hg as (_ & _ & Hb). destruct (joinSignals evs).
      - replace (requestSignals st) with (requestSignals st0).
        + apply Hq.
        + change (requestSignals (set_clock (λ _, 0) st0) = requestSignals (set_clock (λ _, 0) st)).
          by rewrite Hb.
      - destruct Hb as (tid & due & Hb). apply (batch_phase _ _ _ _ _ _ _ _ Hb). }
    unfold b in Hs. rewrite <- Ho in Hs.
    rewrite (V500_batchFetch_join hash u o st Hs). cbn [snd].
    eexists. split; [done|]. cbn [joinSignals omap]. rewrite Ho.
    by apply gathered_call.
  - cbn [V500.step]. eexists. split; [done|].
    cbn [joinSignals omap]. rewrite app_nil_r. by apply gathered_advance.
Qed.

End Gathering.

Lemma size_lt_range (K : gmap nat Error) c0 n i0 :
  (∀ c, is_Some (K !! c) → c0 ≤ c < c0 + n) →
  i0 < n → K !! (c0 + i0) = None →
  size K < n.
Proof.
  intros Hdom Hi0 Hnone.
  rewrite <- (size_dom (D := gset nat)).
  assert (dom K ⊆ list_to_set (seq c0 n) ∖ {[c0 + i0]}) as Hsub.
  { intros c Hc. apply elem_of_dom in Hc as Hsome.
    apply elem_of_difference. split.
    - apply elem_of_list_to_set, elem_of_seq. by apply Hdom.
    - intros ->%elem_of_singleton. by rewrite Hnone in Hsome; destruct Hsome. }
  apply subseteq_size in Hsub.
  rewrite size_difference in Hsub.
  2: { intros c ->%elem_of_singleton. apply elem_of_list_to_set, elem_of_seq. lia. }
  rewrite size_singleton, size_list_to_set, length_seq in Hsub by apply NoDup_seq.
  lia.
Qed.

Lemma isMax_aborted cnt :
  registered cnt ≠ aborted cnt + 1 → isMax Aborted (bump Aborted cnt) = false.
Proof.
  intros Hne. unfold isMax. cbn [bump field registered aborted].
  destruct (registered cnt =? 0); [done|]. by apply Nat.eqb_neq.
Qed.

Lemma remove_old (c : nat) (l : list nat) :
  (∀ x, x ∈ l → x < c) → remove c l = l.
Proof.
  intros Hl. apply filter_all. intros x Hx. apply Hl in Hx. lia.
Qed.

Lemma remove_live (K : gmap nat Error) c e (l : list nat) :
  remove c (filter (λ x, K !! x = None) l) = filter (λ x, <[c:=e]> K !! x = None) l.
Proof.
  unfold remove. rewrite list_filter_filter. apply list_filter_iff.
  intros x. rewrite lookup_insert_None. intuition congruence.
Qed.

Section Withdraw.
Variables (b u : string) (other : list (string * string)) (st0 : State).
Hypothesis Hq : quiescent b st0.

(** A caller of the batch that is not the last one left withdraws. *)
Lemma batch_withdraw sigs K ph st i s e :
  Batch b u other st0 sigs K ph st →
  sigs !! i = Some (Some s) →
  K !! (length (callers st0) + i) = None →
  userAborted st !! s = Some e →
  size K + 1 < length sigs →
  Batch b u other st0 sigs (<[length (callers st0) + i := e]> K) ph
    (withdrawn b s (length (callers st0) + i) st)
  ∧ userAborted (withdrawn b s (length (callers st0) + i) st) = userAborted st
  ∧ abortListeners (withdrawn b s (length (callers st0) + i) st) = abortListeners st
  ∧ clock (withdrawn b s (length (callers st0) + i) st) = clock st.
Proof.
  intros [Hlen Hold Hnew Hthen Hcatch Hcnt Hpay Hph Hunc Hev] Hi HK Hua Hsz.
  set (c := length (callers st0) + i) in *.
  unfold withdrawn. rewrite Hcnt, Hua.
  rewrite isMax_aborted by (cbn; lia).
  cbn zeta. repeat split; mproj.
  - by rewrite length_alter.
  - intros c' Hc'. rewrite list_lookup_alter_ne by (unfold c; lia). by apply Hold.
  - intros i' s' Hi'. rewrite list_lookup_alter, lookup_insert.
    destruct (decide (c = length (callers st0) + i')) as [Heq|Hne].
    + assert (i' = i) as -> by (unfold c in Heq; lia).
      unfold c. rewrite (Hnew _ _ Hi'). fold c. rewrite HK.
      assert (s' = Some s) as -> by congruence. done.
    + by rewrite (Hnew _ _ Hi').
  - rewrite Hthen. unfold remove at 1. rewrite filter_app. f_equal.
    + apply (remove_old c). intros x Hx. apply (q_then _ _ Hq) in Hx. unfold c. lia.
    + apply remove_live.
  - rewrite Hcatch. unfold remove at 1. rewrite filter_app. f_equal.
    + apply (remove_old c). intros x Hx. apply (q_catch _ _ Hq) in Hx. unfold c. lia.
    + apply remove_live.
  - rewrite lookup_insert_eq, map_size_insert_None by done.
    cbn. do 2 f_equal. lia.
  - done.
  - by destruct ph.
  - done.
  - done.
Qed.

End Withdraw.

Lemma elem_of_abortEntries s c c0 sigs :
  (s, c) ∈ abortEntries c0 sigs ↔ ∃ i, c = c0 + i ∧ sigs !! i = Some (Some s).
Proof.
  revert c0. induction sigs as [|s' sigs IH]; intros c0; cbn [abortEntries].
  { rewrite elem_of_nil. split; [done|]. by intros (i & _ & ?). }
  rewrite elem_of_app, IH. split.
  - intros [Hhd|(i & -> & Hi)].
    + destruct s' as [s'|]; [|by apply elem_of_nil in Hhd].
      apply list_elem_of_singleton in Hhd. injection Hhd as -> ->.
      exists 0. split; [lia|done].
    + exists (S i). split; [lia|done].
  - intros ([|i] & -> & Hi).
    + left. cbn in Hi. injection Hi as ->. rewrite Nat.add_0_r.
      by apply list_elem_of_singleton.
    + right. exists i. split; [lia|done].
Qed.

Lemma abortEntries_ge s c c0 sigs : (s, c) ∈ abortEntries c0 sigs → c0 ≤ c.
Proof. intros (i & -> & _)%elem_of_abortEntries. lia. Qed.

Lemma NoDup_abortEntries c0 sigs : NoDup (abortEntries c0 sigs).*2.
Proof.
  revert c0. induction sigs as [|s sigs IH]; intros c0; cbn [abortEntries].
  { constructor. }
  rewrite fmap_app. apply NoDup_app. split; [|split].
  - destruct s; cbn; [apply NoDup_singleton | constructor].
  - intros c Hc Hc'. apply list_elem_of_fmap in Hc' as ([s' c'] & -> & Hin).
    apply abortEntries_ge in Hin. cbn in Hc.
    destruct s; cbn in Hc; [|by apply elem_of_nil in Hc].
    apply list_elem_of_singleton in Hc. cbn in Hc. lia.
  - apply IH.
Qed.

Section WithdrawAll.
Variables (b u : string) (other : list (string * string)) (st0 : State).
Hypothesis Hq : quiescent b st0.

Lemma withdraw_all sigs ph s e (S : list (nat * nat)) : ∀ K st,
  Batch b u other st0 sigs K ph st →
  userAborted st !! s = Some e →
  (∀ c, is_Some (K !! c) → length (callers st0) ≤ c < length (callers st0) + length sigs) →
  (∀ p, p ∈ S → ∃ i, p.2 = length (callers st0) + i
                     ∧ sigs !! i = Some (Some s) ∧ K !! p.2 = None) →
  NoDup S.*2 →
  (∃ i0 s0, sigs !! i0 = Some s0 ∧ s0 ≠ Some s
            ∧ K !! (length (callers st0) + i0) = None) →
  ∃ K', Batch b u other st0 sigs K' ph
          (foldl (λ acc p, runListener (V500.listenerAbort s p.2) acc) st S)
        ∧ (∀ c, K' !! c = if decide (c ∈ S.*2) then Some e else K !! c)
        ∧ userAborted (foldl (λ acc p, runListener (V500.listenerAbort s p.2) acc) st S)
          = userAborted st
        ∧ abortListeners (foldl (λ acc p, runListener (V500.listenerAbort s p.2) acc) st S)
          = abortListeners st
        ∧ clock (foldl (λ acc p, runListener (V500.listenerAbort s p.2) acc) st S)
          = clock st.
Proof.
  induction S as [|[s' c] S IH]; intros K st HB Hua Hdom HS Hnd Hlive.
  { exists K. cbn [foldl fmap list_fmap]. split; [done|]. split; [|done].
    intros c. by rewrite decide_False by apply not_elem_of_nil. }
  cbn [foldl snd]. cbn [fmap list_fmap snd] in Hnd.
  apply NoDup_cons in Hnd as [HcS Hnd].
  destruct (HS (s', c)) as (i & Hc & Hi & HKc); [apply elem_of_cons; by left|].
  cbn [snd] in Hc, HKc. subst c.
  destruct Hlive as (i0 & s0 & Hi0 & Hs0 & HK0).
  assert (i0 ≠ i) as Hne by (intros ->; congruence).
  assert (size K + 1 < length sigs) as Hsz.
  { assert (size (<[length (callers st0) + i := e]> K) < length sigs) as Hlt;
      [|rewrite map_size_insert_None in Hlt by done; lia].
    apply (size_lt_range _ (length (callers st0)) _ i0).
    - intros c [x Hx]. apply lookup_insert_Some in Hx as [[<- _]|[_ Hx]].
      + apply lookup_lt_Some in Hi. lia.
      + apply Hdom. by exists x.
    - by apply lookup_lt_Some in Hi0.
    - rewrite lookup_insert_ne by lia. done. }
  rewrite listenerAbort_eq, (batch_new _ _ _ _ _ _ _ _ HB _ _ Hi). cbn [c_batch].
  destruct (batch_withdraw b u other st0 Hq sigs K ph st i s e HB Hi HKc Hua Hsz)
    as (HB' & Hua' & Hal' & Hck').
  destruct (IH _ _ HB') as (K' & HB'' & HK' & Hua'' & Hal'' & Hck'').
  - by rewrite Hua'.
  - intros c [x Hx]. apply lookup_insert_Some in Hx as [[<- _]|[_ Hx]].
    + apply lookup_lt_Some in Hi. lia.
    + apply Hdom. by exists x.
  - intros p Hp. destruct (HS p) as (i' & Hp2 & Hi' & HKp); [apply elem_of_cons; by right|].
    exists i'. split; [done|]. split; [done|].
    rewrite lookup_insert_ne; [done|]. intros Heq. apply HcS.
    rewrite Heq. apply list_elem_of_fmap. by exists p.
  - done.
  - exists i0, s0. split; [done|]. split; [done|].
    rewrite lookup_insert_ne by lia. done.
  - exists K'. split; [done|]. split; [|by rewrite Hua'', Hal'', Hck''].
    intros c. rewrite HK'. cbn [fmap list_fmap snd].
    destruct (decide (c ∈ S.*2)) as [Hin|Hnin].
    + by rewrite decide_True by (apply elem_of_cons; by right).
    + rewrite lookup_insert. destruct (decide (length (callers st0) + i = c)) as [<-|Hne'].
      * by rewrite decide_True by (apply elem_of_cons; by left).
      * rewrite decide_False; [done|]. rewrite not_elem_of_cons. split; congruence.
Qed.

End WithdrawAll.

Lemma NoDup_fmap_filter {A B} (f : A → B) (P : A → Prop) `{∀ x, Decision (P x)}
    (l : list A) :
  NoDup (f <$> l) → NoDup (f <$> filter P l).
Proof.
  induction l as [|x l IH]; [done|]. cbn [fmap list_fmap].
  intros [Hx Hl]%NoDup_cons. rewrite filter_cons. case_decide; [|by apply IH].
  cbn [fmap list_fmap]. apply NoDup_cons. split; [|by apply IH].
  intros (y & Hy & Hin)%list_elem_of_fmap. apply Hx.
  apply list_elem_of_fmap. exists y. split; [done|].
  by apply list_elem_of_filter in Hin as [_ ?].
Qed.

Section ServiceSteps.
Variable hash : string → string → list (string * string) → string.
Variables (b u : string) (other : list (string * string)) (st0 : State).
Hypothesis Hq : quiescent b st0.

Lemma serving_advance sigs A ph st dt :
  Serving b u other st0 sigs A ph st →
  Serving b u other st0 sigs A ph (set_clock (λ t, t + dt) st).
Proof.
  intros (K & HB & HK & Hal & Hua). exists K.
  split; [by eapply Batch_ext|]. split; [done|]. split; done.
Qed.

Lemma serving_timeout sigs A tid due st :
  Serving b u other st0 sigs A (Debouncing tid due) st →
  Serving b u other st0 sigs A (InFlight tid)
    (dispatched b (set_timers (delete tid) st)).
Proof.
  intros (K & [Hlen Hold Hnew Hthen Hcatch Hcnt Hpay Hph Hunc Hev] & HK & Hal & Hua).
  destruct Hph as (Hs & Hd & Htm & Hf & Hct).
  exists K. split; [|done].
  split; try done. unfold dispatched. mproj.
  rewrite Hpay, Hf, Hct, lookup_insert_eq, lookup_delete_eq. done.
Qed.

Lemma serving_abort sigs A ph st s e :
  Serving b u other st0 sigs A ph st →
  A !! s = None →
  userAborted st0 !! s = None →
  (∀ c, (s, c) ∉ abortListeners st0) →
  (∃ i0 s0, sigs !! i0 = Some s0 ∧ s0 ≠ Some s ∧ s0 ≫= (A !!.) = None) →
  Serving b u other st0 sigs (<[s := e]> A) ph
    (V500.fireAbort s (set_userAborted (insert s e) st))
  ∧ clock (V500.fireAbort s (set_userAborted (insert s e) st)) = clock st.
Proof.
  intros (K & HB & [HK Hdom] & Hal & Hua) HA Hua0 Hfresh (i0 & s0 & Hi0 & Hs0 & HA0).
  set (entries := abortEntries (length (callers st0)) sigs) in *.
  unfold V500.fireAbort. mproj.
  (* the listeners on the signal are those of the batch's callers *)
  assert (filter (λ p, p.1 = s) (abortListeners st) = filter (λ p, p.1 = s) entries)
    as ->.
  { assert (filter (λ p, p.1 = s) (abortListeners st0) = []) as Hnil.
    { destruct (filter _ (abortListeners st0)) as [|[s' c] l] eqn:Hf; [done|].
      assert ((s', c) ∈ filter (λ p, p.1 = s) (abortListeners st0)) as Hin
        by (rewrite Hf; apply elem_of_cons; by left).
      apply list_elem_of_filter in Hin as [Heq Hin]. cbn in Heq. subst s'.
      by apply Hfresh in Hin. }
    rewrite Hal, filter_app, Hnil, app_nil_l.
    rewrite list_filter_filter. apply list_filter_iff.
    intros [s' c]; cbn. split; [by intros [? _]|]. intros ->. by split. }
  set (st1 := set_abortListeners _ _).
  assert (Batch b u other st0 sigs K ph st1) as HB1 by (by eapply Batch_ext).
  destruct (withdraw_all b u other st0 Hq sigs ph s e
              (filter (λ p, p.1 = s) entries) K st1 HB1)
    as (K' & HB' & HK' & Hua' & Hal' & Hck').
  - unfold st1. mproj. apply lookup_insert_eq.
  - done.
  - intros [s' c] [Heq Hin]%list_elem_of_filter. cbn in Heq. subst s'.
    apply elem_of_abortEntries in Hin as (i & -> & Hi).
    exists i. split; [done|]. split; [done|]. cbn [snd].
    rewrite (HK _ _ Hi). done.
  - apply NoDup_fmap_filter, NoDup_abortEntries.
  - exists i0, s0. split; [done|]. split; [done|]. by rewrite (HK _ _ Hi0).
  - split; [|by rewrite Hck'].
    assert (Hin : ∀ c, c ∈ (filter (λ p, p.1 = s) entries).*2
                       ↔ ∃ i, c = length (callers st0) + i ∧ sigs !! i = Some (Some s)).
    { intros c. rewrite list_elem_of_fmap. split.
      - intros ([s' c'] & -> & [Heq Hc]%list_elem_of_filter). cbn in Heq. subst s'.
        by apply elem_of_abortEntries in Hc.
      - intros (i & -> & Hi). exists (s, length (callers st0) + i). split; [done|].
        apply list_elem_of_filter. split; [done|].
        apply elem_of_abortEntries. by exists i. }
    exists K'. split; [done|]. split; [split|split].
    + intros i s' Hi. rewrite HK'. case_decide as Hc.
      * apply Hin in Hc as (i' & Heq & Hi'). assert (i' = i) as -> by lia.
        assert (s' = Some s) as -> by congruence. cbn. by rewrite lookup_insert_eq.
      * rewrite (HK _ _ Hi). destruct s' as [s'|]; [|done]. cbn.
        rewrite lookup_insert_ne; [done|]. intros ->. apply Hc, Hin. by exists i.
    + intros c [x Hx]. rewrite HK' in Hx. case_decide as Hc.
      * apply Hin in Hc as (i & -> & Hi). apply lookup_lt_Some in Hi. lia.
      * apply Hdom. by exists x.
    + rewrite Hal'. unfold st1. mproj. rewrite Hal, filter_app. f_equal.
      * apply filter_all. intros [s' c] Hin' Heq. cbn in Heq. subst s'.
        by apply Hfresh in Hin'.
      * rewrite list_filter_filter. apply list_filter_iff.
        intros [s' c]; cbn. rewrite lookup_insert_None. intuition congruence.
    + rewrite Hua'. unfold st1. mproj. by rewrite Hua, insert_union_l.
Qed.

End ServiceSteps.

Section ServiceRun.
Variable hash : string → string → list (string * string) → string.
Variables (b u : string) (other : list (string * string)) (st0 : State).
Hypothesis Hq : quiescent b st0.

Lemma serving_run sigs tid i0 s0 :
  sigs !! i0 = Some s0 →
  ∀ evs st A ph st',
    Serving b u other st0 sigs A ph st →
    tidOf ph = tid →
    s0 ≫= (A !!.) = None →
    Forall (isService st0 tid) evs →
    (∀ s e, EvAbort s e ∈ evs → s0 ≠ Some s) →
    V500.run hash evs st = Some st' →
    Serving b u other st0 sigs (abortsOf A evs) (phaseAfter ph evs) st'
    ∧ s0 ≫= (abortsOf A evs !!.) = None.
Proof.
  intros Hi0 evs. induction evs as [|ev evs IH]; intros st A ph st' HS Htid HA0 Hevs Hlive Hrun.
  { cbn in Hrun. injection Hrun as <-. unfold phaseAfter. cbn. done. }
  apply Forall_cons in Hevs as [Hev Hevs].
  cbn [V500.run] in Hrun.
  assert (Hlive' : ∀ s e, EvAbort s e ∈ evs → s0 ≠ Some s).
  { intros s e Hin. apply (Hlive s e). apply elem_of_cons. by right. }
  destruct ev as [?|dt|t|? ?|? ?|s e]; try done.
  - (* time passes *)
    cbn [V500.step] in Hrun.
    apply (IH _ A ph) in Hrun; [done|by apply serving_advance|done..].
  - (* the timer runs *)
    cbn [isService] in Hev. subst t.
    cbn [V500.step] in Hrun.
    destruct ph as [tid' due|tid']; cbn [tidOf] in Htid; subst tid'.
    + destruct HS as (K & HB & HS).
      destruct (batch_phase _ _ _ _ _ _ _ _ HB) as (_ & _ & Htm & _).
      rewrite Htm in Hrun. case_decide; [|done].
      rewrite dispatchRequest_eq in Hrun.
      apply (IH _ A (InFlight tid)) in Hrun; try done.
      * unfold phaseAfter in *. cbn [hasTimeout existsb orb tidOf] in *.
        by destruct (hasTimeout evs).
      * apply (serving_timeout b u other st0 sigs A tid due). by exists K.
    + destruct HS as (K & HB & HS).
      destruct (batch_phase _ _ _ _ _ _ _ _ HB) as (_ & _ & Htm & _).
      by rewrite Htm in Hrun.
  - (* a signal is aborted *)
    destruct Hev as [Hua0 Hfresh].
    cbn [V500.step] in Hrun.
    assert (userAborted st = A ∪ userAborted st0) as Hua
      by (by destruct HS as (K & _ & _ & _ & ?)).
    cbn [abortsOf foldl recordAbort]. fold (abortsOf (recordAbort A (EvAbort s e)) evs).
    cbn [recordAbort]. rewrite Hua in Hrun.
    destruct (A !! s) as [e'|] eqn:HAs.
    + rewrite (lookup_union_Some_l _ _ _ _ HAs) in Hrun.
      apply (IH _ A ph) in Hrun; done.
    + rewrite (proj2 (lookup_union_None _ _ _)) in Hrun by done.
      assert (s0 ≠ Some s) as Hne by (apply (Hlive s e), elem_of_cons; by left).
      destruct (serving_abort hash b u other st0 Hq sigs A ph st s e HS HAs Hua0 Hfresh)
        as [HS' _]; [by exists i0, s0|].
      apply (IH _ (<[s:=e]> A) ph) in Hrun; try done.
      destruct s0 as [s0'|]; [|done]. cbn in *.
      rewrite lookup_insert_ne; [done|congruence].
Qed.

End ServiceRun.

Lemma delivered_frame {A} (proj : State → A) b c x unlisten st :
  (∀ f st', proj (set_callers f st') = proj st') →
  (∀ f st', proj (set_uncaught f st') = proj st') →
  (∀ f st', proj (set_requestCounter f st') = proj st') →
  (∀ st', proj (retired b st') = proj st') →
  (∀ st', proj (unlisten st') = proj st') →
  proj (delivered b c x unlisten st) = proj st.
Proof.
  intros H1 H2 H3 H4 H5. unfold delivered.
  destruct (requestCounter st !! b) as [cnt|].
  - rewrite H1. destruct (isMax _ _); by rewrite ?H4, H3, H5.
  - by rewrite H2, H5.
Qed.

Lemma dispatchEvent_frame {A} (proj : State → A) ev st :
  (∀ f st', proj (set_events f st') = proj st') →
  (∀ f st', proj (set_callers f st') = proj st') →
  (∀ f st', proj (set_uncaught f st') = proj st') →
  (∀ f st', proj (set_requestCounter f st') = proj st') →
  (∀ b st', proj (retired b st') = proj st') →
  (∀ c st', proj (unlisten ev c st') = proj st') →
  proj (V500.dispatchEvent ev st) = proj st.
Proof.
  intros H0 H1 H2 H3 H4 H5. rewrite dispatchEvent_eq.
  rewrite (callListeners_frame proj); [apply H0|].
  intros c st'. rewrite broadcastListener_eq.
  destruct (isCallerOf _ _ _); [|done]. by apply delivered_frame.
Qed.

Lemma dispatchEvent_fetches ev st : fetches (V500.dispatchEvent ev st) = fetches st.
Proof. apply dispatchEvent_frame; try done. by destruct ev. Qed.

Lemma dispatchEvent_controllers ev st :
  controllers (V500.dispatchEvent ev st) = controllers st.
Proof. apply dispatchEvent_frame; try done. by destruct ev. Qed.

Lemma dispatchEvent_timers ev st : timers (V500.dispatchEvent ev st) = timers st.
Proof. apply dispatchEvent_frame; try done. by destruct ev. Qed.

Section Outcome.
Variable hash : string → string → list (string * string) → string.
Variables (b u : string) (other : list (string * string)) (st0 : State).
Hypothesis Hq : quiescent b st0.

Lemma completion_step sigs K tid st out :
  Batch b u other st0 sigs K (InFlight tid) st →
  broadcastable out →
  V500.step hash (completion (length (fetches st0)) out) st =
    Some (V500.dispatchEvent (eventOf b out) (markDone (length (fetches st0)) st)).
Proof.
  intros HB Hout.
  destruct (batch_phase _ _ _ _ _ _ _ _ HB) as (_ & _ & _ & Hf & Hct).
  assert (fetches st !! length (fetches st0) = Some (batchFetchOf b u other st0 false))
    as Hl by (rewrite Hf; by apply list_lookup_middle).
  assert (fetchAborted (batchFetchOf b u other st0 false) st = None) as Hna.
  { unfold fetchAborted. cbn [batchFetchOf f_signal abortReason].
    rewrite Hct, list_lookup_middle; done. }
  destruct out as [r|e]; cbn [completion V500.step]; rewrite Hl; cbn [batchFetchOf f_done];
    fold (batchFetchOf b u other st0 false); rewrite Hna.
  - done.
  - unfold V500.fetchRejected. cbn [batchFetchOf f_cont].
    unfold V500.dispatchRequest_catch. by rewrite decide_False.
Qed.

Lemma isCallerOf_old sigs K ph st c :
  Batch b u other st0 sigs K ph st →
  c < length (callers st0) → isCallerOf b st c = isCallerOf b st0 c.
Proof.
  intros HB Hc. unfold isCallerOf. by rewrite (batch_old _ _ _ _ _ _ _ _ HB).
Qed.

Lemma batch_outcome sigs K tid st out :
  Batch b u other st0 sigs K (InFlight tid) st →
  broadcastable out →
  unheard b out st0 →
  ∃ st', V500.step hash (completion (length (fetches st0)) out) st = Some st'
    ∧ (∀ i s, sigs !! i = Some s →
         callers st' !! (length (callers st0) + i) =
           Some {| c_batch := b; c_signal := s;
                   c_settled := match K !! (length (callers st0) + i) with
                                | Some e => [Reject e]
                                | None => [delivery out]
                                end |})
    ∧ fetches st' = fetches st0 ++ [batchFetchOf b u other st0 true]
    ∧ controllers st' = controllers st
    ∧ uncaught st' = uncaught st0
    ∧ (K = ∅ → sigs ≠ [] →
         requestCounter st' !! b = None ∧ requestPayload st' !! b = None
         ∧ requestDebounce st' !! b = None ∧ requestSignals st' !! b = None).
Proof.
  intros HB Hout Hun0. eexists. split; [by eapply completion_step|].
  destruct HB as [Hlen Hold Hnew Hthen Hcatch Hcnt Hpay Hph Hunc Hev].
  destruct Hph as (Hs & Hd & Htm & Hf & Hct).
  set (c0 := length (callers st0)) in *.
  set (live := filter (λ c, K !! c = None) (seq c0 (length sigs))) in *.
  set (ev := eventOf b out).
  set (st4 := set_events (λ l, l ++ [ev]) (markDone (length (fetches st0)) st)).
  assert (batchOf ev = b) as Hbev by (by destruct out).
  assert (settlementOf ev = delivery out) as Hsev by (by destruct out).
  assert (callers st4 = callers st) as Hcs4 by done.
  assert (∃ old, listenersOf ev st4 = old ++ live
                 ∧ ∀ c, c ∈ old → c < c0 ∧ isCallerOf b st0 c = false)
    as (old & Hls4 & Hold4).
  { destruct out; cbn [ev eventOf listenersOf].
    - exists (thenListeners st0). split; [done|].
      intros c Hc. split; [by apply (q_then _ _ Hq)|by apply (Hun0 c)].
    - exists (catchListeners st0). split; [done|].
      intros c Hc. split; [by apply (q_catch _ _ Hq)|by apply (Hun0 c)]. }
  assert (Hisold : ∀ c, c < c0 → isCallerOf b st4 c = isCallerOf b st0 c).
  { intros c Hc. unfold isCallerOf. by rewrite Hcs4, Hold. }
  assert (Hisnew : ∀ c, c ∈ seq c0 (length sigs) → isCallerOf b st4 c = true).
  { intros c [Hge Hlt]%elem_of_seq. unfold isCallerOf. rewrite Hcs4.
    destruct (lookup_lt_is_Some_2 sigs (c - c0)) as [s Hi]; [lia|].
    replace c with (c0 + (c - c0)) by lia. rewrite (Hnew _ _ Hi).
    by apply bool_decide_true. }
  assert (filter (λ c, isCallerOf (batchOf ev) st4 c = true) (listenersOf ev st4) = live)
    as HL.
  { rewrite Hbev, Hls4, filter_app.
    rewrite (filter_all _ live).
    2: { intros c [_ Hc]%list_elem_of_filter. by apply Hisnew. }
    replace (filter _ old) with (@nil nat); [done|].
    symmetry. apply length_zero_iff_nil.
    destruct (filter _ old) as [|c l] eqn:Hfo; [done|].
    assert (c ∈ filter (λ c, isCallerOf b st4 c = true) old) as Hin
      by (rewrite Hfo; apply elem_of_cons; by left).
    apply list_elem_of_filter in Hin as [Htrue Hin].
    apply Hold4 in Hin as [Hlt Hfalse]. rewrite Hisold in Htrue by done. congruence. }
  assert (fetches (V500.dispatchEvent ev (markDone (length (fetches st0)) st))
          = fetches st0 ++ [batchFetchOf b u other st0 true]) as Hfet.
  { rewrite dispatchEvent_fetches. unfold markDone. mproj. rewrite Hf.
    rewrite <- (Nat.add_0_r (length (fetches st0))), alter_app_r. done. }
  assert (controllers (V500.dispatchEvent ev (markDone (length (fetches st0)) st))
          = controllers st) as Hctl by (by rewrite dispatchEvent_controllers).
  revert Hfet Hctl. rewrite dispatchEvent_eq. fold st4.
  change (listenersOf ev (markDone (length (fetches st0)) st))
    with (listenersOf ev st4).
  intros Hfet Hctl.
  destruct (broadcast ev (listenersOf ev st4) st4
              {| registered := length sigs; aborted := size K; processed := 0 |})
    as [Bc Bl Bu Br].
  { by rewrite Hbev. }
  { rewrite HL. apply NoDup_filter, NoDup_seq. }
  { rewrite HL, Hls4. intros c Hc. apply elem_of_app. by right. }
  { rewrite HL. cbn [processed registered].
    pose proof (length_filter (λ c, K !! c = None) (seq c0 (length sigs))) as Hle.
    rewrite length_seq in Hle. unfold live. lia. }
  rewrite HL in *. split; [|split; [|split; [|split]]].
  - intros i s Hi. rewrite Bc, Hcs4, (Hnew _ _ Hi).
    assert (c0 + i ∈ seq c0 (length sigs)) as Hin
      by (apply elem_of_seq; apply lookup_lt_Some in Hi; lia).
    destruct (K !! (c0 + i)) as [e|] eqn:HK.
    + rewrite decide_False; [done|].
      intros [HK' _]%list_elem_of_filter. congruence.
    + rewrite decide_True by (by apply list_elem_of_filter).
      cbn. by rewrite Hsev.
  - done.
  - done.
  - by rewrite Bu.
  - intros -> Hne. unfold live in Br. rewrite filter_none_empty, length_seq in Br.
    rewrite bool_decide_true in Br.
    2: { split; [|done]. destruct sigs; [done|]. by cbn. }
    rewrite Hbev in Br. destruct Br as (-> & -> & -> & ->).
    by rewrite !lookup_delete_eq.
Qed.

End Outcome.

Lemma batch_timeout b u other st0 sigs K tid due st :
  Batch b u other st0 sigs K (Debouncing tid due) st →
  Batch b u other st0 sigs K (InFlight tid) (dispatched b (set_timers (delete tid) st)).
Proof.
  intros [Hlen Hold Hnew Hthen Hcatch Hcnt Hpay Hph Hunc Hev].
  destruct Hph as (Hs & Hd & Htm & Hf & Hct).
  split; try done. unfold dispatched. mproj.
  rewrite Hpay, Hf, Hct, lookup_insert_eq, lookup_delete_eq. done.
Qed.

Lemma timeout_step hash b u other st0 sigs K tid due st dt :
  Batch b u other st0 sigs K (Debouncing tid due) st →
  due ≤ clock st + dt →
  V500.run hash [EvAdvance dt; EvTimeout tid] st =
    Some (dispatched b (set_timers (delete tid) (set_clock (λ t, t + dt) st)))
  ∧ Batch b u other st0 sigs K (InFlight tid)
      (dispatched b (set_timers (delete tid) (set_clock (λ t, t + dt) st))).
Proof.
  intros HB Hdue.
  assert (Batch b u other st0 sigs K (Debouncing tid due) (set_clock (λ t, t + dt) st))
    as HB' by (by eapply Batch_ext).
  split; [|by apply (batch_timeout _ _ _ _ _ _ _ due)].
  cbn [V500.run V500.step]. mproj.
  destruct (batch_phase _ _ _ _ _ _ _ _ HB) as (_ & _ & -> & _).
  rewrite decide_True by done. by rewrite dispatchRequest_eq.
Qed.

Lemma bind_lookup_empty (s : option nat) : s ≫= ((∅ : gmap nat Error) !!.) = None.
Proof. destruct s; [apply lookup_empty|done]. Qed.

Lemma gathered_serving b u other st0 sigs st :
  sigs ≠ [] →
  Gathered b u other st0 sigs st →
  ∃ tid due, Serving b u other st0 sigs ∅ (Debouncing tid due) st.
Proof.
  intros Hne (Hal & Hua & Hg). destruct sigs as [|s sigs]; [done|].
  destruct Hg as (tid & due & HB). exists tid, due, ∅.
  split; [done|]. split; [split|split].
  - intros i s' _. by rewrite lookup_empty, bind_lookup_empty.
  - intros c [x Hx]. by rewrite lookup_empty in Hx.
  - rewrite Hal. f_equal. symmetry. apply filter_all. intros; apply lookup_empty.
  - by rewrite Hua, (left_id_L ∅ (∪)).
Qed.

Section Partial.
Variable hash : string → string → list (string * string) → string.

(** X19: partial cancellation in the 500ms variant, the signals being the
    callers' own.  At least two callers have joined a batch, for a signature
    with nothing registered; while time passes and the timer runs or not,
    the signals of some of them are aborted, caller [i0] not being among
    these; none of the signals aborted was aborted before the batch or
    carries the abort listener of a caller from before the batch.  Then the
    batch's controller, if the fetch is out, is not aborted and the fetch is
    in flight; if the timer has not run it is still pending, with the same
    due time; [reject] has been called once on the promise of every caller
    whose signal was aborted, with the reason of that signal, and the others
    are untouched.  And when the fetch completes with a response or with an
    error that is not an abort error, no listener of a caller from before
    the batch being left on the channel of that outcome, each of those
    others gets the outcome while the withdrawn ones keep their own
    rejection only. *)
Theorem partial_cancellation u other joins evs st st1 st2 tid i0 s0 :
  quiescent (hash u "otherOptions" other) st →
  Forall (isJoin u other) joins →
  2 ≤ length (joinSignals joins) →
  V500.run hash joins st = Some st1 →
  requestDebounce st1 !! hash u "otherOptions" other = Some tid →
  Forall (isService st tid) evs →
  joinSignals joins !! i0 = Some s0 →
  (∀ s e, EvAbort s e ∈ evs → s0 ≠ Some s) →
  V500.run hash evs st1 = Some st2 →
  ∃ due,
    timers st1 !! tid = Some (due, hash u "otherOptions" other)
    ∧ (if hasTimeout evs
       then controllers st2 = controllers st ++ [false]
            ∧ fetches st2 =
                fetches st ++
                  [{| f_url := u; f_options := other;
                      f_signal := Some (BatchSignal (length (controllers st)));
                      f_cont := Broadcast (hash u "otherOptions" other);
                      f_done := false |}]
       else controllers st2 = controllers st ∧ fetches st2 = fetches st
            ∧ timers st2 !! tid = Some (due, hash u "otherOptions" other))
    ∧ (∀ i s, joinSignals joins !! i = Some s →
         callers st2 !! (length (callers st) + i) =
           Some {| c_batch := hash u "otherOptions" other; c_signal := s;
                   c_settled := match s ≫= (abortsOf ∅ evs !!.) with
                                | Some e => [Reject e]
                                | None => []
                                end |})
    ∧ ∀ dt out,
        due ≤ clock st2 + dt →
        broadcastable out →
        unheard (hash u "otherOptions" other) out st →
        ∃ st3,
          V500.run hash
            ((if hasTimeout evs then [] else [EvAdvance dt; EvTimeout tid])
               ++ [completion (length (fetches st)) out]) st2 = Some st3
          ∧ controllers st3 = controllers st ++ [false]
          ∧ fetches st3 =
              fetches st ++
                [{| f_url := u; f_options := other;
                    f_signal := Some (BatchSignal (length (controllers st)));
                    f_cont := Broadcast (hash u "otherOptions" other);
                    f_done := true |}]
          ∧ ∀ i s, joinSignals joins !! i = Some s →
              callers st3 !! (length (callers st) + i) =
                Some {| c_batch := hash u "otherOptions" other; c_signal := s;
                        c_settled := match s ≫= (abortsOf ∅ evs !!.) with
                                     | Some e => [Reject e]
                                     | None => [delivery out]
                                     end |}.
Proof.
  intros Hq Hjoins Hlen Hrun1 Hd Hevs Hi0 Hlive Hrun2.
  set (b := hash u "otherOptions" other) in *.
  destruct (gathered_run hash u other st Hq joins Hjoins) as (st1' & Hrun1' & Hg).
  assert (st1' = st1) as -> by congruence. fold b in Hg.
  destruct (gathered_serving b u other st (joinSignals joins) st1) as (tid' & due & HS);
    [by destruct (joinSignals joins)|done|].
  assert (tid' = tid) as ->.
  { destruct HS as (K & HB & _).
    destruct (batch_phase _ _ _ _ _ _ _ _ HB) as (_ & Hd' & _). congruence. }
  exists due. split.
  { destruct HS as (K & HB & _). apply (batch_phase _ _ _ _ _ _ _ _ HB). }
  destruct (serving_run hash b u other st Hq (joinSignals joins) tid i0 s0 Hi0
              evs st1 ∅ (Debouncing tid due) st2 HS eq_refl
              (bind_lookup_empty s0) Hevs Hlive Hrun2)
    as [(K & HB & [HK Hdom] & _ & _) _].
  set (A := abortsOf ∅ evs) in *.
  unfold phaseAfter in HB. cbn [tidOf] in HB.
  assert (Hcs : ∀ i s, joinSignals joins !! i = Some s →
            K !! (length (callers st) + i) = s ≫= (A !!.)) by exact HK.
  split; [|split].
  - destruct (hasTimeout evs);
      destruct (batch_phase _ _ _ _ _ _ _ _ HB) as (_ & _ & Htm & Hf & Hct); done.
  - intros i s Hi. by rewrite (batch_new _ _ _ _ _ _ _ _ HB _ _ Hi), (Hcs _ _ Hi).
  - intros dt out Hdue Hout Hun0.
    destruct (hasTimeout evs).
    + destruct (batch_outcome hash b u other st Hq _ _ _ _ out HB Hout Hun0)
        as (st3 & Hstep & Hcs3 & Hfs & Hct & _).
      exists st3. cbn [app V500.run]. rewrite Hstep.
      split; [done|]. split; [|split; [done|]].
      * rewrite Hct. apply (batch_phase _ _ _ _ _ _ _ _ HB).
      * intros i s Hi. by rewrite (Hcs3 _ _ Hi), (Hcs _ _ Hi).
    + destruct (timeout_step hash b u other st _ K tid due st2 dt HB Hdue)
        as [Hrun3 HB3].
      destruct (batch_outcome hash b u other st Hq _ _ _ _ out HB3 Hout Hun0)
        as (st3 & Hstep & Hcs3 & Hfs & Hct & _).
      exists st3. rewrite run_app, Hrun3. cbn [mbind option_bind V500.run].
      rewrite Hstep. split; [done|]. split; [|split; [done|]].
      * rewrite Hct. apply (batch_phase _ _ _ _ _ _ _ _ HB3).
      * intros i s Hi. by rewrite (Hcs3 _ _ Hi), (Hcs _ _ Hi).
Qed.

End Partial.

Lemma unheard_init b out : unheard b out init.
Proof. intros c Hc. destruct out; by apply elem_of_nil in Hc. Qed.

Lemma quiescent_init b : quiescent b init.
Proof.
  split; try apply lookup_empty; intros c Hc; by apply elem_of_nil in Hc.
Qed.

(** Three callers, the first withdraws before the timer runs and the third
    while the fetch is in flight; the second receives the response. *)
Lemma partial_cancellation_witness :
  quiescent apiGet500 init
  ∧ Forall (isJoin "/api" [("method", "GET")]) threeCalls
  ∧ 2 ≤ length (joinSignals threeCalls)
  ∧ Forall (isService init 3) twoWithdraw
  ∧ ∃ st3,
      V500.run sampleHash (threeCalls ++ twoWithdraw ++ [EvFetchResolve 0 ok200]) init
        = Some st3
      ∧ controllers st3 = [false]
      ∧ map c_settled (callers st3) =
          [[Reject abortError]; [Resolve (clone ok200)]; [Reject navigatedAway]].
Proof.
  assert (Hj : Forall (isJoin "/api" [("method", "GET")]) threeCalls)
    by (repeat constructor).
  assert (Hs : Forall (isService init 3) twoWithdraw).
  { repeat constructor; intros c Hc; by apply elem_of_nil in Hc. }
  assert (Hl : 2 ≤ length (joinSignals threeCalls)) by (vm_compute; lia).
  split; [apply quiescent_init|]. do 3 (split; [done|]).
  set (st1 := default init (V500.run sampleHash threeCalls init)).
  set (st2 := default init (V500.run sampleHash twoWithdraw st1)).
  assert (H1 : V500.run sampleHash threeCalls init = Some st1) by (vm_compute; reflexivity).
  assert (H2 : V500.run sampleHash twoWithdraw st1 = Some st2) by (vm_compute; reflexivity).
  assert (Hd : requestDebounce st1 !! sampleHash "/api" "otherOptions" [("method", "GET")]
               = Some 3) by (vm_compute; reflexivity).
  assert (Hi : joinSignals threeCalls !! 1 = Some None) by reflexivity.
  assert (Hlive : ∀ s e, EvAbort s e ∈ twoWithdraw → (None : option nat) ≠ Some s)
    by (intros; discriminate).
  destruct (partial_cancellation sampleHash "/api" [("method", "GET")]
              threeCalls twoWithdraw init st1 st2 3 1 None
              (quiescent_init _) Hj Hl H1 Hd Hs Hi Hlive H2)
    as (due & Htm & _ & _ & Hfin).
  assert (due = 600) as ->.
  { vm_compute in Htm. by injection Htm as <-. }
  destruct (Hfin 0 (Resolve ok200)) as (st3 & H3 & Hct & _ & Hcs).
  { replace (clock st2) with 600 by (vm_compute; reflexivity). lia. }
  { exact I. }
  { apply unheard_init. }
  exists st3. rewrite run_app, H1. cbn [mbind option_bind].
  rewrite run_app, H2. cbn [mbind option_bind].
  change (hasTimeout twoWithdraw) with true in H3. cbn [app] in H3.
  split; [exact H3|]. split; [exact Hct|].
  vm_compute in H3. injection H3 as <-. vm_compute. reflexivity.
Defined.

(** * Further properties of the code *)

(** ** The two variants, side by side *)

(** The test the 1000ms variant writes inline,
    [counter.k === counter.registered], against [isRequestCounterMax]: they
    differ on a counter whose [registered] is 0, and agree on any counter
    just after one of its fields was incremented. *)
Lemma counterEquals_isMax k cnt :
  k ≠ Registered →
  (field k (bump k cnt) =? registered (bump k cnt)) = isMax k (bump k cnt).
Proof.
  intros Hk. unfold isMax. destruct k; [done|..]; cbn [bump field registered aborted processed].
  - destruct (Nat.eqb_spec (registered cnt) 0) as [->|?]; [by apply Nat.eqb_neq; lia|].
    apply Nat.eqb_sym.
  - destruct (Nat.eqb_spec (registered cnt) 0) as [->|?]; [by apply Nat.eqb_neq; lia|].
    apply Nat.eqb_sym.
Qed.

Lemma V1000_onBatchFetchThen_V500 b c b' r st :
  V1000.onBatchFetchThen b c b' r st = V500.onBatchFetchThen b c b' r st.
Proof.
  unfold V1000.onBatchFetchThen, V500.onBatchFetchThen.
  destruct (detail b' r b); [|done].
  unfold V1000.updateCounter, V500.incrementRequestCounter, V1000.counterEquals,
    V500.isRequestCounterMax, V1000.unegisterRequest, V500.unegisterRequest.
  destruct_state st. destruct (cn !! b) as [cnt|] eqn:Hc; mrun; [|done].
  rewrite lookup_insert_eq. fold (isMax Processed (bump Processed cnt)).
  by rewrite (counterEquals_isMax Processed).
Qed.

Lemma V1000_onBatchFetchCatch_V500 b c b' e st :
  V1000.onBatchFetchCatch b c b' e st = V500.onBatchFetchCatch b c b' e st.
Proof.
  unfold V1000.onBatchFetchCatch, V500.onBatchFetchCatch.
  destruct (detail b' e b); [|done].
  unfold V1000.updateCounter, V500.incrementRequestCounter, V1000.counterEquals,
    V500.isRequestCounterMax, V1000.unegisterRequest, V500.unegisterRequest.
  destruct_state st. destruct (cn !! b) as [cnt|] eqn:Hc; mrun; [|done].
  rewrite lookup_insert_eq. fold (isMax Processed (bump Processed cnt)).
  by rewrite (counterEquals_isMax Processed).
Qed.

Lemma callListeners_ext registry handler handler' snapshot st :
  (∀ c st', handler c st' = handler' c st') →
  callListeners registry handler snapshot st = callListeners registry handler' snapshot st.
Proof.
  intros Hh. revert st. induction snapshot as [|c rest IH]; intros st; [done|].
  cbn [callListeners]. unfold runListener. by rewrite Hh, IH.
Qed.

Lemma V1000_dispatchEvent_V500 ev st :
  V1000.dispatchEvent ev st = V500.dispatchEvent ev st.
Proof.
  unfold V1000.dispatchEvent, V500.dispatchEvent. destruct ev as [b r|b e].
  - apply callListeners_ext. intros c st'.
    unfold V1000.listenerThen, V500.listenerThen, bind, gets.
    destruct (callers st' !! c); [apply V1000_onBatchFetchThen_V500|done].
  - apply callListeners_ext. intros c st'.
    unfold V1000.listenerCatch, V500.listenerCatch, bind, gets.
    destruct (callers st' !! c); [apply V1000_onBatchFetchCatch_V500|done].
Qed.

Lemma V1000_step_resolve hash hash' fid r st :
  V1000.step hash (EvFetchResolve fid r) st = V500.step hash' (EvFetchResolve fid r) st.
Proof.
  cbn [V1000.step V500.step].
  destruct (fetches st !! fid) as [f|]; [|done].
  destruct (f_done f); [done|]. destruct (fetchAborted f st); [done|].
  unfold V1000.fetchFulfilled, V500.fetchFulfilled.
  destruct (f_cont f); [|done].
  unfold V1000.dispatchRequest_then, V500.dispatchRequest_then.
  by rewrite V1000_dispatchEvent_V500.
Qed.

Lemma V1000_step_reject hash hash' fid e st :
  V1000.step hash (EvFetchReject fid e) st = V500.step hash' (EvFetchReject fid e) st.
Proof.
  cbn [V1000.step V500.step].
  destruct (fetches st !! fid) as [f|]; [|done].
  destruct (f_done f); [done|].
  assert (V1000.fetchRejected f e (markDone fid st)
          = V500.fetchRejected f e (markDone fid st)) as ->; [|done].
  unfold V1000.fetchRejected, V500.fetchRejected.
  destruct (f_cont f); [|done].
  unfold V1000.dispatchRequest_catch, V500.dispatchRequest_catch.
  case_decide; [done|]. by rewrite V1000_dispatchEvent_V500.
Qed.

(** X1: apart from calls and aborts the two variants take the same turns:
    time passing, a timer running ([dispatchRequest]), and a fetch
    completing with a response or an error (the [.then] and [.catch]
    callbacks and the window listeners they reach) leave the same state in
    both, whatever the state and the signature function, although the
    1000ms variant writes the counter tests inline. *)
Theorem variants_agree_off_calls_and_aborts
    (hash hash' : string → string → list (string * string) → string) st :
  (∀ dt, V1000.step hash (EvAdvance dt) st = V500.step hash' (EvAdvance dt) st)
  ∧ (∀ tid, V1000.step hash (EvTimeout tid) st = V500.step hash' (EvTimeout tid) st)
  ∧ (∀ fid r, V1000.step hash (EvFetchResolve fid r) st
              = V500.step hash' (EvFetchResolve fid r) st)
  ∧ (∀ fid e, V1000.step hash (EvFetchReject fid e) st
              = V500.step hash' (EvFetchReject fid e) st).
Proof.
  split; [done|]. split; [done|]. split.
  - intros fid r. apply V1000_step_resolve.
  - intros fid e. apply V1000_step_reject.
Qed.

(** ** Gathering the calls of a batch in the 1000ms variant *)

Lemma V1000_run_app hash evs1 evs2 st :
  V1000.run hash (evs1 ++ evs2) st = V1000.run hash evs1 st ≫= V1000.run hash evs2.
Proof.
  revert st. induction evs1 as [|ev evs1 IH]; intros st; [done|].
  cbn [app V1000.run]. destruct (V1000.step hash ev st); [apply IH|done].
Qed.

(** The gathering of a batch under any signature [b] and any delay. *)
Lemma gathered_nil b u other st : Gathered b u other st [] st.
Proof. unfold Gathered. cbn [abortEntries]. by rewrite app_nil_r. Qed.

Lemma gathered_tick b u other st0 sigs st dt :
  Gathered b u other st0 sigs st →
  Gathered b u other st0 sigs (set_clock (λ t, t + dt) st).
Proof.
  intros (Ha & Hu & Hb). split; [done|]. split; [done|].
  destruct sigs as [|s sigs].
  - rewrite <- Hb. by destruct st.
  - destruct Hb as (tid & due & Hb). exists tid, due.
    by eapply Batch_ext.
Qed.

Lemma gathered_join d b u other st0 sigs st o :
  quiescent b st0 →
  otherOptions o = other →
  Gathered b u other st0 sigs st →
  Gathered b u other st0 (sigs ++ [signal o]) (joinedState d b u o st).
Proof.
  intros Hq Ho (Ha & Hu & Hb). split; [|split].
  - cbn [joinedState abortListeners]. rewrite Ha, abortEntries_app, <- app_assoc.
    f_equal. f_equal. cbn [abortEntries]. rewrite app_nil_r.
    destruct sigs as [|s sigs].
    + assert (callers st = callers st0) as -> by
        (change (callers (set_clock (λ _, 0) st) = callers (set_clock (λ _, 0) st0));
         by rewrite Hb).
      cbn [length]. by rewrite Nat.add_0_r.
    + destruct Hb as (tid & due & Hb). by rewrite (batch_len _ _ _ _ _ _ _ _ Hb).
  - done.
  - destruct (sigs ++ [signal o]) eqn:Hne; [by destruct sigs|]. rewrite <- Hne. clear Hne.
    exists (nextTimer st), (clock st + d).
    destruct sigs as [|s sigs].
    + assert (Hst : ∀ {A} (f : State → A),
                (∀ x, f (set_clock (λ _, 0) x) = f x) → f st = f st0).
      { intros A f Hf. by rewrite <- (Hf st), <- (Hf st0), Hb. }
      destruct Hq as [Hqp Hqc Hqd Hqs Hqt Hqk].
      assert (callers st = callers st0) as Hcs by (by apply (Hst _ callers)).
      split; cbn [joinedState callers thenListeners catchListeners requestCounter
                  requestPayload requestSignals requestDebounce timers fetches
                  controllers uncaught events app length].
      * rewrite length_app, Hcs. done.
      * intros c Hc. rewrite Hcs. by rewrite lookup_app_l by lia.
      * intros i s Hi. destruct i; [|done]. cbn in Hi. injection Hi as <-.
        rewrite Nat.add_0_r, lookup_empty, <- Hcs.
        rewrite lookup_app_r by lia. by rewrite Nat.sub_diag.
      * rewrite filter_none_empty, (Hst _ thenListeners), Hcs; done.
      * rewrite filter_none_empty, (Hst _ catchListeners), Hcs; done.
      * rewrite lookup_insert_eq, (Hst _ requestCounter), Hqc by done.
        by rewrite map_size_empty.
      * rewrite (Hst _ requestPayload), Hqp, lookup_insert_eq, Ho by done. done.
      * rewrite (Hst _ requestSignals), lookup_insert_eq, lookup_insert_eq by done.
        rewrite (Hst _ fetches), (Hst _ controllers) by done. done.
      * by apply (Hst _ uncaught).
      * by apply (Hst _ events).
    + destruct Hb as (tid & due & [Hlen Hold Hnew Hthen Hcatch Hcnt Hpay Hph Hunc Hev]).
      destruct Hph as (Hs & Hd & Htm & Hf & Hct).
      set (sigs' := s :: sigs) in *.
      split; cbn [joinedState callers thenListeners catchListeners requestCounter
                  requestPayload requestSignals requestDebounce timers fetches
                  controllers uncaught events].
      * rewrite !length_app, Hlen. cbn [length]. lia.
      * intros c Hc. rewrite lookup_app_l by lia. by apply Hold.
      * intros i s' Hi. rewrite lookup_empty.
        destruct (decide (i < length sigs')) as [Hlt|Hge].
        -- rewrite lookup_app_l in Hi by done. rewrite lookup_app_l by lia.
           rewrite (Hnew _ _ Hi). by rewrite lookup_empty.
        -- rewrite lookup_app_r in Hi by lia.
           destruct (i - length sigs') eqn:Hdiff; [|by destruct n].
           cbn in Hi. injection Hi as <-.
           rewrite lookup_app_r by lia.
           replace (length (callers st0) + i - length (callers st)) with 0 by lia.
           done.
      * rewrite Hthen, Hlen, length_app, seq_app, !filter_none_empty, <- app_assoc.
        done.
      * rewrite Hcatch, Hlen, length_app, seq_app, !filter_none_empty, <- app_assoc.
        done.
      * rewrite lookup_insert_eq, Hcnt, length_app. cbn. by rewrite map_size_empty.
      * by rewrite Hpay.
      * rewrite !lookup_insert_eq. done.
      * done.
      * done.
Qed.

Lemma gathered_signals b u other st0 sigs st :
  quiescent b st0 → Gathered b u other st0 sigs st → requestSignals st !! b = None.
Proof.
  intros Hq (_ & _ & Hb). destruct sigs.
  - replace (requestSignals st) with (requestSignals st0); [apply Hq|].
    change (requestSignals (set_clock (λ _, 0) st0) = requestSignals (set_clock (λ _, 0) st)).
    by rewrite Hb.
  - destruct Hb as (tid & due & Hb). apply (batch_phase _ _ _ _ _ _ _ _ Hb).
Qed.

Lemma V1000_gathered_run hash u other st0 :
  quiescent (hash u "options" other) st0 → ∀ evs,
  Forall (isJoin u other) evs →
  ∃ st, V1000.run hash evs st0 = Some st
        ∧ Gathered (hash u "options" other) u other st0 (joinSignals evs) st.
Proof.
  intros Hq evs. induction evs as [|ev evs IH] using rev_ind; intros Hevs.
  { exists st0. split; [done|]. apply gathered_nil. }
  apply Forall_app in Hevs as [Hevs Hev]. apply Forall_inv in Hev.
  destruct (IH Hevs) as (st & Hrun & Hg).
  rewrite V1000_run_app, Hrun, joinSignals_app. cbn [mbind option_bind V1000.run].
  destruct ev as [u' o|dt|?|? ?|? ?|? ?]; try done.
  - destruct Hev as [-> Ho]. cbn [V1000.step].
    pose proof (gathered_signals _ _ _ _ _ _ Hq Hg) as Hs. rewrite <- Ho in Hs.
    rewrite (V1000_batchFetch_join hash u o st Hs). cbn [snd].
    eexists. split; [done|]. cbn [joinSignals omap]. rewrite Ho.
    by apply gathered_join.
  - cbn [V1000.step]. eexists. split; [done|].
    cbn [joinSignals omap]. rewrite app_nil_r. by apply gathered_tick.
Qed.

Lemma V1000_run_timeout_outcome hash hash' dt tid fid out st :
  V1000.run hash [EvAdvance dt; EvTimeout tid; completion fid out] st
  = V500.run hash' [EvAdvance dt; EvTimeout tid; completion fid out] st.
Proof.
  cbn [V1000.run V500.run].
  change (V1000.step hash (EvAdvance dt) st) with (V500.step hash' (EvAdvance dt) st).
  destruct (V500.step hash' (EvAdvance dt) st) as [st1|]; [|done].
  change (V1000.step hash (EvTimeout tid) st1) with (V500.step hash' (EvTimeout tid) st1).
  destruct (V500.step hash' (EvTimeout tid) st1) as [st2|]; [|done].
  destruct out; cbn [completion];
    [by rewrite (V1000_step_resolve hash hash')|by rewrite (V1000_step_reject hash hash')].
Qed.

(** ** Every caller of a batch withdraws *)

Section WithdrawSome.
Variables (b u : string) (other : list (string * string)) (st0 : State).
Hypothesis Hq : quiescent b st0.

(** The abort listeners [S] of some callers run while another caller, not
    among them, has not withdrawn. *)
Lemma withdraw_some sigs ph s e (S : list (nat * nat)) : ∀ K st,
  Batch b u other st0 sigs K ph st →
  userAborted st !! s = Some e →
  (∀ c, is_Some (K !! c) → length (callers st0) ≤ c < length (callers st0) + length sigs) →
  (∀ p, p ∈ S → ∃ i, p.2 = length (callers st0) + i
                     ∧ sigs !! i = Some (Some s) ∧ K !! p.2 = None) →
  NoDup S.*2 →
  (∃ i0, i0 < length sigs ∧ K !! (length (callers st0) + i0) = None
         ∧ length (callers st0) + i0 ∉ S.*2) →
  ∃ K', Batch b u other st0 sigs K' ph
          (foldl (λ acc p, runListener (V500.listenerAbort s p.2) acc) st S)
        ∧ (∀ c, K' !! c = if decide (c ∈ S.*2) then Some e else K !! c)
        ∧ userAborted (foldl (λ acc p, runListener (V500.listenerAbort s p.2) acc) st S)
          = userAborted st
        ∧ abortListeners (foldl (λ acc p, runListener (V500.listenerAbort s p.2) acc) st S)
          = abortListeners st
        ∧ clock (foldl (λ acc p, runListener (V500.listenerAbort s p.2) acc) st S)
          = clock st.
Proof.
  induction S as [|[s' c] S IH]; intros K st HB Hua Hdom HS Hnd Hlive.
  { exists K. cbn [foldl fmap list_fmap]. split; [done|]. split; [|done].
    intros c. by rewrite decide_False by apply not_elem_of_nil. }
  cbn [foldl snd]. cbn [fmap list_fmap snd] in Hnd, Hlive.
  apply NoDup_cons in Hnd as [HcS Hnd].
  destruct (HS (s', c)) as (i & Hc & Hi & HKc); [apply elem_of_cons; by left|].
  cbn [snd] in Hc, HKc. subst c.
  destruct Hlive as (i0 & Hi0 & HK0 & Hout).
  apply not_elem_of_cons in Hout as [Hne Hout].
  assert (size K + 1 < length sigs) as Hsz.
  { assert (size (<[length (callers st0) + i := e]> K) < length sigs) as Hlt;
      [|rewrite map_size_insert_None in Hlt by done; lia].
    apply (size_lt_range _ (length (callers st0)) _ i0).
    - intros c [x Hx]. apply lookup_insert_Some in Hx as [[<- _]|[_ Hx]].
      + apply lookup_lt_Some in Hi. lia.
      + apply Hdom. by exists x.
    - done.
    - rewrite lookup_insert_ne by congruence. done. }
  rewrite listenerAbort_eq, (batch_new _ _ _ _ _ _ _ _ HB _ _ Hi). cbn [c_batch].
  destruct (batch_withdraw b u other st0 Hq sigs K ph st i s e HB Hi HKc Hua Hsz)
    as (HB' & Hua' & Hal' & Hck').
  destruct (IH _ _ HB') as (K' & HB'' & HK' & Hua'' & Hal'' & Hck'').
  - by rewrite Hua'.
  - intros c [x Hx]. apply lookup_insert_Some in Hx as [[<- _]|[_ Hx]].
    + apply lookup_lt_Some in Hi. lia.
    + apply Hdom. by exists x.
  - intros p Hp. destruct (HS p) as (i' & Hp2 & Hi' & HKp); [apply elem_of_cons; by right|].
    exists i'. split; [done|]. split; [done|].
    rewrite lookup_insert_ne; [done|]. intros Heq. apply HcS.
    rewrite Heq. apply list_elem_of_fmap. by exists p.
  - done.
  - exists i0. split; [done|]. split; [|done].
    rewrite lookup_insert_ne by congruence. done.
  - exists K'. split; [done|]. split; [|by rewrite Hua'', Hal'', Hck''].
    intros c. rewrite HK'. cbn [fmap list_fmap snd].
    destruct (decide (c ∈ S.*2)) as [Hin|Hnin].
    + by rewrite decide_True by (apply elem_of_cons; by right).
    + rewrite lookup_insert. destruct (decide (length (callers st0) + i = c)) as [<-|Hne'].
      * by rewrite decide_True by (apply elem_of_cons; by left).
      * rewrite decide_False; [done|]. rewrite not_elem_of_cons. split; congruence.
Qed.

End WithdrawSome.

Lemma size_all_but (K : gmap nat Error) c0 n cl :
  (∀ c, is_Some (K !! c) → c0 ≤ c < c0 + n) →
  c0 ≤ cl < c0 + n → K !! cl = None →
  (∀ c, c0 ≤ c < c0 + n → c ≠ cl → is_Some (K !! c)) →
  size K + 1 = n.
Proof.
  intros Hdom Hcl Hnone Hall.
  rewrite <- (size_dom (D := gset nat)).
  assert (dom K = list_to_set (seq c0 n) ∖ {[cl]}) as ->.
  { apply set_eq. intros c. rewrite elem_of_dom, elem_of_difference,
      elem_of_list_to_set, elem_of_seq, elem_of_singleton. split.
    - intros Hc. split; [by apply Hdom|]. intros ->. rewrite Hnone in Hc. by destruct Hc.
    - intros [Hr Hne]. by apply Hall. }
  rewrite size_difference.
  2: { intros c ->%elem_of_singleton. apply elem_of_list_to_set, elem_of_seq. lia. }
  rewrite size_singleton, size_list_to_set, length_seq by apply NoDup_seq.
  lia.
Qed.

Lemma isMax_aborted_last cnt :
  registered cnt = aborted cnt + 1 → isMax Aborted (bump Aborted cnt) = true.
Proof.
  intros Heq. unfold isMax. cbn [bump field registered aborted].
  destruct (Nat.eqb_spec (registered cnt) 0); [lia|]. by apply Nat.eqb_eq.
Qed.

Lemma filter_only (K : gmap nat Error) c0 n cl :
  c0 ≤ cl < c0 + n → K !! cl = None →
  (∀ c, c0 ≤ c < c0 + n → c ≠ cl → is_Some (K !! c)) →
  remove cl (filter (λ c, K !! c = None) (seq c0 n)) = [].
Proof.
  intros Hcl Hnone Hall. unfold remove. rewrite list_filter_filter.
  apply length_zero_iff_nil.
  destruct (filter _ (seq c0 n)) as [|c l] eqn:Hf; [done|].
  assert (c ∈ filter (λ x, x ≠ cl ∧ K !! x = None) (seq c0 n)) as Hin
    by (rewrite Hf; apply elem_of_cons; by left).
  apply list_elem_of_filter in Hin as [[Hne HK] Hin%elem_of_seq].
  destruct (Hall c Hin Hne) as [x Hx]. congruence.
Qed.

Section WithdrawLast.
Variables (b u : string) (other : list (string * string)) (st0 : State).
Hypothesis Hq : quiescent b st0.

(** The last caller left withdraws: the batch is cancelled as a whole. *)
Lemma batch_withdraw_last sigs K ph st i s e :
  Batch b u other st0 sigs K ph st →
  sigs !! i = Some (Some s) →
  K !! (length (callers st0) + i) = None →
  userAborted st !! s = Some e →
  (∀ c, is_Some (K !! c) → length (callers st0) ≤ c < length (callers st0) + length sigs) →
  (∀ c, length (callers st0) ≤ c < length (callers st0) + length sigs →
        c ≠ length (callers st0) + i → is_Some (K !! c)) →
  (requestPayload (withdrawn b s (length (callers st0) + i) st) !! b = None
   ∧ requestCounter (withdrawn b s (length (callers st0) + i) st) !! b = None
   ∧ requestDebounce (withdrawn b s (length (callers st0) + i) st) !! b = None
   ∧ requestSignals (withdrawn b s (length (callers st0) + i) st) !! b = None)
  ∧ timers (withdrawn b s (length (callers st0) + i) st) = delete (tidOf ph) (timers st)
  ∧ fetches (withdrawn b s (length (callers st0) + i) st) = fetches st
  ∧ controllers (withdrawn b s (length (callers st0) + i) st) =
      match ph with
      | InFlight _ => <[length (controllers st0) := true]> (controllers st)
      | Debouncing _ _ => controllers st
      end
  ∧ callers (withdrawn b s (length (callers st0) + i) st) =
      alter (settle (Reject e)) (length (callers st0) + i) (callers st)
  ∧ thenListeners (withdrawn b s (length (callers st0) + i) st) = thenListeners st0
  ∧ catchListeners (withdrawn b s (length (callers st0) + i) st) = catchListeners st0
  ∧ uncaught (withdrawn b s (length (callers st0) + i) st) = uncaught st0
  ∧ events (withdrawn b s (length (callers st0) + i) st) = events st0
  ∧ clock (withdrawn b s (length (callers st0) + i) st) = clock st.
Proof.
  intros [Hlen Hold Hnew Hthen Hcatch Hcnt Hpay Hph Hunc Hev] Hi HK Hua Hdom Hall.
  set (c := length (callers st0) + i) in *.
  assert (length (callers st0) ≤ c < length (callers st0) + length sigs) as Hc
    by (apply lookup_lt_Some in Hi; unfold c; lia).
  pose proof (size_all_but K _ _ c Hdom Hc HK Hall) as Hsz.
  unfold withdrawn. rewrite Hcnt, Hua.
  rewrite isMax_aborted_last by (cbn; lia).
  assert (requestDebounce st !! b = Some (tidOf ph)) as -> by (by destruct ph; apply Hph).
  assert (Hrem : ∀ l, (∀ x, x ∈ l → x < length (callers st0)) →
            remove c (l ++ filter (λ c, K !! c = None)
                              (seq (length (callers st0)) (length sigs))) = l).
  { intros l Hl. unfold remove at 1. rewrite filter_app.
    fold (remove c l).
    fold (remove c (filter (λ c, K !! c = None) (seq (length (callers st0)) (length sigs)))).
    rewrite filter_only by done. rewrite app_nil_r.
    apply remove_old. intros x Hx. apply Hl in Hx. lia. }
  cbn zeta. unfold retired.
  destruct ph as [tid due|tid]; destruct Hph as (Hs & Hd & Htm & Hf & Hct);
    rewrite Hs; unfold id; mproj; rewrite !lookup_delete_eq;
    (repeat split; try done;
     [rewrite Hthen; apply Hrem, (q_then _ _ Hq)
     |rewrite Hcatch; apply Hrem, (q_catch _ _ Hq)]).
Qed.

End WithdrawLast.

Lemma snapshot_entries (l0 entries : list (nat * nat)) (A : gmap nat Error) s :
  (∀ c, (s, c) ∉ l0) → A !! s = None →
  filter (λ p, p.1 = s) (l0 ++ filter (λ p, A !! p.1 = None) entries)
  = filter (λ p, p.1 = s) entries.
Proof.
  intros Hfresh HA.
  assert (filter (λ p, p.1 = s) l0 = []) as Hnil.
  { destruct (filter _ l0) as [|[s' c] l] eqn:Hf; [done|].
    assert ((s', c) ∈ filter (λ p, p.1 = s) l0) as Hin
      by (rewrite Hf; apply elem_of_cons; by left).
    apply list_elem_of_filter in Hin as [Heq Hin]. cbn in Heq. subst s'.
    by apply Hfresh in Hin. }
  rewrite filter_app, Hnil, app_nil_l.
  rewrite list_filter_filter. apply list_filter_iff.
  intros [s' c]; cbn. split; [by intros [? _]|]. intros ->. by split.
Qed.

Section CancelLast.
Variables (b u : string) (other : list (string * string)) (st0 : State).
Hypothesis Hq : quiescent b st0.

(** The signal of the callers still waiting is aborted, every other caller
    having withdrawn before. *)
Lemma serving_abort_last sigs A ph st s e i0 :
  Serving b u other st0 sigs A ph st →
  A !! s = None →
  userAborted st0 !! s = None →
  (∀ c, (s, c) ∉ abortListeners st0) →
  sigs !! i0 = Some (Some s) →
  (∀ i s', sigs !! i = Some s' → s' ≠ Some s → is_Some (s' ≫= (A !!.))) →
  (requestPayload (V500.fireAbort s (set_userAborted (insert s e) st)) !! b = None
   ∧ requestCounter (V500.fireAbort s (set_userAborted (insert s e) st)) !! b = None
   ∧ requestDebounce (V500.fireAbort s (set_userAborted (insert s e) st)) !! b = None
   ∧ requestSignals (V500.fireAbort s (set_userAborted (insert s e) st)) !! b = None)
  ∧ timers (V500.fireAbort s (set_userAborted (insert s e) st)) !! tidOf ph = None
  ∧ fetches (V500.fireAbort s (set_userAborted (insert s e) st)) = fetches st
  ∧ controllers (V500.fireAbort s (set_userAborted (insert s e) st)) =
      match ph with
      | InFlight _ => <[length (controllers st0) := true]> (controllers st)
      | Debouncing _ _ => controllers st
      end
  ∧ (∀ i s', sigs !! i = Some s' →
       callers (V500.fireAbort s (set_userAborted (insert s e) st))
         !! (length (callers st0) + i) =
         Some {| c_batch := b; c_signal := s';
                 c_settled := match s' ≫= (<[s:=e]> A !!.) with
                              | Some r => [Reject r]
                              | None => []
                              end |})
  ∧ thenListeners (V500.fireAbort s (set_userAborted (insert s e) st)) = thenListeners st0
  ∧ catchListeners (V500.fireAbort s (set_userAborted (insert s e) st)) = catchListeners st0
  ∧ uncaught (V500.fireAbort s (set_userAborted (insert s e) st)) = uncaught st0
  ∧ events (V500.fireAbort s (set_userAborted (insert s e) st)) = events st0
  ∧ clock (V500.fireAbort s (set_userAborted (insert s e) st)) = clock st
  ∧ (∀ c, c < length (callers st0) →
          callers (V500.fireAbort s (set_userAborted (insert s e) st)) !! c
          = callers st0 !! c)
  ∧ length (callers (V500.fireAbort s (set_userAborted (insert s e) st)))
    = length (callers st0) + length sigs.
Proof.
  intros (K & HB & [HK Hdom] & Hal & Hua) HA Hua0 Hfresh Hi0 Hothers.
  set (entries := abortEntries (length (callers st0)) sigs) in *.
  unfold V500.fireAbort. mproj.
  rewrite Hal, snapshot_entries by done.
  set (st1 := set_abortListeners _ _).
  assert (Batch b u other st0 sigs K ph st1) as HB1 by (by eapply Batch_ext).
  assert (Hmem : ∀ c, (s, c) ∈ filter (λ p, p.1 = s) entries
                      ↔ ∃ i, c = (length (callers st0)) + i ∧ sigs !! i = Some (Some s)).
  { intros c. rewrite list_elem_of_filter. unfold entries.
    rewrite elem_of_abortEntries. cbn. tauto. }
  assert (Hfst : ∀ p, p ∈ filter (λ p, p.1 = s) entries → p = (s, p.2)).
  { intros [s' c] [Heq _]%list_elem_of_filter. cbn in *. by subst. }
  assert (NoDup (filter (λ p, p.1 = s) entries).*2) as Hnd
    by apply NoDup_fmap_filter, NoDup_abortEntries.
  assert (∃ S' pl, filter (λ p, p.1 = s) entries = S' ++ [pl]) as (S' & pl & HS).
  { destruct (filter (λ p, p.1 = s) entries) as [|p l] eqn:Hf using rev_ind.
    - assert ((s, (length (callers st0)) + i0) ∈ @nil (nat * nat)) as Hin by (apply Hmem; by exists i0).
      by apply elem_of_nil in Hin.
    - by exists l, p. }
  rewrite HS in Hnd, Hmem, Hfst. rewrite HS, foldl_app. cbn [foldl].
  rewrite fmap_app in Hnd. apply NoDup_app in Hnd as (Hnd & Hdisj & _).
  assert (pl = (s, pl.2)) as Hpl by (apply Hfst, elem_of_app; right; by apply list_elem_of_singleton).
  destruct (proj1 (Hmem pl.2)) as (il & Hcl & Hil).
  { rewrite <- Hpl. apply elem_of_app. right. by apply list_elem_of_singleton. }
  assert (pl.2 ∉ S'.*2) as HclS.
  { intros Hin. apply (Hdisj _ Hin). cbn. by apply list_elem_of_singleton. }
  assert (Hil_lt : il < length sigs) by (by apply lookup_lt_Some in Hil).
  destruct (withdraw_some b u other st0 Hq sigs ph s e S' K st1 HB1)
    as (K' & HB' & HK' & Hua' & Hal' & Hck').
  { unfold st1. mproj. apply lookup_insert_eq. }
  { done. }
  { intros p Hp. destruct (proj1 (Hmem p.2)) as (i & Hc & Hi).
    - rewrite <- (Hfst p) by (apply elem_of_app; by left). apply elem_of_app; by left.
    - exists i. split; [done|]. split; [done|]. rewrite Hc, (HK _ _ Hi). done. }
  { done. }
  { exists il. split; [done|]. split; [by rewrite (HK _ _ Hil)|by rewrite <- Hcl]. }
  set (st2 := foldl _ st1 S') in *.
  rewrite listenerAbort_eq, Hcl, (batch_new _ _ _ _ _ _ _ _ HB' _ _ Hil). cbn [c_batch].
  assert (HK'l : K' !! ((length (callers st0)) + il) = None).
  { rewrite HK', decide_False by (by rewrite <- Hcl). by rewrite (HK _ _ Hil). }
  assert (HinS : ∀ i, sigs !! i = Some (Some s) → i ≠ il → (length (callers st0)) + i ∈ S'.*2).
  { intros i Hi Hne. assert ((s, (length (callers st0)) + i) ∈ S' ++ [pl]) as Hin by (apply Hmem; by exists i).
    apply elem_of_app in Hin as [Hin|Hin%list_elem_of_singleton].
    - apply list_elem_of_fmap. by exists (s, (length (callers st0)) + i).
    - rewrite <- Hin in Hcl. cbn in Hcl. lia. }
  destruct (batch_withdraw_last b u other st0 Hq sigs K' ph st2 il s e HB' Hil HK'l)
    as (Htab & Htm & Hf & Hct & Hcs & Hth & Hca & Hun & Hev & Hck).
  { rewrite Hua'. unfold st1. mproj. apply lookup_insert_eq. }
  { intros c [x Hx]. rewrite HK' in Hx. case_decide as Hc.
    - apply list_elem_of_fmap in Hc as (p & -> & Hp).
      destruct (proj1 (Hmem p.2)) as (i & -> & Hi).
      + rewrite <- (Hfst p) by (apply elem_of_app; by left). apply elem_of_app; by left.
      + apply lookup_lt_Some in Hi. lia.
    - apply Hdom. by exists x. }
  { intros c Hc Hne. rewrite HK'. case_decide as HcS; [done|].
    assert (∃ i, c = length (callers st0) + i ∧ i < length sigs) as (i & -> & Hi_lt)
      by (exists (c - length (callers st0)); lia).
    destruct (lookup_lt_is_Some_2 sigs i Hi_lt) as [s' Hi].
    rewrite (HK _ _ Hi). apply (Hothers _ _ Hi). intros ->.
    apply HcS, HinS; [done|]. by intros ->. }
  assert (Hfr : fetches st2 = fetches st ∧ controllers st2 = controllers st).
  { pose proof (batch_phase _ _ _ _ _ _ _ _ HB') as H2.
    pose proof (batch_phase _ _ _ _ _ _ _ _ HB) as H1.
    destruct ph; destruct H1 as (_ & _ & _ & -> & ->), H2 as (_ & _ & _ & -> & ->); done. }
  destruct Hfr as [Hf2 Hct2].
  split; [done|]. split; [by rewrite Htm, lookup_delete_eq|].
  split; [by rewrite Hf|]. split; [by rewrite Hct, Hct2|].
  split; [|do 4 (split; [done|]); split; [by rewrite Hck, Hck'|]; split].
  2: { intros c Hc. rewrite Hcs, list_lookup_alter_ne by lia.
       by apply (batch_old _ _ _ _ _ _ _ _ HB'). }
  2: { rewrite Hcs, length_alter. apply (batch_len _ _ _ _ _ _ _ _ HB'). }
  intros i s' Hi. rewrite Hcs, list_lookup_alter.
  destruct (decide (length (callers st0) + il = length (callers st0) + i)) as [Heq|Hne].
  - assert (i = il) as -> by lia. assert (s' = Some s) as -> by congruence.
    rewrite (batch_new _ _ _ _ _ _ _ _ HB' _ _ Hil), HK'l.
    cbn. by rewrite lookup_insert_eq.
  - rewrite (batch_new _ _ _ _ _ _ _ _ HB' _ _ Hi), HK'.
    destruct (decide (s' = Some s)) as [->|Hs'].
    + rewrite decide_True by (apply HinS; [done|lia]). cbn. by rewrite lookup_insert_eq.
    + rewrite decide_False.
      2: { intros (p & Hp2 & Hp)%list_elem_of_fmap.
           destruct (proj1 (Hmem p.2)) as (i' & Hc' & Hi').
           - rewrite <- (Hfst p) by (apply elem_of_app; by left). apply elem_of_app; by left.
           - assert (i' = i) as -> by lia. congruence. }
      rewrite (HK _ _ Hi). destruct s' as [s'|]; [|done]. cbn.
      rewrite lookup_insert_ne by congruence. done.
Qed.

End CancelLast.

(** The state of a batch once its callers have joined and the events of its
    service have happened, one caller at least being left. *)
Lemma serving_after hash u other joins evs st st1 st2 tid i0 s0 :
  quiescent (hash u "otherOptions" other) st →
  Forall (isJoin u other) joins →
  V500.run hash joins st = Some st1 →
  requestDebounce st1 !! hash u "otherOptions" other = Some tid →
  Forall (isService st tid) evs →
  joinSignals joins !! i0 = Some s0 →
  (∀ s e, EvAbort s e ∈ evs → s0 ≠ Some s) →
  V500.run hash evs st1 = Some st2 →
  ∃ due,
    timers st1 !! tid = Some (due, hash u "otherOptions" other)
    ∧ Serving (hash u "otherOptions" other) u other st (joinSignals joins)
        (abortsOf ∅ evs) (phaseAfter (Debouncing tid due) evs) st2
    ∧ s0 ≫= (abortsOf ∅ evs !!.) = None.
Proof.
  intros Hq Hjoins Hrun1 Hd Hevs Hi0 Hlive Hrun2.
  set (b := hash u "otherOptions" other) in *.
  destruct (gathered_run hash u other st Hq joins Hjoins) as (st1' & Hrun1' & Hg).
  assert (st1' = st1) as -> by congruence. fold b in Hg.
  destruct (gathered_serving b u other st (joinSignals joins) st1) as (tid' & due & HS);
    [by destruct (joinSignals joins)|done|].
  assert (tid' = tid) as ->.
  { destruct HS as (K & HB & _).
    destruct (batch_phase _ _ _ _ _ _ _ _ HB) as (_ & Hd' & _). congruence. }
  exists due. split.
  { destruct HS as (K & HB & _). apply (batch_phase _ _ _ _ _ _ _ _ HB). }
  apply (serving_run hash b u other st Hq (joinSignals joins) tid i0 s0 Hi0
           evs st1 ∅ (Debouncing tid due) st2 HS eq_refl
           (bind_lookup_empty s0) Hevs Hlive Hrun2).
Qed.

Lemma abortsOf_snoc A evs s e :
  abortsOf A evs !! s = None →
  abortsOf A (evs ++ [EvAbort s e]) = <[s := e]> (abortsOf A evs).
Proof.
  intros HA. unfold abortsOf. rewrite foldl_app. cbn [foldl recordAbort].
  fold (abortsOf A evs). by rewrite HA.
Qed.

Section FullCancellation.
Variable hash : string → string → list (string * string) → string.

(** X3: every caller of a batch withdraws before the timer has run (500ms
    variant), the signals being the callers' own: none of the signals
    aborted was aborted before the batch or carries the abort listener of a
    caller from before the batch.  The callers have joined a signature with
    nothing registered, any number of them sharing a signal; signals are
    aborted while time passes, until the callers still waiting all hold the
    signal [s]; then [s] is aborted.  The abort listener of the last of
    them clears the timer of the batch and deletes its four table entries:
    the timer can never run, no fetch and no controller was ever made,
    [reject] has been called exactly once on every caller's promise, with
    the reason of its own signal, no listener has thrown, and no window
    listener of the batch is left. *)
Theorem full_cancellation_before_dispatch u other joins evs st st1 st2 tid i0 s e :
  quiescent (hash u "otherOptions" other) st →
  Forall (isJoin u other) joins →
  V500.run hash joins st = Some st1 →
  requestDebounce st1 !! hash u "otherOptions" other = Some tid →
  Forall (isService st tid) evs →
  hasTimeout evs = false →
  V500.run hash evs st1 = Some st2 →
  joinSignals joins !! i0 = Some (Some s) →
  (∀ s' e', EvAbort s' e' ∈ evs → s' ≠ s) →
  userAborted st !! s = None →
  (∀ c, (s, c) ∉ abortListeners st) →
  (∀ i s', joinSignals joins !! i = Some s' → s' ≠ Some s →
           is_Some (s' ≫= (abortsOf ∅ evs !!.))) →
  ∃ st3,
    V500.step hash (EvAbort s e) st2 = Some st3
    ∧ timers st3 !! tid = None
    ∧ (∀ dt, V500.run hash [EvAdvance dt; EvTimeout tid] st3 = None)
    ∧ fetches st3 = fetches st
    ∧ controllers st3 = controllers st
    ∧ requestPayload st3 !! hash u "otherOptions" other = None
    ∧ requestCounter st3 !! hash u "otherOptions" other = None
    ∧ requestDebounce st3 !! hash u "otherOptions" other = None
    ∧ requestSignals st3 !! hash u "otherOptions" other = None
    ∧ (∀ i s', joinSignals joins !! i = Some s' →
         ∃ r, s' ≫= (abortsOf ∅ (evs ++ [EvAbort s e]) !!.) = Some r
              ∧ callers st3 !! (length (callers st) + i) =
                  Some {| c_batch := hash u "otherOptions" other; c_signal := s';
                          c_settled := [Reject r] |})
    ∧ thenListeners st3 = thenListeners st
    ∧ catchListeners st3 = catchListeners st
    ∧ uncaught st3 = uncaught st.
Proof.
  intros Hq Hjoins Hrun1 Hd Hevs Hto Hrun2 Hi0 Hlive Hua0 Hfresh Hothers.
  set (b := hash u "otherOptions" other) in *.
  destruct (serving_after hash u other joins evs st st1 st2 tid i0 (Some s)
              Hq Hjoins Hrun1 Hd Hevs Hi0) as (due & Htm1 & HS & HA); [|done|].
  { intros s' e' Hin Heq. injection Heq as ->. by apply (Hlive _ _ Hin). }
  fold b in HS. cbn in HA. set (A := abortsOf ∅ evs) in *.
  unfold phaseAfter in HS. rewrite Hto in HS.
  assert (userAborted st2 !! s = None) as Hua2.
  { destruct HS as (K & _ & _ & _ & ->). by apply lookup_union_None. }
  destruct (serving_abort_last b u other st Hq _ A _ st2 s e i0 HS HA Hua0 Hfresh Hi0 Hothers)
    as ((Hp & Hc & Hdb & Hsg) & Htm & Hf & Hct & Hcs & Hth & Hca & Hun & _ & _).
  cbn [tidOf] in Htm.
  eexists. split; [cbn [V500.step]; by rewrite Hua2|].
  destruct HS as (K & HB & _).
  destruct (batch_phase _ _ _ _ _ _ _ _ HB) as (_ & _ & _ & Hf2 & Hct2).
  split; [done|]. split.
  { intros dt. cbn [V500.run V500.step]. mproj. by rewrite Htm. }
  split; [by rewrite Hf|]. split; [by rewrite Hct|].
  do 4 (split; [done|]). split; [|done].
  intros i s' Hi. unfold A in HA. rewrite (abortsOf_snoc _ _ _ _ HA). fold A.
  rewrite (Hcs _ _ Hi).
  destruct (s' ≫= (<[s:=e]> A !!.)) as [r|] eqn:Hr; [by exists r|].
  exfalso. destruct (decide (s' = Some s)) as [->|Hne].
  - cbn in Hr. by rewrite lookup_insert_eq in Hr.
  - destruct (Hothers _ _ Hi Hne) as [r Hr']. destruct s' as [s'|]; [|done].
    cbn in Hr, Hr'. rewrite lookup_insert_ne in Hr by congruence. congruence.
Qed.

(** X4: every caller of a batch withdraws, the last of them while the fetch
    is in flight (500ms variant), the signals being the callers' own: none
    of the signals aborted was aborted before the batch or carries the abort
    listener of a caller from before the batch.  The abort listener of the
    last caller aborts the controller the fetch was started with and deletes
    the four table entries of the batch.  The fetch can then complete in one
    way only, by rejecting with the abort error, and that completion changes
    nothing but the fetch being done: no event is dispatched and no promise
    is touched, every caller keeping the one rejection it got from its own
    signal. *)
Theorem full_cancellation_in_flight u other joins evs st st1 st2 tid i0 s e :
  quiescent (hash u "otherOptions" other) st →
  Forall (isJoin u other) joins →
  V500.run hash joins st = Some st1 →
  requestDebounce st1 !! hash u "otherOptions" other = Some tid →
  Forall (isService st tid) evs →
  hasTimeout evs = true →
  V500.run hash evs st1 = Some st2 →
  joinSignals joins !! i0 = Some (Some s) →
  (∀ s' e', EvAbort s' e' ∈ evs → s' ≠ s) →
  userAborted st !! s = None →
  (∀ c, (s, c) ∉ abortListeners st) →
  (∀ i s', joinSignals joins !! i = Some s' → s' ≠ Some s →
           is_Some (s' ≫= (abortsOf ∅ evs !!.))) →
  ∃ st3,
    V500.step hash (EvAbort s e) st2 = Some st3
    ∧ controllers st3 = controllers st ++ [true]
    ∧ fetches st3 =
        fetches st ++
          [{| f_url := u; f_options := other;
              f_signal := Some (BatchSignal (length (controllers st)));
              f_cont := Broadcast (hash u "otherOptions" other);
              f_done := false |}]
    ∧ requestPayload st3 !! hash u "otherOptions" other = None
    ∧ requestCounter st3 !! hash u "otherOptions" other = None
    ∧ requestDebounce st3 !! hash u "otherOptions" other = None
    ∧ requestSignals st3 !! hash u "otherOptions" other = None
    ∧ (∀ i s', joinSignals joins !! i = Some s' →
         ∃ r, s' ≫= (abortsOf ∅ (evs ++ [EvAbort s e]) !!.) = Some r
              ∧ callers st3 !! (length (callers st) + i) =
                  Some {| c_batch := hash u "otherOptions" other; c_signal := s';
                          c_settled := [Reject r] |})
    ∧ (∀ r, V500.step hash (EvFetchResolve (length (fetches st)) r) st3 = None)
    ∧ (∀ e', e' ≠ abortError →
             V500.step hash (EvFetchReject (length (fetches st)) e') st3 = None)
    ∧ V500.step hash (EvFetchReject (length (fetches st)) abortError) st3
      = Some (markDone (length (fetches st)) st3).
Proof.
  intros Hq Hjoins Hrun1 Hd Hevs Hto Hrun2 Hi0 Hlive Hua0 Hfresh Hothers.
  set (b := hash u "otherOptions" other) in *.
  destruct (serving_after hash u other joins evs st st1 st2 tid i0 (Some s)
              Hq Hjoins Hrun1 Hd Hevs Hi0) as (due & Htm1 & HS & HA); [|done|].
  { intros s' e' Hin Heq. injection Heq as ->. by apply (Hlive _ _ Hin). }
  fold b in HS. cbn in HA. set (A := abortsOf ∅ evs) in *.
  unfold phaseAfter in HS. rewrite Hto in HS. cbn [tidOf] in HS.
  assert (userAborted st2 !! s = None) as Hua2.
  { destruct HS as (K & _ & _ & _ & ->). by apply lookup_union_None. }
  destruct (serving_abort_last b u other st Hq _ A _ st2 s e i0 HS HA Hua0 Hfresh Hi0 Hothers)
    as ((Hp & Hc & Hdb & Hsg) & Htm & Hf & Hct & Hcs & Hth & Hca & Hun & _ & _).
  eexists. split; [cbn [V500.step]; by rewrite Hua2|].
  destruct HS as (K & HB & _).
  destruct (batch_phase _ _ _ _ _ _ _ _ HB) as (_ & _ & _ & Hf2 & Hct2).
  rewrite Hf2 in Hf. rewrite Hct2 in Hct.
  assert (<[length (controllers st):=true]> (controllers st ++ [false])
          = controllers st ++ [true]) as Hins.
  { rewrite <- (Nat.add_0_r (length (controllers st))). by rewrite insert_app_r. }
  rewrite Hins in Hct.
  split; [done|]. split; [done|]. do 4 (split; [done|]). split.
  { intros i s' Hi. unfold A in HA. rewrite (abortsOf_snoc _ _ _ _ HA). fold A.
    rewrite (Hcs _ _ Hi).
    destruct (s' ≫= (<[s:=e]> A !!.)) as [r|] eqn:Hr; [by exists r|].
    exfalso. destruct (decide (s' = Some s)) as [->|Hne].
    - cbn in Hr. by rewrite lookup_insert_eq in Hr.
    - destruct (Hothers _ _ Hi Hne) as [r Hr']. destruct s' as [s'|]; [|done].
      cbn in Hr, Hr'. rewrite lookup_insert_ne in Hr by congruence. congruence. }
  set (st3 := V500.fireAbort s _) in *.
  assert (fetches st3 !! length (fetches st) = Some (batchFetchOf b u other st false))
    as Hl by (rewrite Hf; by apply list_lookup_middle).
  assert (fetchAborted (batchFetchOf b u other st false) st3 = Some abortError) as Hab.
  { unfold fetchAborted. cbn [batchFetchOf f_signal abortReason].
    rewrite Hct, list_lookup_middle; done. }
  split; [|split].
  - intros r. cbn [V500.step]. by rewrite Hl, Hab.
  - intros e' He'. cbn [V500.step]. rewrite Hl, Hab. cbn [batchFetchOf f_done].
    by rewrite decide_False.
  - cbn [V500.step]. rewrite Hl, Hab. cbn [batchFetchOf f_done].
    rewrite decide_True by done. done.
Qed.

End FullCancellation.

Lemma sharedCalls_others evs :
  abortsOf ∅ evs !! 8 = Some navigatedAway →
  ∀ i s', joinSignals sharedCalls !! i = Some s' → s' ≠ Some 7 →
          is_Some (s' ≫= (abortsOf ∅ evs !!.)).
Proof.
  intros H8 i s' Hi Hne.
  destruct i as [|[|[|i]]]; cbn in Hi; try discriminate;
    injection Hi as <-; first [done | cbn; by rewrite H8].
Qed.

(** Callers 0 and 2 share signal 7: once caller 1 has withdrawn, one abort of
    signal 7 cancels the batch before its timer runs. *)
Lemma full_cancellation_before_dispatch_witness :
  quiescent apiGet500 init
  ∧ Forall (isJoin "/api" [("method", "GET")]) sharedCalls
  ∧ Forall (isService init 3) oneWithdraws
  ∧ hasTimeout oneWithdraws = false
  ∧ ∃ st3,
      V500.run sampleHash (sharedCalls ++ oneWithdraws ++ [EvAbort 7 abortError]) init
        = Some st3
      ∧ timers st3 !! 3 = None
      ∧ fetches st3 = []
      ∧ map c_settled (callers st3) =
          [[Reject abortError]; [Reject navigatedAway]; [Reject abortError]].
Proof.
  assert (Hj : Forall (isJoin "/api" [("method", "GET")]) sharedCalls)
    by (repeat constructor).
  assert (Hs : Forall (isService init 3) oneWithdraws).
  { repeat constructor; intros c Hc; by apply elem_of_nil in Hc. }
  split; [apply quiescent_init|]. do 3 (split; [done|]).
  set (st1 := default init (V500.run sampleHash sharedCalls init)).
  set (st2 := default init (V500.run sampleHash oneWithdraws st1)).
  assert (H1 : V500.run sampleHash sharedCalls init = Some st1) by (vm_compute; reflexivity).
  assert (H2 : V500.run sampleHash oneWithdraws st1 = Some st2) by (vm_compute; reflexivity).
  assert (Hd : requestDebounce st1 !! sampleHash "/api" "otherOptions" [("method", "GET")]
               = Some 3) by (vm_compute; reflexivity).
  assert (Hi : joinSignals sharedCalls !! 0 = Some (Some 7)) by reflexivity.
  assert (Hlive : ∀ s' e', EvAbort s' e' ∈ oneWithdraws → s' ≠ 7).
  { intros s' e' Hin. unfold oneWithdraws in Hin.
    apply elem_of_cons in Hin as [Hin|Hin]; [by injection Hin as -> _|].
    apply list_elem_of_singleton in Hin. discriminate. }
  assert (H8 : abortsOf ∅ oneWithdraws !! 8 = Some navigatedAway)
    by (vm_compute; reflexivity).
  destruct (full_cancellation_before_dispatch sampleHash "/api" [("method", "GET")]
              sharedCalls oneWithdraws init st1 st2 3 0 7 abortError
              (quiescent_init _) Hj H1 Hd Hs eq_refl H2 Hi Hlive)
    as (st3 & H3 & Htm & _ & Hf & _ & _ & _ & _ & _ & _).
  { reflexivity. }
  { intros c Hc. by apply elem_of_nil in Hc. }
  { by apply sharedCalls_others. }
  exists st3. rewrite run_app, H1. cbn [mbind option_bind].
  rewrite run_app, H2. cbn [mbind option_bind V500.run]. rewrite H3.
  split; [done|]. split; [exact Htm|]. split; [exact Hf|].
  vm_compute in H3. injection H3 as <-. vm_compute. reflexivity.
Defined.

(** The same callers, the last abort coming while the fetch is in flight:
    the batch's controller is aborted and the abort error of the fetch is
    dropped. *)
Lemma full_cancellation_in_flight_witness :
  quiescent apiGet500 init
  ∧ Forall (isJoin "/api" [("method", "GET")]) sharedCalls
  ∧ Forall (isService init 3) oneWithdrawsThenTimer
  ∧ hasTimeout oneWithdrawsThenTimer = true
  ∧ ∃ st4,
      V500.run sampleHash
        (sharedCalls ++ oneWithdrawsThenTimer
           ++ [EvAbort 7 abortError; EvFetchReject 0 abortError]) init
        = Some st4
      ∧ controllers st4 = [true]
      ∧ events st4 = []
      ∧ map c_settled (callers st4) =
          [[Reject abortError]; [Reject navigatedAway]; [Reject abortError]].
Proof.
  assert (Hj : Forall (isJoin "/api" [("method", "GET")]) sharedCalls)
    by (repeat constructor).
  assert (Hs : Forall (isService init 3) oneWithdrawsThenTimer).
  { repeat constructor; intros c Hc; by apply elem_of_nil in Hc. }
  split; [apply quiescent_init|]. do 3 (split; [done|]).
  set (st1 := default init (V500.run sampleHash sharedCalls init)).
  set (st2 := default init (V500.run sampleHash oneWithdrawsThenTimer st1)).
  assert (H1 : V500.run sampleHash sharedCalls init = Some st1) by (vm_compute; reflexivity).
  assert (H2 : V500.run sampleHash oneWithdrawsThenTimer st1 = Some st2)
    by (vm_compute; reflexivity).
  assert (Hd : requestDebounce st1 !! sampleHash "/api" "otherOptions" [("method", "GET")]
               = Some 3) by (vm_compute; reflexivity).
  assert (Hi : joinSignals sharedCalls !! 0 = Some (Some 7)) by reflexivity.
  assert (Hlive : ∀ s' e', EvAbort s' e' ∈ oneWithdrawsThenTimer → s' ≠ 7).
  { intros s' e' Hin. unfold oneWithdrawsThenTimer in Hin.
    apply elem_of_cons in Hin as [Hin|Hin]; [by injection Hin as -> _|].
    apply elem_of_cons in Hin as [Hin|Hin]; [discriminate|].
    apply list_elem_of_singleton in Hin. discriminate. }
  assert (H8 : abortsOf ∅ oneWithdrawsThenTimer !! 8 = Some navigatedAway)
    by (vm_compute; reflexivity).
  destruct (full_cancellation_in_flight sampleHash "/api" [("method", "GET")]
              sharedCalls oneWithdrawsThenTimer init st1 st2 3 0 7 abortError
              (quiescent_init _) Hj H1 Hd Hs eq_refl H2 Hi Hlive)
    as (st3 & H3 & _ & _ & _ & _ & _ & _ & _ & _ & _ & H4).
  { reflexivity. }
  { intros c Hc. by apply elem_of_nil in Hc. }
  { by apply sharedCalls_others. }
  exists (markDone 0 st3). rewrite run_app, H1. cbn [mbind option_bind].
  rewrite run_app, H2. cbn [mbind option_bind V500.run]. rewrite H3.
  change (length (fetches init)) with 0 in H4. rewrite H4.
  split; [done|].
  vm_compute in H3. injection H3 as <-. repeat split; vm_compute; reflexivity.
Defined.

(** ** A signature is used again *)


Section Broadcasting.
Variable hash : string → string → list (string * string) → string.
Variables (b u : string) (other : list (string * string)) (st0 : State).
Hypothesis Hq : quiescent b st0.

(** The completion of the fetch of a batch, as a broadcast. *)
Lemma batch_broadcast sigs K tid st out :
  Batch b u other st0 sigs K (InFlight tid) st →
  broadcastable out →
  unheard b out st0 →
  V500.step hash (completion (length (fetches st0)) out) st =
    Some (V500.dispatchEvent (eventOf b out) (markDone (length (fetches st0)) st))
  ∧ Broadcasted (eventOf b out)
      (filter (λ c, K !! c = None) (seq (length (callers st0)) (length sigs)))
      {| registered := length sigs; aborted := size K; processed := 0 |}
      (set_events (λ l, l ++ [eventOf b out]) (markDone (length (fetches st0)) st))
      (V500.dispatchEvent (eventOf b out) (markDone (length (fetches st0)) st)).
Proof.
  intros HB Hout Hun0. split; [by eapply completion_step|].
  destruct HB as [Hlen Hold Hnew Hthen Hcatch Hcnt Hpay Hph Hunc Hev].
  set (c0 := length (callers st0)) in *.
  set (live := filter (λ c, K !! c = None) (seq c0 (length sigs))) in *.
  set (ev := eventOf b out).
  set (st4 := set_events (λ l, l ++ [ev]) (markDone (length (fetches st0)) st)).
  assert (batchOf ev = b) as Hbev by (by destruct out).
  assert (callers st4 = callers st) as Hcs4 by done.
  assert (∃ old, listenersOf ev st4 = old ++ live
                 ∧ ∀ c, c ∈ old → c < c0 ∧ isCallerOf b st0 c = false)
    as (old & Hls4 & Hold4).
  { destruct out; cbn [ev eventOf listenersOf].
    - exists (thenListeners st0). split; [done|].
      intros c Hc. split; [by apply (q_then _ _ Hq)|by apply (Hun0 c)].
    - exists (catchListeners st0). split; [done|].
      intros c Hc. split; [by apply (q_catch _ _ Hq)|by apply (Hun0 c)]. }
  assert (Hisold : ∀ c, c < c0 → isCallerOf b st4 c = isCallerOf b st0 c).
  { intros c Hc. unfold isCallerOf. by rewrite Hcs4, Hold. }
  assert (Hisnew : ∀ c, c ∈ seq c0 (length sigs) → isCallerOf b st4 c = true).
  { intros c [Hge Hlt]%elem_of_seq. unfold isCallerOf. rewrite Hcs4.
    destruct (lookup_lt_is_Some_2 sigs (c - c0)) as [s Hi]; [lia|].
    replace c with (c0 + (c - c0)) by lia. rewrite (Hnew _ _ Hi).
    by apply bool_decide_true. }
  assert (filter (λ c, isCallerOf (batchOf ev) st4 c = true) (listenersOf ev st4) = live)
    as HL.
  { rewrite Hbev, Hls4, filter_app.
    rewrite (filter_all _ live).
    2: { intros c [_ Hc]%list_elem_of_filter. by apply Hisnew. }
    replace (filter _ old) with (@nil nat); [done|].
    symmetry. apply length_zero_iff_nil.
    destruct (filter _ old) as [|c l] eqn:Hfo; [done|].
    assert (c ∈ filter (λ c, isCallerOf b st4 c = true) old) as Hin
      by (rewrite Hfo; apply elem_of_cons; by left).
    apply list_elem_of_filter in Hin as [Htrue Hin].
    apply Hold4 in Hin as [Hlt Hfalse]. rewrite Hisold in Htrue by done. congruence. }
  rewrite dispatchEvent_eq. fold st4.
  change (listenersOf ev (markDone (length (fetches st0)) st))
    with (listenersOf ev st4).
  rewrite <- HL. apply broadcast.
  - by rewrite Hbev.
  - rewrite HL. apply NoDup_filter, NoDup_seq.
  - rewrite HL, Hls4. intros c Hc. apply elem_of_app. by right.
  - rewrite HL. cbn [processed registered].
    pose proof (length_filter (λ c, K !! c = None) (seq c0 (length sigs))) as Hle.
    rewrite length_seq in Hle. unfold live. lia.
Qed.

End Broadcasting.

Section Reuse.
Variable hash : string → string → list (string * string) → string.
Variables (b u : string) (other : list (string * string)) (st0 : State).
Hypothesis Hq : quiescent b st0.



End Reuse.



(** ** The quiet window *)

Lemma quiet_snoc evs ev :
  quiet (evs ++ [ev]) =
    match ev with
    | EvCall _ _ => 0
    | EvAdvance dt => quiet evs + dt
    | _ => quiet evs
    end.
Proof. unfold quiet. by rewrite foldl_app. Qed.

Lemma armed_tick d b evs st dt :
  armed d b evs st → armed d b (evs ++ [EvAdvance dt]) (set_clock (λ t, t + dt) st).
Proof.
  unfold armed. rewrite joinSignals_app. cbn [joinSignals omap]. rewrite app_nil_r.
  destruct (joinSignals evs); [done|]. cbv beta iota.
  intros (tid & due & Hd & Htm & Hdue & Huniq). exists tid, due.
  rewrite quiet_snoc. mproj. repeat split; try done. lia.
Qed.

Lemma armed_join d b u evs st o :
  armed d b evs st → armed d b (evs ++ [EvCall u o]) (joinedState d b u o st).
Proof.
  unfold armed. rewrite joinSignals_app.
  change (joinSignals [EvCall u o]) with [signal o].
  intros Ha.
  destruct (joinSignals evs ++ [signal o]) eqn:Hne; [by destruct (joinSignals evs)|].
  clear Hne. cbv beta iota. exists (nextTimer st), (clock st + d).
  rewrite quiet_snoc. cbn [joinedState requestDebounce timers clock].
  rewrite !lookup_insert_eq. split; [done|]. split; [done|]. split; [lia|].
  intros tid' due' Hl. destruct (decide (tid' = nextTimer st)) as [|Hne]; [done|].
  exfalso. rewrite lookup_insert_ne in Hl by done.
  destruct (joinSignals evs).
  - destruct Ha as [Hd Hno]. rewrite Hd in Hl. by apply Hno in Hl.
  - destruct Ha as (tid & due & Hd & Htm & _ & Huniq). rewrite Hd in Hl.
    apply lookup_delete_Some in Hl as [Hne' Hl]. apply Huniq in Hl. congruence.
Qed.

Lemma V500_armed_run hash u other st0 :
  quiescent (hash u "otherOptions" other) st0 →
  (∀ tid due, timers st0 !! tid ≠ Some (due, hash u "otherOptions" other)) →
  ∀ evs, Forall (isJoin u other) evs →
  ∃ st, V500.run hash evs st0 = Some st
        ∧ Gathered (hash u "otherOptions" other) u other st0 (joinSignals evs) st
        ∧ armed 500 (hash u "otherOptions" other) evs st.
Proof.
  intros Hq Hno evs. induction evs as [|ev evs IH] using rev_ind; intros Hevs.
  { exists st0. split; [done|]. split; [apply gathered_nil|]. split; [apply Hq|done]. }
  apply Forall_app in Hevs as [Hevs Hev]. apply Forall_inv in Hev.
  destruct (IH Hevs) as (st & Hrun & Hg & Ha).
  rewrite run_app, Hrun, joinSignals_app. cbn [mbind option_bind V500.run].
  destruct ev as [u' o|dt|?|? ?|? ?|? ?]; try done.
  - destruct Hev as [-> Ho]. cbn [V500.step].
    pose proof (gathered_signals _ _ _ _ _ _ Hq Hg) as Hs. rewrite <- Ho in Hs.
    rewrite (V500_batchFetch_join hash u o st Hs). cbn [snd].
    eexists. split; [done|]. cbn [joinSignals omap]. rewrite Ho.
    split; [by apply gathered_join|by apply armed_join].
  - cbn [V500.step]. eexists. split; [done|].
    cbn [joinSignals omap]. rewrite app_nil_r.
    split; [by apply gathered_tick|by apply armed_tick].
Qed.

Lemma V1000_armed_run hash u other st0 :
  quiescent (hash u "options" other) st0 →
  (∀ tid due, timers st0 !! tid ≠ Some (due, hash u "options" other)) →
  ∀ evs, Forall (isJoin u other) evs →
  ∃ st, V1000.run hash evs st0 = Some st
        ∧ Gathered (hash u "options" other) u other st0 (joinSignals evs) st
        ∧ armed 1000 (hash u "options" other) evs st.
Proof.
  intros Hq Hno evs. induction evs as [|ev evs IH] using rev_ind; intros Hevs.
  { exists st0. split; [done|]. split; [apply gathered_nil|]. split; [apply Hq|done]. }
  apply Forall_app in Hevs as [Hevs Hev]. apply Forall_inv in Hev.
  destruct (IH Hevs) as (st & Hrun & Hg & Ha).
  rewrite V1000_run_app, Hrun, joinSignals_app. cbn [mbind option_bind V1000.run].
  destruct ev as [u' o|dt|?|? ?|? ?|? ?]; try done.
  - destruct Hev as [-> Ho]. cbn [V1000.step].
    pose proof (gathered_signals _ _ _ _ _ _ Hq Hg) as Hs. rewrite <- Ho in Hs.
    rewrite (V1000_batchFetch_join hash u o st Hs). cbn [snd].
    eexists. split; [done|]. cbn [joinSignals omap]. rewrite Ho.
    split; [by apply gathered_join|by apply armed_join].
  - cbn [V1000.step]. eexists. split; [done|].
    cbn [joinSignals omap]. rewrite app_nil_r.
    split; [by apply gathered_tick|by apply armed_tick].
Qed.

(** The timer of a gathered batch, before and after it is due. *)
Lemma armed_timer hash d b u other st0 evs st1 :
  joinSignals evs ≠ [] →
  Gathered b u other st0 (joinSignals evs) st1 →
  armed d b evs st1 →
  ∃ tid due,
    requestDebounce st1 !! b = Some tid
    ∧ timers st1 !! tid = Some (due, b)
    ∧ due + quiet evs = clock st1 + d
    ∧ (∀ tid' due', timers st1 !! tid' = Some (due', b) → tid' = tid)
    ∧ fetches st1 = fetches st0
    ∧ (∀ dt, quiet evs + dt < d →
             V500.run hash [EvAdvance dt; EvTimeout tid] st1 = None)
    ∧ (∀ dt, d ≤ quiet evs + dt →
             ∃ st2, V500.run hash [EvAdvance dt; EvTimeout tid] st1 = Some st2
                    ∧ requestSignals st2 !! b = Some (length (controllers st0))
                    ∧ fetches st2 =
                        fetches st0 ++
                          [{| f_url := u; f_options := other;
                              f_signal := Some (BatchSignal (length (controllers st0)));
                              f_cont := Broadcast b; f_done := false |}]).
Proof.
  intros Hne (_ & _ & Hg) Ha. unfold armed in Ha.
  destruct (joinSignals evs) as [|s sigs] eqn:Hsigs; [done|].
  destruct Hg as (tid' & due' & HB). destruct Ha as (tid & due & Hd & Htm & Hdue & Huniq).
  pose proof (batch_phase _ _ _ _ _ _ _ _ HB) as (_ & Hd' & Htm' & Hf & _).
  assert (tid' = tid) as -> by congruence.
  assert (due' = due) as -> by congruence.
  exists tid, due. do 5 (split; [done|]). split.
  - intros dt Hdt. cbn [V500.run V500.step]. mproj. rewrite Htm.
    by rewrite decide_False by lia.
  - intros dt Hdt.
    destruct (timeout_step hash b u other st0 _ ∅ tid due st1 dt HB) as [Hrun HB2]; [lia|].
    eexists. split; [exact Hrun|].
    pose proof (batch_phase _ _ _ _ _ _ _ _ HB2) as (? & _ & _ & ? & _). done.
Qed.

(** X6: in the 500ms variant the fetch of a batch is made once 500ms have
    passed without a call, and not before.  After any number of identical
    calls, with any time passing between them, the signature has exactly
    one pending timer, the one [requestDebounce] holds; it is due 500ms
    after the last call, whatever time the earlier calls were made at; it
    cannot run before, and when it runs it makes the fetch of the batch. *)
Theorem quiet_window
    (hash : string → string → list (string * string) → string) u other evs st :
  quiescent (hash u "otherOptions" other) st →
  (∀ tid due, timers st !! tid ≠ Some (due, hash u "otherOptions" other)) →
  Forall (isJoin u other) evs →
  joinSignals evs ≠ [] →
  ∃ st1 tid due,
    V500.run hash evs st = Some st1
    ∧ requestDebounce st1 !! hash u "otherOptions" other = Some tid
    ∧ timers st1 !! tid = Some (due, hash u "otherOptions" other)
    ∧ due + quiet evs = clock st1 + 500
    ∧ (∀ tid' due', timers st1 !! tid' = Some (due', hash u "otherOptions" other) →
                    tid' = tid)
    ∧ fetches st1 = fetches st
    ∧ (∀ dt, quiet evs + dt < 500 →
             V500.run hash [EvAdvance dt; EvTimeout tid] st1 = None)
    ∧ (∀ dt, 500 ≤ quiet evs + dt →
             ∃ st2, V500.run hash [EvAdvance dt; EvTimeout tid] st1 = Some st2
                    ∧ requestSignals st2 !! hash u "otherOptions" other
                      = Some (length (controllers st))
                    ∧ fetches st2 =
                        fetches st ++
                          [{| f_url := u; f_options := other;
                              f_signal := Some (BatchSignal (length (controllers st)));
                              f_cont := Broadcast (hash u "otherOptions" other);
                              f_done := false |}]).
Proof.
  intros Hq Hno Hevs Hne.
  destruct (V500_armed_run hash u other st Hq Hno evs Hevs) as (st1 & Hrun & Hg & Ha).
  destruct (armed_timer hash 500 _ u other st evs st1 Hne Hg Ha) as (tid & due & H).
  by exists st1, tid, due.
Qed.

(** X7: the same in the 1000ms variant, with a window of 1000ms. *)
Theorem v1000_quiet_window
    (hash : string → string → list (string * string) → string) u other evs st :
  quiescent (hash u "options" other) st →
  (∀ tid due, timers st !! tid ≠ Some (due, hash u "options" other)) →
  Forall (isJoin u other) evs →
  joinSignals evs ≠ [] →
  ∃ st1 tid due,
    V1000.run hash evs st = Some st1
    ∧ requestDebounce st1 !! hash u "options" other = Some tid
    ∧ timers st1 !! tid = Some (due, hash u "options" other)
    ∧ due + quiet evs = clock st1 + 1000
    ∧ (∀ tid' due', timers st1 !! tid' = Some (due', hash u "options" other) →
                    tid' = tid)
    ∧ fetches st1 = fetches st
    ∧ (∀ dt, quiet evs + dt < 1000 →
             V1000.run hash [EvAdvance dt; EvTimeout tid] st1 = None)
    ∧ (∀ dt, 1000 ≤ quiet evs + dt →
             ∃ st2, V1000.run hash [EvAdvance dt; EvTimeout tid] st1 = Some st2
                    ∧ requestSignals st2 !! hash u "options" other
                      = Some (length (controllers st))
                    ∧ fetches st2 =
                        fetches st ++
                          [{| f_url := u; f_options := other;
                              f_signal := Some (BatchSignal (length (controllers st)));
                              f_cont := Broadcast (hash u "options" other);
                              f_done := false |}]).
Proof.
  intros Hq Hno Hevs Hne.
  destruct (V1000_armed_run hash u other st Hq Hno evs Hevs) as (st1 & Hrun & Hg & Ha).
  destruct (armed_timer hash 1000 _ u other st evs st1 Hne Hg Ha) as (tid & due & H).
  by exists st1, tid, due.
Qed.

(** Three calls, the last one 100ms after the first: the timer is due at
    600ms; it cannot run at 599ms and makes the fetch at 600ms. *)
Lemma quiet_window_witness :
  quiescent apiGet500 init
  ∧ Forall (isJoin "/api" [("method", "GET")]) threeCalls
  ∧ V500.run sampleHash (threeCalls ++ [EvAdvance 499; EvTimeout 3]) init = None
  ∧ ∃ st2,
      V500.run sampleHash (threeCalls ++ [EvAdvance 500; EvTimeout 3]) init = Some st2
      ∧ clock st2 = 600
      ∧ map f_url (fetches st2) = ["/api"].
Proof.
  assert (Hj : Forall (isJoin "/api" [("method", "GET")]) threeCalls)
    by (repeat constructor).
  split; [apply quiescent_init|]. split; [exact Hj|].
  destruct (quiet_window sampleHash "/api" [("method", "GET")] threeCalls init
              (quiescent_init _))
    as (st1 & tid & due & Hrun & Hd & _ & _ & _ & _ & Hearly & Hlate);
    [intros tid due H; vm_compute in H; discriminate|exact Hj|discriminate|].
  vm_compute in Hrun. injection Hrun as <-.
  vm_compute in Hd. injection Hd as <-.
  rewrite !run_app.
  replace (V500.run sampleHash threeCalls init) with (Some
    (default init (V500.run sampleHash threeCalls init))) by (vm_compute; reflexivity).
  cbn [mbind option_bind]. split.
  - rewrite <- (Hearly 499) by (vm_compute; lia). vm_compute. reflexivity.
  - destruct (Hlate 500) as (st2 & Hrun2 & _); [vm_compute; lia|].
    exists st2. vm_compute in Hrun2. injection Hrun2 as <-.
    split; [vm_compute; reflexivity|]. split; vm_compute; reflexivity.
Defined.

(** The same calls in the 1000ms variant: not at 1099ms, at 1100ms. *)
Lemma v1000_quiet_window_witness :
  quiescent apiGet1000 init
  ∧ Forall (isJoin "/api" [("method", "GET")]) threeCalls
  ∧ V1000.run sampleHash (threeCalls ++ [EvAdvance 999; EvTimeout 3]) init = None
  ∧ ∃ st2,
      V1000.run sampleHash (threeCalls ++ [EvAdvance 1000; EvTimeout 3]) init = Some st2
      ∧ clock st2 = 1100
      ∧ map f_url (fetches st2) = ["/api"].
Proof.
  assert (Hj : Forall (isJoin "/api" [("method", "GET")]) threeCalls)
    by (repeat constructor).
  split; [apply quiescent_init|]. split; [exact Hj|].
  destruct (v1000_quiet_window sampleHash "/api" [("method", "GET")] threeCalls init
              (quiescent_init _))
    as (st1 & tid & due & Hrun & Hd & _ & _ & _ & _ & Hearly & Hlate);
    [intros tid due H; vm_compute in H; discriminate|exact Hj|discriminate|].
  vm_compute in Hrun. injection Hrun as <-.
  vm_compute in Hd. injection Hd as <-.
  rewrite !V1000_run_app.
  replace (V1000.run sampleHash threeCalls init) with (Some
    (default init (V1000.run sampleHash threeCalls init))) by (vm_compute; reflexivity).
  cbn [mbind option_bind]. split.
  - rewrite <- (Hearly 999) by (vm_compute; lia). vm_compute. reflexivity.
  - destruct (Hlate 1000) as (st2 & Hrun2 & _); [vm_compute; lia|].
    exists st2. vm_compute in Hrun2. injection Hrun2 as <-.
    split; [vm_compute; reflexivity|]. split; vm_compute; reflexivity.
Defined.

(** ** Coalescing *)

Section Coalescing.
Variable hash : string → string → list (string * string) → string.

(** X18: coalescing in the 500ms variant, where no earlier caller of the
    signature has left a listener behind.  The signature has nothing
    registered and no timer pending, and on the channel of the outcome no
    listener belongs to an earlier caller of it.  Calls with the same url
    and options (signals apart), with any time passing between them, make no
    fetch and leave exactly one pending timer for the signature, that of the
    last call.  The turns that follow are time passing, that timer running
    once it is due, and its fetch completing: nothing else happens from the
    first call on, in particular no signal is aborted.  The timer makes one
    fetch, for the url and options of the calls; and once that fetch has
    completed with a response or with an error that is not an abort error,
    [resolve] or [reject] has been called exactly once on every one of the
    callers' promises, with that outcome, no listener has thrown, and the
    four table entries of the batch are deleted. *)
Theorem coalescing u other evs st :
  quiescent (hash u "otherOptions" other) st →
  (∀ tid due, timers st !! tid ≠ Some (due, hash u "otherOptions" other)) →
  Forall (isJoin u other) evs →
  joinSignals evs ≠ [] →
  ∃ st1 tid due,
    V500.run hash evs st = Some st1
    ∧ length (callers st1) = length (callers st) + length (joinSignals evs)
    ∧ fetches st1 = fetches st
    ∧ requestDebounce st1 !! hash u "otherOptions" other = Some tid
    ∧ timers st1 !! tid = Some (due, hash u "otherOptions" other)
    ∧ (∀ tid' due', timers st1 !! tid' = Some (due', hash u "otherOptions" other) →
                    tid' = tid)
    ∧ ∀ dt out,
        due ≤ clock st1 + dt →
        broadcastable out →
        unheard (hash u "otherOptions" other) out st →
        ∃ st2,
          V500.run hash
            [EvAdvance dt; EvTimeout tid; completion (length (fetches st)) out] st1
            = Some st2
          ∧ fetches st2 =
              fetches st ++
                [{| f_url := u; f_options := other;
                    f_signal := Some (BatchSignal (length (controllers st)));
                    f_cont := Broadcast (hash u "otherOptions" other);
                    f_done := true |}]
          ∧ (∀ c, length (callers st) ≤ c < length (callers st1) →
                  c_settled <$> callers st2 !! c = Some [delivery out])
          ∧ uncaught st2 = uncaught st
          ∧ requestPayload st2 !! hash u "otherOptions" other = None
          ∧ requestCounter st2 !! hash u "otherOptions" other = None
          ∧ requestDebounce st2 !! hash u "otherOptions" other = None
          ∧ requestSignals st2 !! hash u "otherOptions" other = None.
Proof.
  intros Hq Hno Hevs Hne. set (b := hash u "otherOptions" other) in *.
  destruct (V500_armed_run hash u other st Hq Hno evs Hevs) as (st1 & Hrun & Hg & Ha).
  fold b in Hg, Ha.
  destruct (armed_timer hash 500 b u other st evs st1 Hne Hg Ha)
    as (tid & due & Hd & Htm & _ & Huniq & Hf & _).
  destruct Hg as (_ & _ & Hg).
  destruct (joinSignals evs) as [|s sigs] eqn:Hsigs; [done|]. rewrite <- Hsigs in *.
  destruct Hg as (tid' & due' & HB).
  pose proof (batch_phase _ _ _ _ _ _ _ _ HB) as (_ & Hd' & Htm' & _).
  assert (tid' = tid) as -> by congruence.
  assert (due' = due) as -> by congruence.
  exists st1, tid, due. split; [done|].
  split; [apply HB|]. do 4 (split; [done|]).
  intros dt out Hdue Hout Hun0.
  destruct (timeout_step hash b u other st (joinSignals evs) ∅ tid due st1 dt HB Hdue)
    as [Hrun2 HB2].
  destruct (batch_outcome hash b u other st Hq _ _ _ _ out HB2 Hout Hun0)
    as (st2 & Hstep & Hcs & Hfs & _ & Hun & Hret).
  exists st2. split.
  { change [EvAdvance dt; EvTimeout tid; completion (length (fetches st)) out]
      with ([EvAdvance dt; EvTimeout tid] ++ [completion (length (fetches st)) out]).
    rewrite run_app, Hrun2. cbn [mbind option_bind V500.run]. by rewrite Hstep. }
  split; [done|]. split; [|split; [done|]].
  - intros c [Hge Hlt]. rewrite (batch_len _ _ _ _ _ _ _ _ HB) in Hlt.
    destruct (lookup_lt_is_Some_2 (joinSignals evs) (c - length (callers st)))
      as [s' Hi]; [lia|].
    replace c with (length (callers st) + (c - length (callers st))) by lia.
    rewrite (Hcs _ _ Hi), lookup_empty. done.
  - destruct Hret as (? & ? & ? & ?); [done|by rewrite Hsigs|done].
Qed.

(** X2: coalescing in the 1000ms variant, under the same conditions.  The
    signature has nothing registered and no timer pending, and on the
    channel of the outcome no listener belongs to an earlier caller of it.
    Calls with the same url and options (signals apart), with any time
    passing between them, make no fetch and leave exactly one pending timer
    for the signature, that of the last call.  The turns that follow are
    time passing, that timer running once it is due, and its fetch
    completing: nothing else happens from the first call on, in particular
    no signal is aborted.  The timer makes one fetch, for the url and
    options of the calls; and once that fetch has completed with a response
    or with an error that is not an abort error, [resolve] or [reject] has
    been called exactly once on every one of the callers' promises, with
    that outcome, no listener has thrown, and the four table entries of the
    batch are deleted. *)
Theorem v1000_coalescing u other evs st :
  quiescent (hash u "options" other) st →
  (∀ tid due, timers st !! tid ≠ Some (due, hash u "options" other)) →
  Forall (isJoin u other) evs →
  joinSignals evs ≠ [] →
  ∃ st1 tid due,
    V1000.run hash evs st = Some st1
    ∧ length (callers st1) = length (callers st) + length (joinSignals evs)
    ∧ fetches st1 = fetches st
    ∧ requestDebounce st1 !! hash u "options" other = Some tid
    ∧ timers st1 !! tid = Some (due, hash u "options" other)
    ∧ (∀ tid' due', timers st1 !! tid' = Some (due', hash u "options" other) →
                    tid' = tid)
    ∧ ∀ dt out,
        due ≤ clock st1 + dt →
        broadcastable out →
        unheard (hash u "options" other) out st →
        ∃ st2,
          V1000.run hash
            [EvAdvance dt; EvTimeout tid; completion (length (fetches st)) out] st1
            = Some st2
          ∧ fetches st2 =
              fetches st ++
                [{| f_url := u; f_options := other;
                    f_signal := Some (BatchSignal (length (controllers st)));
                    f_cont := Broadcast (hash u "options" other);
                    f_done := true |}]
          ∧ (∀ c, length (callers st) ≤ c < length (callers st1) →
                  c_settled <$> callers st2 !! c = Some [delivery out])
          ∧ uncaught st2 = uncaught st
          ∧ requestPayload st2 !! hash u "options" other = None
          ∧ requestCounter st2 !! hash u "options" other = None
          ∧ requestDebounce st2 !! hash u "options" other = None
          ∧ requestSignals st2 !! hash u "options" other = None.
Proof.
  intros Hq Hno Hevs Hne. set (b := hash u "options" other) in *.
  destruct (V1000_armed_run hash u other st Hq Hno evs Hevs) as (st1 & Hrun & Hg & Ha).
  fold b in Hg, Ha.
  destruct (armed_timer hash 1000 b u other st evs st1 Hne Hg Ha)
    as (tid & due & Hd & Htm & _ & Huniq & Hf & _).
  destruct Hg as (_ & _ & Hg).
  destruct (joinSignals evs) as [|s sigs] eqn:Hsigs; [done|]. rewrite <- Hsigs in *.
  destruct Hg as (tid' & due' & HB).
  pose proof (batch_phase _ _ _ _ _ _ _ _ HB) as (_ & Hd' & Htm' & _).
  assert (tid' = tid) as -> by congruence.
  assert (due' = due) as -> by congruence.
  exists st1, tid, due. split; [done|].
  split; [apply HB|]. do 4 (split; [done|]).
  intros dt out Hdue Hout Hun0.
  destruct (timeout_step hash b u other st (joinSignals evs) ∅ tid due st1 dt HB Hdue)
    as [Hrun2 HB2].
  destruct (batch_outcome hash b u other st Hq _ _ _ _ out HB2 Hout Hun0)
    as (st2 & Hstep & Hcs & Hfs & _ & Hun & Hret).
  exists st2. split.
  { rewrite (V1000_run_timeout_outcome hash hash).
    change [EvAdvance dt; EvTimeout tid; completion (length (fetches st)) out]
      with ([EvAdvance dt; EvTimeout tid] ++ [completion (length (fetches st)) out]).
    rewrite run_app, Hrun2. cbn [mbind option_bind V500.run]. by rewrite Hstep. }
  split; [done|]. split; [|split; [done|]].
  - intros c [Hge Hlt]. rewrite (batch_len _ _ _ _ _ _ _ _ HB) in Hlt.
    destruct (lookup_lt_is_Some_2 (joinSignals evs) (c - length (callers st)))
      as [s' Hi]; [lia|].
    replace c with (length (callers st) + (c - length (callers st))) by lia.
    rewrite (Hcs _ _ Hi), lookup_empty. done.
  - destruct Hret as (? & ? & ? & ?); [done|by rewrite Hsigs|done].
Qed.

End Coalescing.

(** Three calls coalesce: one fetch, and its response reaches all three. *)
Lemma coalescing_witness :
  quiescent apiGet500 init
  ∧ Forall (isJoin "/api" [("method", "GET")]) threeCalls
  ∧ ∃ st2,
      V500.run sampleHash
        (threeCalls ++ [EvAdvance 500; EvTimeout 3; EvFetchResolve 0 ok200]) init
        = Some st2
      ∧ map f_done (fetches st2) = [true]
      ∧ map c_settled (callers st2) =
          [[Resolve (clone ok200)]; [Resolve (clone ok200)]; [Resolve (clone ok200)]].
Proof.
  assert (Hj : Forall (isJoin "/api" [("method", "GET")]) threeCalls)
    by (repeat constructor).
  split; [apply quiescent_init|]. split; [exact Hj|].
  destruct (coalescing sampleHash "/api" [("method", "GET")] threeCalls init
              (quiescent_init _))
    as (st1 & tid & due & Hrun & _ & _ & Hd & Htm & _ & Hfin);
    [intros tid due H; vm_compute in H; discriminate|exact Hj|discriminate|].
  vm_compute in Hrun. injection Hrun as <-.
  vm_compute in Hd. injection Hd as <-.
  vm_compute in Htm. injection Htm as <-.
  destruct (Hfin 500 (Resolve ok200)) as (st2 & Hrun2 & _);
    [vm_compute; lia|exact I|apply unheard_init|].
  exists st2. rewrite run_app.
  replace (V500.run sampleHash threeCalls init) with (Some
    (default init (V500.run sampleHash threeCalls init))) by (vm_compute; reflexivity).
  cbn [mbind option_bind].
  vm_compute in Hrun2. injection Hrun2 as <-.
  split; [vm_compute; reflexivity|]. split; vm_compute; reflexivity.
Defined.

(** Three calls that coalesce in the 1000ms variant; the failure of the one
    fetch reaches all three. *)
Lemma v1000_coalescing_witness :
  quiescent apiGet1000 init
  ∧ Forall (isJoin "/api" [("method", "GET")]) threeCalls
  ∧ ∃ st2,
      V1000.run sampleHash
        (threeCalls ++ [EvAdvance 1000; EvTimeout 3; EvFetchReject 0 failedToFetch]) init
        = Some st2
      ∧ map f_done (fetches st2) = [true]
      ∧ map c_settled (callers st2) =
          [[Reject failedToFetch]; [Reject failedToFetch]; [Reject failedToFetch]].
Proof.
  assert (Hj : Forall (isJoin "/api" [("method", "GET")]) threeCalls)
    by (repeat constructor).
  split; [apply quiescent_init|]. split; [exact Hj|].
  destruct (v1000_coalescing sampleHash "/api" [("method", "GET")] threeCalls init
              (quiescent_init _))
    as (st1 & tid & due & Hrun & _ & _ & Hd & Htm & _ & Hfin);
    [intros tid due H; vm_compute in H; discriminate|exact Hj|discriminate|].
  vm_compute in Hrun. injection Hrun as <-.
  vm_compute in Hd. injection Hd as <-.
  vm_compute in Htm. injection Htm as <-.
  destruct (Hfin 1000 (Reject failedToFetch)) as (st2 & Hrun2 & _);
    [vm_compute; lia|vm_compute; discriminate|apply unheard_init|].
  exists st2. rewrite V1000_run_app.
  replace (V1000.run sampleHash threeCalls init) with (Some
    (default init (V1000.run sampleHash threeCalls init))) by (vm_compute; reflexivity).
  cbn [mbind option_bind].
  vm_compute in Hrun2. injection Hrun2 as <-.
  split; [vm_compute; reflexivity|]. split; vm_compute; reflexivity.
Defined.

(** ** The registry in every reachable state *)

Lemma consistent_init : consistent init.
Proof.
  split; cbn [init requestPayload requestCounter requestDebounce requestSignals
              timers nextTimer controllers fetches]; intros *;
    rewrite ?lookup_empty, ?lookup_nil; done.
Qed.

Lemma consistent_registry st st' :
  registry st' = registry st → consistent st → consistent st'.
Proof.
  unfold registry. intros Heq [].
  injection Heq as Hp Hc Hd Hs Ht Hn Hct Hf.
  split; rewrite ?Hp, ?Hc, ?Hd, ?Hs, ?Ht, ?Hn, ?Hct, ?Hf; done.
Qed.

Lemma settledSignature_registry b st st' :
  registry st' = registry st → settledSignature b st → settledSignature b st'.
Proof.
  unfold registry, settledSignature. intros Heq.
  injection Heq as Hp Hc Hd Hs Ht Hn Hct Hf.
  by rewrite ?Ht, ?Hct, ?Hf.
Qed.

(** A call that registers. *)
Lemma consistent_joined d b u o st :
  requestSignals st !! b = None → consistent st → consistent (joinedState d b u o st).
Proof.
  intros Hs [Hp Hd Hsg Hinj Hc Ht Hf Hlt Hct].
  split; cbn [joinedState requestPayload requestCounter requestDebounce requestSignals
              timers nextTimer controllers fetches].
  - intros b'. destruct (decide (b' = b)) as [->|Hne].
    + rewrite lookup_insert_eq.
      destruct (requestPayload st !! b) eqn:E; [rewrite E|rewrite lookup_insert_eq];
        split; eauto.
    + rewrite lookup_insert_ne by done.
      destruct (requestPayload st !! b); [|rewrite lookup_insert_ne by done]; apply Hp.
  - intros b'. destruct (decide (b' = b)) as [->|Hne].
    + rewrite !lookup_insert_eq. split; eauto.
    + rewrite !lookup_insert_ne by done. apply Hd.
  - intros b' ctrl H. destruct (Hsg _ _ H) as [Hc' Hctl]. split; [|done].
    rewrite lookup_insert_is_Some. destruct (decide (b = b')); [by left|by right].
  - exact Hinj.
  - intros b' c. rewrite lookup_insert_Some. intros [[<- <-]|[Hne H]]; [|by apply (Hc b')].
    destruct (requestCounter st !! b) as [c0|] eqn:E; cbn.
    + destruct (Hc _ _ E). lia.
    + lia.
  - intros tid due b'. rewrite lookup_insert_Some. intros [[<- Heq]|[Hne H]].
    + injection Heq as <- <-. rewrite lookup_insert_eq. split; [lia|done].
    + assert (timers st !! tid = Some (due, b') ∧ requestDebounce st !! b ≠ Some tid)
        as [H' Hnot].
      { destruct (requestDebounce st !! b) as [t|]; [|done].
        apply lookup_delete_Some in H as [? ?]. split; [done|congruence]. }
      destruct (Ht _ _ _ H') as (Hlt' & Hdb & Hsn).
      assert (b' ≠ b) by (intros ->; congruence).
      rewrite lookup_insert_ne by done. split; [lia|done].
  - exact Hf.
  - exact Hlt.
  - exact Hct.
Qed.

(** The timer of a batch runs: [dispatchRequest]. *)
Lemma consistent_dispatched tid due b st :
  timers st !! tid = Some (due, b) →
  consistent st →
  consistent (dispatched b (set_timers (delete tid) st)).
Proof.
  intros Htid [Hp Hd Hsg Hinj Hc Ht Hf Hlt Hct].
  destruct (Ht _ _ _ Htid) as (_ & Hdb & Hsn).
  assert (Hslt : ∀ b' ctrl, requestSignals st !! b' = Some ctrl →
                            ctrl < length (controllers st)).
  { intros b' ctrl H. destruct (Hsg _ _ H) as [_ H']. by apply lookup_lt_Some in H'. }
  split; unfold dispatched; mproj.
  - exact Hp.
  - exact Hd.
  - intros b' ctrl. rewrite lookup_insert_Some. intros [[<- <-]|[Hne H]].
    + split; [apply Hd; by rewrite Hdb|]. by apply list_lookup_middle.
    + destruct (Hsg _ _ H) as [? ?]. split; [done|]. by apply lookup_app_l_Some.
  - intros b1 b2 ctrl. rewrite !lookup_insert_Some.
    intros [[<- <-]|[Hne1 H1]] [[<- Heq]|[Hne2 H2]]; try done.
    + apply Hslt in H2. lia.
    + apply Hslt in H1. lia.
    + by apply (Hinj _ _ ctrl).
  - exact Hc.
  - intros tid' due' b'. rewrite lookup_delete_Some. intros [Hne H].
    destruct (Ht _ _ _ H) as (? & Hdb' & ?).
    assert (b' ≠ b) by (intros ->; congruence).
    rewrite lookup_insert_ne by done. done.
  - intros fid f b'. rewrite lookup_snoc_Some. intros [[Hfid H]|[-> <-]] Hk.
    + destruct (Hf _ _ _ H Hk) as (ctrl & Hsig & Hlive).
      exists ctrl. split; [done|].
      intros Hnd Hfalse. rewrite lookup_app_l in Hfalse by (by eapply Hlt).
      pose proof (Hlive Hnd Hfalse) as Hs'.
      assert (b' ≠ b) by (intros ->; congruence).
      by rewrite lookup_insert_ne.
    + cbn in Hk. injection Hk as <-. exists (length (controllers st)).
      split; [done|]. intros _ _. apply lookup_insert_eq.
  - intros fid f ctrl. rewrite lookup_snoc_Some, length_app.
    intros [[Hfid H]|[-> <-]] Hs1; cbn in *.
    + apply (Hlt _ _ _ H) in Hs1. lia.
    + injection Hs1 as <-. lia.
  - intros fid fid' f f' ctrl. rewrite !lookup_snoc_Some.
    intros [[Hfid H]|[-> <-]] [[Hfid' H']|[-> <-]] Hs1 Hs2; cbn in *.
    + by apply (Hct _ _ _ _ ctrl H H').
    + exfalso. injection Hs2 as <-. apply (Hlt _ _ _ H) in Hs1. lia.
    + exfalso. injection Hs1 as <-. apply (Hlt _ _ _ H') in Hs2. lia.
    + done.
Qed.

Lemma is_Some_insert_present {A} (m : gmap string A) b b' x :
  is_Some (m !! b) → is_Some (<[b := x]> m !! b') ↔ is_Some (m !! b').
Proof.
  intros Hb. rewrite lookup_insert_is_Some. split.
  - intros [<-|[_ ?]]; done.
  - intros H. destruct (decide (b = b')); [by left|by right].
Qed.

(** An abort listener runs. *)
Lemma consistent_abortedWith upd full b s c st :
  (∀ cnt, aborted cnt < registered cnt → processed cnt < registered cnt →
          full (upd cnt) = false →
          aborted (upd cnt) < registered (upd cnt)
          ∧ processed (upd cnt) < registered (upd cnt)) →
  consistent st → consistent (abortedWith upd full b s c st).
Proof.
  intros Hupd Hcs. unfold abortedWith.
  destruct (requestCounter st !! b) as [cnt|] eqn:Hcnt.
  2: { by eapply consistent_registry; [|exact Hcs]. }
  cbn zeta.
  assert (∀ st3, consistent st3 →
            consistent (match userAborted st !! s with
                        | Some e => set_callers (alter (settle (Reject e)) c) st3
                        | None => st3
                        end)) as Hfin.
  { intros st3 H3. destruct (userAborted st !! s); [|done].
    by eapply consistent_registry; [|exact H3]. }
  apply Hfin. clear Hfin.
  destruct Hcs as [Hp Hd Hsg Hinj Hc Ht Hf Hlt Hct].
  destruct (Hc _ _ Hcnt) as [Ha Hpr].
  destruct (full (upd cnt)) eqn:Hfull.
  - set (st' := retired b _).
    assert (Hp' : requestPayload st' = delete b (requestPayload st))
      by (unfold st', retired; by destruct (requestSignals st !! b), (requestDebounce st !! b)).
    assert (Hc' : requestCounter st' = delete b (<[b := upd cnt]> (requestCounter st)))
      by (unfold st', retired; by destruct (requestSignals st !! b), (requestDebounce st !! b)).
    assert (Hd' : requestDebounce st' = delete b (requestDebounce st))
      by (unfold st', retired; by destruct (requestSignals st !! b), (requestDebounce st !! b)).
    assert (Hs' : requestSignals st' = delete b (requestSignals st))
      by (unfold st', retired; by destruct (requestSignals st !! b), (requestDebounce st !! b)).
    assert (Ht' : timers st' = match requestDebounce st !! b with
                               | Some tid => delete tid (timers st)
                               | None => timers st
                               end)
      by (unfold st', retired; by destruct (requestSignals st !! b), (requestDebounce st !! b)).
    assert (Hn' : nextTimer st' = nextTimer st)
      by (unfold st', retired; by destruct (requestSignals st !! b), (requestDebounce st !! b)).
    assert (Hct' : controllers st' = match requestSignals st !! b with
                                     | Some ctrl => <[ctrl := true]> (controllers st)
                                     | None => controllers st
                                     end)
      by (unfold st', retired; by destruct (requestSignals st !! b), (requestDebounce st !! b)).
    assert (Hf' : fetches st' = fetches st)
      by (unfold st', retired; by destruct (requestSignals st !! b), (requestDebounce st !! b)).
    clearbody st'.
    split; rewrite ?Hp', ?Hc', ?Hd', ?Hs', ?Hn', ?Hf'.
    + intros b'. destruct (decide (b' = b)) as [->|Hne].
      * rewrite !lookup_delete_eq. split; intros [? ?]; done.
      * rewrite !lookup_delete_ne, lookup_insert_ne by done. apply Hp.
    + intros b'. destruct (decide (b' = b)) as [->|Hne].
      * rewrite !lookup_delete_eq. split; intros [? ?]; done.
      * rewrite !lookup_delete_ne, lookup_insert_ne by done. apply Hd.
    + intros b' ctrl' [Hne H]%lookup_delete_Some.
      destruct (Hsg _ _ H) as [Hc1 Hfalse]. split.
      * by rewrite lookup_delete_ne, lookup_insert_ne.
      * rewrite Hct'. destruct (requestSignals st !! b) as [ctrl|] eqn:Hsb; [|done].
        rewrite list_lookup_insert_ne; [done|]. intros <-. apply Hne.
        by apply (Hinj _ _ ctrl).
    + intros b1 b2 ctrl [_ H1]%lookup_delete_Some [_ H2]%lookup_delete_Some.
      by apply (Hinj _ _ ctrl).
    + intros b' c' [Hne H]%lookup_delete_Some.
      rewrite lookup_insert_ne in H by done. by apply (Hc b').
    + intros tid due b' H. rewrite Ht' in H.
      assert (timers st !! tid = Some (due, b') ∧ requestDebounce st !! b ≠ Some tid)
        as [H' Hnot].
      { destruct (requestDebounce st !! b) as [t|]; [|done].
        apply lookup_delete_Some in H as [? ?]. split; [done|congruence]. }
      destruct (Ht _ _ _ H') as (? & Hdb & ?).
      assert (b' ≠ b) by (intros ->; congruence).
      by rewrite !lookup_delete_ne.
    + intros fid f b' H Hk. destruct (Hf _ _ _ H Hk) as (ctrl & Hsig & Hlive).
      exists ctrl. split; [done|]. intros Hnd Hfalse. rewrite Hct' in Hfalse.
      assert (controllers st !! ctrl = Some false ∧ requestSignals st !! b ≠ Some ctrl)
        as [Hf1 Hf2].
      { destruct (requestSignals st !! b) as [ctrl0|]; [|done].
        apply list_lookup_insert_Some in Hfalse as [(? & ? & ?)|[? ?]]; [done|].
        split; [done|congruence]. }
      pose proof (Hlive Hnd Hf1) as Hs1.
      assert (b' ≠ b) by (intros ->; congruence).
      by rewrite lookup_delete_ne.
    + intros fid f ctrl H Hsig. rewrite Hct'.
      destruct (requestSignals st !! b); rewrite ?length_insert; by eapply Hlt.
    + exact Hct.
  - assert (is_Some (requestCounter st !! b)) as Hsome by (by rewrite Hcnt).
    split; mproj; try done.
    + intros b'. rewrite is_Some_insert_present by done. apply Hp.
    + intros b'. rewrite is_Some_insert_present by done. apply Hd.
    + intros b' ctrl H. rewrite is_Some_insert_present by done. by apply Hsg.
    + intros b' c'. rewrite lookup_insert_Some. intros [[<- <-]|[Hne H]]; [|by apply (Hc b')].
      by apply Hupd.
Qed.

Lemma withdrawn_abortedWith b s c st :
  withdrawn b s c st = abortedWith (bump Aborted) (isMax Aborted) b s c st.
Proof. reflexivity. Qed.

Lemma consistent_withdrawn b s c st :
  consistent st → consistent (withdrawn b s c st).
Proof.
  rewrite withdrawn_abortedWith. apply consistent_abortedWith.
  intros cnt Ha Hp Hfull. unfold isMax in Hfull.
  cbn [bump field registered aborted processed] in *.
  destruct (Nat.eqb_spec (registered cnt) 0); [lia|].
  apply Nat.eqb_neq in Hfull. lia.
Qed.

(** A listener of the response or of the failure of a batch runs, nothing
    of the batch being under way any more. *)
Lemma consistent_processed b cnt st :
  requestCounter st !! b = Some cnt →
  consistent st → settledSignature b st →
  consistent
    (if isMax Processed (bump Processed cnt)
     then retired b (set_requestCounter (insert b (bump Processed cnt)) st)
     else set_requestCounter (insert b (bump Processed cnt)) st).
Proof.
  intros Hcnt [Hp Hd Hsg Hinj Hc Ht Hf Hlt Hct] [Hnt Hnf].
  destruct (Hc _ _ Hcnt) as [Ha Hpr].
  destruct (isMax Processed (bump Processed cnt)) eqn:Hfull.
  - split; unfold retired; mproj.
    + intros b'. destruct (decide (b' = b)) as [->|Hne].
      * rewrite !lookup_delete_eq. split; intros [? ?]; done.
      * rewrite !lookup_delete_ne, lookup_insert_ne by done. apply Hp.
    + intros b'. destruct (decide (b' = b)) as [->|Hne].
      * rewrite !lookup_delete_eq. split; intros [? ?]; done.
      * rewrite !lookup_delete_ne, lookup_insert_ne by done. apply Hd.
    + intros b' ctrl' [Hne H]%lookup_delete_Some.
      destruct (Hsg _ _ H) as [Hc1 Hfalse]. split; [|done].
      by rewrite lookup_delete_ne, lookup_insert_ne.
    + intros b1 b2 ctrl [_ H1]%lookup_delete_Some [_ H2]%lookup_delete_Some.
      by apply (Hinj _ _ ctrl).
    + intros b' c' [Hne H]%lookup_delete_Some.
      rewrite lookup_insert_ne in H by done. by apply (Hc b').
    + intros tid due b' H. destruct (Ht _ _ _ H) as (? & ? & ?).
      assert (b' ≠ b) by (intros ->; by apply Hnt in H).
      by rewrite !lookup_delete_ne.
    + intros fid f b' H Hk. destruct (Hf _ _ _ H Hk) as (ctrl & Hsig & Hlive).
      exists ctrl. split; [done|]. intros Hnd Hfalse.
      assert (b' ≠ b) by (intros ->; by apply (Hnf _ _ _ H Hk Hsig Hnd)).
      rewrite lookup_delete_ne by done. by apply Hlive.
    + exact Hlt.
    + exact Hct.
  - assert (is_Some (requestCounter st !! b)) as Hsome by (by rewrite Hcnt).
    split; mproj; try done.
    + intros b'. rewrite is_Some_insert_present by done. apply Hp.
    + intros b'. rewrite is_Some_insert_present by done. apply Hd.
    + intros b' ctrl H. rewrite is_Some_insert_present by done. by apply Hsg.
    + intros b' c'. rewrite lookup_insert_Some. intros [[<- <-]|[Hne H]]; [|by apply (Hc b')].
      unfold isMax in Hfull. cbn [bump field registered aborted processed] in *.
      destruct (Nat.eqb_spec (registered cnt) 0); [lia|].
      apply Nat.eqb_neq in Hfull. lia.
Qed.

Lemma registry_processed b cnt st :
  timers (if isMax Processed (bump Processed cnt)
          then retired b (set_requestCounter (insert b (bump Processed cnt)) st)
          else set_requestCounter (insert b (bump Processed cnt)) st) = timers st
  ∧ controllers (if isMax Processed (bump Processed cnt)
          then retired b (set_requestCounter (insert b (bump Processed cnt)) st)
          else set_requestCounter (insert b (bump Processed cnt)) st) = controllers st
  ∧ fetches (if isMax Processed (bump Processed cnt)
          then retired b (set_requestCounter (insert b (bump Processed cnt)) st)
          else set_requestCounter (insert b (bump Processed cnt)) st) = fetches st.
Proof. by destruct (isMax _ _). Qed.

Lemma consistent_delivered b c x unl st :
  registry (unl st) = registry st →
  consistent st → settledSignature b st →
  consistent (delivered b c x unl st) ∧ settledSignature b (delivered b c x unl st).
Proof.
  intros Hu Hcs Hss.
  pose proof (consistent_registry _ _ Hu Hcs) as Hcs'.
  pose proof (settledSignature_registry b _ _ Hu Hss) as Hss'.
  assert (requestCounter st = requestCounter (unl st)) as Hceq
    by (unfold registry in Hu; by injection Hu).
  unfold delivered. rewrite Hceq.
  destruct (requestCounter (unl st) !! b) as [cnt|] eqn:Hcnt.
  - pose proof (consistent_processed b cnt (unl st) Hcnt Hcs' Hss') as H.
    destruct (registry_processed b cnt (unl st)) as (Ht & Hct & Hf).
    split.
    + by eapply consistent_registry; [|exact H].
    + unfold settledSignature. mproj. rewrite Ht, Hct, Hf. exact Hss'.
  - split.
    + by eapply consistent_registry; [|exact Hcs'].
    + by eapply settledSignature_registry; [|exact Hss'].
Qed.

Lemma registry_unlisten ev c st : registry (unlisten ev c st) = registry st.
Proof. by destruct ev. Qed.

Lemma consistent_callListeners ev snapshot : ∀ st,
  consistent st → settledSignature (batchOf ev) st →
  consistent (callListeners (listenersOf ev) (broadcastListener ev) snapshot st).
Proof.
  induction snapshot as [|c rest IH]; intros st Hcs Hss; [done|].
  cbn [callListeners]. rewrite broadcastListener_eq.
  destruct (decide (c ∈ listenersOf ev st)); [|by apply IH].
  destruct (isCallerOf (batchOf ev) st c); [|by apply IH].
  destruct (consistent_delivered (batchOf ev) c (settlementOf ev) (unlisten ev c) st
              (registry_unlisten ev c st) Hcs Hss) as [H1 H2].
  by apply IH.
Qed.

Lemma consistent_dispatchEvent ev st :
  consistent st → settledSignature (batchOf ev) st →
  consistent (V500.dispatchEvent ev st).
Proof.
  intros Hcs Hss. rewrite dispatchEvent_eq.
  apply consistent_callListeners.
  - by eapply consistent_registry; [|exact Hcs].
  - by eapply settledSignature_registry; [|exact Hss].
Qed.

(** A fetch completes. *)
Lemma markDone_lookup fid st fid' f' :
  fetches (markDone fid st) !! fid' = Some f' →
  ∃ f0, fetches st !! fid' = Some f0
        ∧ f_cont f' = f_cont f0 ∧ f_signal f' = f_signal f0
        ∧ (if decide (fid = fid') then f_done f' = true else f_done f' = f_done f0).
Proof.
  unfold markDone. mproj. rewrite list_lookup_alter.
  destruct (decide (fid = fid')) as [->|Hne].
  - destruct (fetches st !! fid') as [f0|]; [|done].
    intros [= <-]. by exists f0.
  - intros H. by exists f'.
Qed.

Lemma consistent_markDone fid st : consistent st → consistent (markDone fid st).
Proof.
  intros [Hp Hd Hsg Hinj Hc Ht Hf Hlt Hct].
  split; try done.
  - intros fid' f' b H Hk.
    destruct (markDone_lookup _ _ _ _ H) as (f0 & H0 & Hk0 & Hs0 & Hd0).
    rewrite Hk0 in Hk. destruct (Hf _ _ _ H0 Hk) as (ctrl & Hsig & Hlive).
    exists ctrl. split; [congruence|]. intros Hnd.
    destruct (decide (fid = fid')); [congruence|]. apply Hlive. congruence.
  - intros fid' f' ctrl H Hsig.
    destruct (markDone_lookup _ _ _ _ H) as (f0 & H0 & Hk0 & Hs0 & Hd0).
    rewrite Hs0 in Hsig. by apply (Hlt _ _ _ H0).
  - intros fid1 fid2 f1 f2 ctrl H1 H2 Hs1 Hs2.
    destruct (markDone_lookup _ _ _ _ H1) as (f01 & H01 & _ & Hs01 & _).
    destruct (markDone_lookup _ _ _ _ H2) as (f02 & H02 & _ & Hs02 & _).
    rewrite Hs01 in Hs1. rewrite Hs02 in Hs2. by apply (Hct _ _ _ _ ctrl H01 H02).
Qed.

Lemma settled_markDone fid f b st :
  consistent st →
  fetches st !! fid = Some f → f_cont f = Broadcast b →
  f_done f = false → fetchAborted f st = None →
  settledSignature b (markDone fid st).
Proof.
  intros [Hp Hd Hsg Hinj Hc Ht Hf Hlt Hct] Hfid Hk Hnd Hab.
  destruct (Hf _ _ _ Hfid Hk) as (ctrl & Hsig & Hlive).
  assert (controllers st !! ctrl = Some false) as Hfalse.
  { pose proof (Hlt _ _ _ Hfid Hsig) as Hl. apply lookup_lt_is_Some_2 in Hl as [x Hx].
    unfold fetchAborted in Hab. rewrite Hsig in Hab. cbn [abortReason] in Hab.
    rewrite Hx in Hab. by destruct x. }
  pose proof (Hlive Hnd Hfalse) as Hs.
  split.
  - intros tid due H. destruct (Ht _ _ _ H) as (_ & _ & Hn). congruence.
  - intros fid' f' ctrl' H Hk' Hsig' Hnd' Hfalse'.
    destruct (markDone_lookup _ _ _ _ H) as (f0 & H0 & Hk0 & Hs0 & Hd0).
    destruct (decide (fid = fid')) as [->|Hne]; [congruence|].
    rewrite Hk0 in Hk'. rewrite Hs0 in Hsig'.
    destruct (Hf _ _ _ H0 Hk') as (ctrl0 & Hsig0 & Hlive0).
    assert (ctrl0 = ctrl') as -> by congruence.
    assert (requestSignals st !! b = Some ctrl') as Hs' by (apply Hlive0; [congruence|exact Hfalse']).
    assert (ctrl' = ctrl) as -> by congruence.
    apply Hne. by apply (Hct _ _ _ _ ctrl Hfid H0).
Qed.

(** A late call of the 500ms variant. *)
Lemma consistent_bypassed hash u o st :
  consistent st → consistent (bypassedState hash u o st).
Proof.
  intros [Hp Hd Hsg Hinj Hc Ht Hf Hlt Hct].
  split; unfold bypassedState; mproj; try done.
  - intros fid f b. rewrite lookup_snoc_Some. intros [[_ H]|[_ <-]] Hk; [|done].
    by apply (Hf _ _ _ H).
  - intros fid f ctrl. rewrite lookup_snoc_Some. intros [[_ H]|[_ <-]] Hsig.
    + by apply (Hlt _ _ _ H).
    + cbn in Hsig. by destruct (signal o).
  - intros fid fid' f f' ctrl. rewrite !lookup_snoc_Some.
    intros [[_ H]|[_ <-]] [[_ H']|[_ <-]] Hs1 Hs2; cbn in *;
      try (by destruct (signal o)).
    by apply (Hct _ _ _ _ ctrl H H').
Qed.

Lemma consistent_fireAbort s st :
  consistent st → consistent (V500.fireAbort s st).
Proof.
  intros Hcs. unfold V500.fireAbort.
  assert (consistent (set_abortListeners (filter (λ p, p.1 ≠ s)) st)) as H
    by (by eapply consistent_registry; [|exact Hcs]).
  revert H. generalize (set_abortListeners (filter (λ p, p.1 ≠ s)) st).
  induction (filter (λ p, p.1 = s) (abortListeners st)) as [|p l IH]; intros st' H; [done|].
  cbn [foldl]. apply IH. rewrite listenerAbort_eq.
  destruct (callers st' !! p.2); [by apply consistent_withdrawn|done].
Qed.

Lemma broadcast_not_aborted f b ctrl st :
  f_cont f = Broadcast b → f_signal f = Some (BatchSignal ctrl) →
  ∀ reason, fetchAborted f st = Some reason → reason = abortError.
Proof.
  intros Hk Hsig reason. unfold fetchAborted. rewrite Hsig. cbn [abortReason].
  destruct (controllers st !! ctrl) as [[]|]; congruence.
Qed.

Lemma consistent_step hash ev st st' :
  consistent st → V500.step hash ev st = Some st' → consistent st'.
Proof.
  intros Hcs. destruct ev as [u o|dt|tid|fid r|fid e|s e]; cbn [V500.step].
  - intros [= <-].
    destruct (requestSignals st !! hash u "otherOptions" (otherOptions o)) as [ctrl|] eqn:Hs.
    + rewrite (V500_batchFetch_late hash u o st ctrl Hs). by apply consistent_bypassed.
    + rewrite (V500_batchFetch_join hash u o st Hs). by apply consistent_joined.
  - intros [= <-]. by eapply consistent_registry; [|exact Hcs].
  - destruct (timers st !! tid) as [[due b]|] eqn:Htid; [|done].
    case_decide; [|done]. intros [= <-]. rewrite dispatchRequest_eq.
    by apply (consistent_dispatched tid due).
  - destruct (fetches st !! fid) as [f|] eqn:Hfid; [|done].
    destruct (f_done f) eqn:Hnd; [done|].
    destruct (fetchAborted f st) eqn:Hab; [done|]. intros [= <-].
    unfold V500.fetchFulfilled. destruct (f_cont f) as [b|c] eqn:Hk.
    + apply consistent_dispatchEvent; [by apply consistent_markDone|].
      by apply (settled_markDone fid f).
    + eapply consistent_registry; [|apply (consistent_markDone fid), Hcs]. done.
  - destruct (fetches st !! fid) as [f|] eqn:Hfid; [|done].
    destruct (f_done f) eqn:Hnd; [done|].
    assert (consistent (V500.fetchRejected f e (markDone fid st))
            ∨ ∃ reason, fetchAborted f st = Some reason ∧ reason ≠ e) as [H|H].
    { unfold V500.fetchRejected. destruct (f_cont f) as [b|c] eqn:Hk.
      - unfold V500.dispatchRequest_catch. case_decide as Hn.
        + left. by apply consistent_markDone.
        + destruct (fetchAborted f st) as [reason|] eqn:Hab.
          * right. exists reason. split; [done|]. intros <-.
            destruct (cs_fetch _ Hcs _ _ _ Hfid Hk) as (ctrl & Hsig & _).
            by rewrite (broadcast_not_aborted f b ctrl st Hk Hsig _ Hab) in Hn.
          * left. apply consistent_dispatchEvent; [by apply consistent_markDone|].
            by apply (settled_markDone fid f).
      - left. eapply consistent_registry; [|apply (consistent_markDone fid), Hcs]. done. }
    + destruct (fetchAborted f st); [case_decide|]; intros [= <-]; done.
    + destruct H as (reason & -> & Hne). by rewrite decide_False.
  - destruct (userAborted st !! s); intros [= <-]; [done|].
    apply consistent_fireAbort. by eapply consistent_registry; [|exact Hcs].
Qed.

Lemma consistent_run hash evs : ∀ st st',
  consistent st → V500.run hash evs st = Some st' → consistent st'.
Proof.
  induction evs as [|ev evs IH]; intros st st' Hcs; cbn [V500.run].
  - by intros [= <-].
  - destruct (V500.step hash ev st) as [st1|] eqn:Hstep; [|done].
    apply IH. by eapply consistent_step.
Qed.

(** The abort listener of the 1000ms variant. *)
Lemma V1000_onAbort_eq b s c st :
  runListener (V1000.onAbort b s c) st = abortedWith abortedOne abortedIsRegistered b s c st.
Proof.
  unfold runListener, V1000.onAbort, abortedWith, abortedIsRegistered.
  unfold V1000.updateCounter, V1000.counterEquals, V1000.unegisterRequest.
  destruct_state st.
  destruct (cn !! b) as [cnt|] eqn:Hc; mrun; [|reflexivity].
  rewrite lookup_insert_eq. fold (abortedOne cnt).
  cbn [field]. destruct (aborted (abortedOne cnt) =? registered (abortedOne cnt));
    mcases; reflexivity.
Qed.

Lemma V1000_listenerAbort_eq s c st :
  runListener (V1000.listenerAbort s c) st =
    match callers st !! c with
    | Some k => abortedWith abortedOne abortedIsRegistered (c_batch k) s c st
    | None => st
    end.
Proof.
  unfold V1000.listenerAbort. rewrite runListener_gets.
  destruct (callers st !! c) as [k|]; [|reflexivity].
  apply V1000_onAbort_eq.
Qed.

Lemma V1000_consistent_fireAbort s st :
  consistent st → consistent (V1000.fireAbort s st).
Proof.
  intros Hcs. unfold V1000.fireAbort.
  assert (consistent (set_abortListeners (filter (λ p, p.1 ≠ s)) st)) as H
    by (by eapply consistent_registry; [|exact Hcs]).
  revert H. generalize (set_abortListeners (filter (λ p, p.1 ≠ s)) st).
  induction (filter (λ p, p.1 = s) (abortListeners st)) as [|p l IH]; intros st' H; [done|].
  cbn [foldl]. apply IH. rewrite V1000_listenerAbort_eq.
  destruct (callers st' !! p.2); [|done].
  apply consistent_abortedWith; [|done].
  intros cnt Ha Hp Hfull. unfold abortedIsRegistered, abortedOne in *.
  cbn [registered aborted processed] in *. apply Nat.eqb_neq in Hfull. lia.
Qed.

Lemma V1000_consistent_step hash ev st st' :
  consistent st → V1000.step hash ev st = Some st' → consistent st'.
Proof.
  intros Hcs. destruct ev as [u o|dt|tid|fid r|fid e|s e].
  - cbn [V1000.step]. intros [= <-].
    destruct (requestSignals st !! hash u "options" (otherOptions o)) as [ctrl|] eqn:Hs.
    + by rewrite (V1000_batchFetch_late hash u o st ctrl Hs).
    + rewrite (V1000_batchFetch_join hash u o st Hs). by apply consistent_joined.
  - apply (consistent_step hash (EvAdvance dt)), Hcs.
  - apply (consistent_step hash (EvTimeout tid)), Hcs.
  - rewrite (V1000_step_resolve hash hash). by apply consistent_step.
  - rewrite (V1000_step_reject hash hash). by apply consistent_step.
  - cbn [V1000.step]. destruct (userAborted st !! s); intros [= <-]; [done|].
    apply V1000_consistent_fireAbort. by eapply consistent_registry; [|exact Hcs].
Qed.

Lemma V1000_consistent_run hash evs : ∀ st st',
  consistent st → V1000.run hash evs st = Some st' → consistent st'.
Proof.
  induction evs as [|ev evs IH]; intros st st' Hcs; cbn [V1000.run].
  - by intros [= <-].
  - destruct (V1000.step hash ev st) as [st1|] eqn:Hstep; [|done].
    apply IH. by eapply V1000_consistent_step.
Qed.

Lemma reachable_consistent hash st : reachable hash st → consistent st.
Proof.
  intros (evs & [H|H]).
  - exact (consistent_run hash evs init st consistent_init H).
  - exact (V1000_consistent_run hash evs init st consistent_init H).
Qed.

(** ** What holds in every reachable state *)

Lemma reachable_dispatchedState : reachable keylessHash dispatchedState.
Proof.
  exists [EvCall "/api" get; EvAdvance 500; EvTimeout 1]. left.
  vm_compute. reflexivity.
Qed.

(** X8: the tables are kept in step, in both variants.  In every state
    reachable from the initial one, whatever the calls, timers, completions
    and aborts that led to it, a signature has a payload exactly when it
    has a counter and exactly when it has a debounce entry, and it has a
    controller in [requestSignals] only if it has those: [registerRequest]
    writes the first three together, [dispatchRequest] adds the fourth to a
    registered batch only, and [unegisterRequest] deletes all four. *)
Theorem registry_tables_in_step
    (hash : string → string → list (string * string) → string) st b :
  reachable hash st →
  (is_Some (requestPayload st !! b) ↔ is_Some (requestCounter st !! b))
  ∧ (is_Some (requestDebounce st !! b) ↔ is_Some (requestCounter st !! b))
  ∧ (is_Some (requestSignals st !! b) → is_Some (requestCounter st !! b)).
Proof.
  intros Hr%reachable_consistent. split; [apply Hr|]. split; [apply Hr|].
  intros [ctrl Hs]. by apply (cs_signals _ Hr b ctrl).
Qed.

Lemma registry_tables_in_step_witness :
  reachable keylessHash dispatchedState
  ∧ is_Some (requestSignals dispatchedState !! "/api|method=GET;")
  ∧ is_Some (requestCounter dispatchedState !! "/api|method=GET;").
Proof.
  split; [apply reachable_dispatchedState|].
  assert (is_Some (requestSignals dispatchedState !! "/api|method=GET;")) as Hs
    by (exists 0; vm_compute; reflexivity).
  split; [exact Hs|].
  by apply (registry_tables_in_step keylessHash dispatchedState "/api|method=GET;"
              reachable_dispatchedState).
Defined.

(** X9: no counter is ever left at its maximum, in both variants.  In every
    reachable state each counter entry has at least one caller registered
    and both [aborted] and [processed] below [registered]: the listener
    whose update makes one of them reach [registered] deletes the entry in
    the same turn. *)
Theorem counter_below_registered
    (hash : string → string → list (string * string) → string) st b c :
  reachable hash st →
  requestCounter st !! b = Some c →
  0 < registered c ∧ aborted c < registered c ∧ processed c < registered c.
Proof.
  intros Hr%reachable_consistent Hc.
  destruct (cs_counter _ Hr _ _ Hc). lia.
Qed.

Lemma counter_below_registered_witness :
  reachable keylessHash dispatchedState
  ∧ requestCounter dispatchedState !! "/api|method=GET;"
    = Some {| registered := 1; aborted := 0; processed := 0 |}
  ∧ 0 < 1.
Proof.
  split; [apply reachable_dispatchedState|].
  assert (requestCounter dispatchedState !! "/api|method=GET;"
          = Some {| registered := 1; aborted := 0; processed := 0 |}) as Hc
    by (vm_compute; reflexivity).
  split; [exact Hc|].
  by destruct (counter_below_registered keylessHash dispatchedState _ _
                 reachable_dispatchedState Hc) as [H _].
Defined.

Lemma reachable_calledState : reachable keylessHash calledState.
Proof. exists [EvCall "/api" get]. left. vm_compute. reflexivity. Qed.

(** X10: a timer always finds the batch it was armed for, in both variants.
    In every reachable state a pending timer of a signature is the one
    [requestDebounce] holds for it, so a signature has at most one; the
    signature has not been dispatched; and its payload is registered, so
    that when the timer runs [dispatchRequest] makes the fetch for the
    registered url and options, under a fresh controller that it registers,
    and never falls back on the empty url. *)
Theorem timer_finds_its_batch
    (hash : string → string → list (string * string) → string) st tid due b :
  reachable hash st →
  timers st !! tid = Some (due, b) →
  requestDebounce st !! b = Some tid
  ∧ requestSignals st !! b = None
  ∧ (∀ tid' due', timers st !! tid' = Some (due', b) → tid' = tid)
  ∧ ∃ p, requestPayload st !! b = Some p
         ∧ ∀ dt, due ≤ clock st + dt →
             ∃ st', V500.run hash [EvAdvance dt; EvTimeout tid] st = Some st'
                    ∧ V1000.run hash [EvAdvance dt; EvTimeout tid] st = Some st'
                    ∧ fetches st' =
                        fetches st ++
                          [{| f_url := url p; f_options := options p;
                              f_signal := Some (BatchSignal (length (controllers st)));
                              f_cont := Broadcast b; f_done := false |}]
                    ∧ requestSignals st' !! b = Some (length (controllers st)).
Proof.
  intros Hr%reachable_consistent Htid.
  destruct (cs_timer _ Hr _ _ _ Htid) as (_ & Hd & Hs).
  split; [done|]. split; [done|]. split.
  { intros tid' due' H. destruct (cs_timer _ Hr _ _ _ H) as (_ & Hd' & _). congruence. }
  assert (is_Some (requestPayload st !! b)) as [p Hp].
  { apply (cs_payload _ Hr), (cs_debounce _ Hr). by rewrite Hd. }
  exists p. split; [done|]. intros dt Hdue.
  assert (V500.run hash [EvAdvance dt; EvTimeout tid] st
          = Some (dispatched b (set_timers (delete tid) (set_clock (λ t, t + dt) st)))) as Hrun.
  { cbn [V500.run V500.step]. mproj. rewrite Htid, decide_True by done.
    by rewrite dispatchRequest_eq. }
  eexists. split; [exact Hrun|]. split; [exact Hrun|].
  unfold dispatched. mproj. rewrite Hp. split; [done|]. apply lookup_insert_eq.
Qed.

Lemma timer_finds_its_batch_witness :
  reachable keylessHash calledState
  ∧ timers calledState !! 1 = Some (500, "/api|method=GET;")
  ∧ requestDebounce calledState !! "/api|method=GET;" = Some 1
  ∧ requestSignals calledState !! "/api|method=GET;" = None.
Proof.
  assert (timers calledState !! 1 = Some (500, "/api|method=GET;")) as Ht
    by (vm_compute; reflexivity).
  split; [apply reachable_calledState|]. split; [exact Ht|].
  destruct (timer_finds_its_batch keylessHash calledState 1 500 "/api|method=GET;"
              reachable_calledState Ht) as (Hd & Hs & _).
  by split.
Defined.

(** X11: the coordinator never has two fetches in flight for one signature,
    in either variant.  In every reachable state, two fetches made by
    [dispatchRequest] for the same signature that both can still complete
    with an outcome of the transport are one and the same fetch; its
    controller is the one [requestSignals] holds for the signature, and it
    is not aborted. *)
Theorem one_fetch_in_flight
    (hash : string → string → list (string * string) → string) st b fid fid' :
  reachable hash st →
  inFlight b st fid →
  inFlight b st fid' →
  fid = fid'
  ∧ ∃ f ctrl, fetches st !! fid = Some f
              ∧ f_signal f = Some (BatchSignal ctrl)
              ∧ requestSignals st !! b = Some ctrl
              ∧ controllers st !! ctrl = Some false.
Proof.
  intros Hr%reachable_consistent (f & Hf & Hk & Hnd & Hab) (f' & Hf' & Hk' & Hnd' & Hab').
  assert (Hlive : ∀ fid f, fetches st !! fid = Some f → f_cont f = Broadcast b →
            f_done f = false → fetchAborted f st = None →
            ∃ ctrl, f_signal f = Some (BatchSignal ctrl)
                    ∧ requestSignals st !! b = Some ctrl
                    ∧ controllers st !! ctrl = Some false).
  { intros fid0 f0 H0 Hk0 Hnd0 Hab0.
    destruct (cs_fetch _ Hr _ _ _ H0 Hk0) as (ctrl & Hsig & Hl).
    assert (controllers st !! ctrl = Some false) as Hfalse.
    { pose proof (cs_ctrl_lt _ Hr _ _ _ H0 Hsig) as Hlt.
      apply lookup_lt_is_Some_2 in Hlt as [x Hx].
      unfold fetchAborted in Hab0. rewrite Hsig in Hab0. cbn [abortReason] in Hab0.
      rewrite Hx in Hab0. by destruct x. }
    exists ctrl. split; [done|]. split; [by apply Hl|done]. }
  destruct (Hlive _ _ Hf Hk Hnd Hab) as (ctrl & Hsig & Hs & Hfalse).
  destruct (Hlive _ _ Hf' Hk' Hnd' Hab') as (ctrl' & Hsig' & Hs' & _).
  assert (ctrl' = ctrl) as -> by congruence.
  split; [by apply (cs_ctrl _ Hr _ _ _ _ ctrl Hf Hf')|].
  by exists f, ctrl.
Qed.

Lemma one_fetch_in_flight_witness :
  reachable keylessHash dispatchedState
  ∧ inFlight "/api|method=GET;" dispatchedState 0
  ∧ requestSignals dispatchedState !! "/api|method=GET;" = Some 0.
Proof.
  assert (inFlight "/api|method=GET;" dispatchedState 0) as Hin.
  { eexists. split; [vm_compute; reflexivity|]. repeat split. }
  split; [apply reachable_dispatchedState|]. split; [exact Hin|].
  destruct (one_fetch_in_flight keylessHash dispatchedState "/api|method=GET;" 0 0
              reachable_dispatchedState Hin Hin) as (_ & f & ctrl & Hf & Hsig & Hs & _).
  vm_compute in Hf. injection Hf as <-. cbn in Hsig. injection Hsig as <-. exact Hs.
Defined.

(** ** Signatures apart *)

Lemma kept_refl b st : kept b st st.
Proof. by repeat split. Qed.

Lemma kept_trans b st1 st2 st3 : kept b st1 st2 → kept b st2 st3 → kept b st1 st3.
Proof.
  intros [(Hp & Hc & Hd & Hs & Hk) Hb] [(Hp' & Hc' & Hd' & Hs' & Hk') Hb'].
  split; [|intros c; by rewrite Hb', Hb].
  split; [congruence|]. split; [congruence|]. split; [congruence|]. split; [congruence|].
  intros c k H Hbk. apply Hk'; [by apply Hk|done].
Qed.

Lemma kept_callers b st (f : State → State) c x :
  (∀ k, callers st !! c = Some k → c_batch k ≠ b) →
  requestPayload (f st) = requestPayload st →
  requestCounter (f st) = requestCounter st →
  requestDebounce (f st) = requestDebounce st →
  requestSignals (f st) = requestSignals st →
  callers (f st) = alter (settle x) c (callers st) ∨ callers (f st) = callers st →
  kept b st (f st).
Proof.
  intros Hc Hp Hn Hd Hs Hcs. split; [split; [by rewrite Hp|]|].
  - split; [by rewrite Hn|]. split; [by rewrite Hd|]. split; [by rewrite Hs|].
    intros c' k H Hbk. destruct Hcs as [->| ->]; [|done].
    rewrite list_lookup_alter_ne; [done|]. intros ->. by apply (Hc k).
  - intros c'. destruct Hcs as [->| ->]; [|done].
    rewrite list_lookup_alter. case_decide; [subst c'|done].
    by destruct (callers st !! c).
Qed.

(** An abort listener of a caller of another signature. *)
Lemma kept_abortedWith upd full b b' s c st :
  b' ≠ b →
  (∀ k, callers st !! c = Some k → c_batch k ≠ b) →
  kept b st (abortedWith upd full b' s c st).
Proof.
  intros Hne Hc. unfold abortedWith.
  destruct (requestCounter st !! b') as [cnt|]; [|by repeat split].
  cbn zeta.
  set (st3 := if full (upd cnt) then _ else _).
  assert (kept b st st3) as H3.
  { unfold st3. destruct (full (upd cnt)).
    - split; [|by destruct (requestSignals st !! b'), (requestDebounce st !! b')].
      unfold retired, apart.
      destruct (requestSignals st !! b'), (requestDebounce st !! b'); unfold id; mproj;
        rewrite !lookup_delete_ne, ?lookup_insert_ne by done; done.
    - split; [|done]. unfold apart. mproj. rewrite ?lookup_insert_ne by done. done. }
  destruct (userAborted st !! s) as [e|]; [|done].
  apply (kept_trans _ _ st3); [done|].
  apply (kept_callers b st3 (set_callers (alter (settle (Reject e)) c)) c (Reject e));
    try done; [|by left].
  intros k Hk. destruct H3 as [_ Hb]. specialize (Hb c). rewrite Hk in Hb.
  destruct (callers st !! c) as [k0|] eqn:Hk0; [|done].
  injection Hb as ->. by apply Hc.
Qed.

(** A response or failure listener of a caller of another signature. *)
Lemma kept_delivered b b' c x unl st :
  b' ≠ b →
  (∀ k, callers st !! c = Some k → c_batch k ≠ b) →
  registry (unl st) = registry st → callers (unl st) = callers st →
  kept b st (delivered b' c x unl st).
Proof.
  intros Hne Hc Hu Hcu. unfold registry in Hu. injection Hu as Hp Hn Hd Hs _ _ _ _.
  assert (kept b st (unl st)) as H1.
  { split; [|by rewrite Hcu]. unfold apart. by rewrite Hp, Hn, Hd, Hs, Hcu. }
  unfold delivered.
  destruct (requestCounter st !! b') as [cnt|].
  2: { apply (kept_trans _ _ (unl st)); [done|]. by repeat split. }
  set (st3 := if isMax Processed (bump Processed cnt) then _ else _).
  assert (kept b st st3) as H3.
  { apply (kept_trans _ _ (unl st)); [done|]. unfold st3.
    destruct (isMax _ _); (split; [|done]); unfold retired, apart; mproj;
      rewrite ?lookup_delete_ne, ?lookup_insert_ne by done; done. }
  apply (kept_trans _ _ st3); [done|].
  apply (kept_callers b st3 (set_callers (alter (settle x) c)) c x); try done; [|by left].
  intros k Hk. destruct H3 as [_ Hb]. specialize (Hb c). rewrite Hk in Hb.
  destruct (callers st !! c) as [k0|] eqn:Hk0; [|done].
  injection Hb as ->. by apply Hc.
Qed.

Lemma isCallerOf_batch b st c :
  isCallerOf b st c = true → ∀ k, callers st !! c = Some k → c_batch k = b.
Proof.
  unfold isCallerOf. intros H k Hk. rewrite Hk in H. by apply bool_decide_eq_true in H.
Qed.

Lemma kept_callListeners b ev snapshot : ∀ st,
  batchOf ev ≠ b →
  kept b st (callListeners (listenersOf ev) (broadcastListener ev) snapshot st).
Proof.
  induction snapshot as [|c rest IH]; intros st Hne; [apply kept_refl|].
  cbn [callListeners]. rewrite broadcastListener_eq.
  destruct (decide (c ∈ listenersOf ev st)); [|by apply IH].
  destruct (isCallerOf (batchOf ev) st c) eqn:Hc; [|by apply IH].
  eapply kept_trans; [|by apply IH].
  apply kept_delivered; [done| |apply registry_unlisten|by destruct ev].
  intros k Hk. by rewrite (isCallerOf_batch _ _ _ Hc k Hk).
Qed.

Lemma kept_dispatchEvent b ev st :
  batchOf ev ≠ b → kept b st (V500.dispatchEvent ev st).
Proof.
  intros Hne. rewrite dispatchEvent_eq.
  apply (kept_trans _ _ (set_events (λ l, l ++ [ev]) st)); [by repeat split|].
  by apply kept_callListeners.
Qed.

Lemma kept_abort_loop b (step : nat → State → State) (S : list (nat * nat)) st0 :
  (∀ c acc, kept b st0 acc →
            (∀ k, callers st0 !! c = Some k → c_batch k ≠ b) →
            kept b acc (step c acc)) →
  (∀ p k, p ∈ S → callers st0 !! p.2 = Some k → c_batch k ≠ b) →
  ∀ acc, kept b st0 acc → kept b st0 (foldl (λ acc p, step p.2 acc) acc S).
Proof.
  intros Hstep. induction S as [|p S IH]; intros HS acc Hk; [done|].
  cbn [foldl]. apply IH.
  - intros p' k Hp'. apply HS. by apply elem_of_cons; right.
  - apply (kept_trans _ _ acc); [done|]. apply Hstep; [done|].
    intros k. apply HS. by apply elem_of_cons; left.
Qed.

Lemma kept_listenerAbort upd full b s c st0 acc :
  kept b st0 acc →
  (∀ k, callers st0 !! c = Some k → c_batch k ≠ b) →
  kept b acc (match callers acc !! c with
              | Some k => abortedWith upd full (c_batch k) s c acc
              | None => acc
              end).
Proof.
  intros [_ Hb] Hc. specialize (Hb c).
  destruct (callers acc !! c) as [k|] eqn:Hk; [|apply kept_refl].
  destruct (callers st0 !! c) as [k0|] eqn:Hk0; [|done].
  injection Hb as Hb. apply kept_abortedWith.
  - rewrite Hb. by apply Hc.
  - intros k' Hk'. assert (k' = k) as -> by congruence. rewrite Hb. by apply Hc.
Qed.

Lemma apart_joined d b b' u o st :
  b' ≠ b → apart b st (joinedState d b' u o st).
Proof.
  intros Hne. unfold apart. cbn [joinedState requestPayload requestCounter
    requestDebounce requestSignals callers].
  rewrite !lookup_insert_ne by done.
  split; [by destruct (requestPayload st !! b'); rewrite ?lookup_insert_ne|].
  do 3 (split; [done|]). intros c k H _. by apply lookup_app_l_Some.
Qed.

Lemma apart_fetch_settled b st fid c x :
  (∀ k, callers st !! c = Some k → c_batch k ≠ b) →
  apart b st (set_callers (alter (settle x) c) (markDone fid st)).
Proof.
  intros Hc. unfold apart, markDone. mproj. do 4 (split; [done|]).
  intros c' k H Hb. rewrite list_lookup_alter_ne; [done|]. intros ->. by apply (Hc k).
Qed.

Lemma apart_step hash ev st st' b :
  V500.step hash ev st = Some st' →
  ¬ touches hash "otherOptions" st ev b →
  apart b st st'.
Proof.
  destruct ev as [u o|dt|tid|fid r|fid e|s e]; cbn [V500.step touches]; intros Hstep Hno.
  - injection Hstep as <-.
    destruct (requestSignals st !! hash u "otherOptions" (otherOptions o)) as [ctrl|] eqn:Hs.
    + rewrite (V500_batchFetch_late hash u o st ctrl Hs). unfold apart, bypassedState. mproj.
      do 4 (split; [done|]). intros c k H _. by apply lookup_app_l_Some.
    + rewrite (V500_batchFetch_join hash u o st Hs). by apply apart_joined.
  - injection Hstep as <-. by repeat split.
  - destruct (timers st !! tid) as [[due b']|] eqn:Htid; [|done].
    case_decide; [|done]. injection Hstep as <-. rewrite dispatchRequest_eq.
    assert (b' ≠ b) by (intros ->; apply Hno; by exists due).
    unfold apart, dispatched. mproj. by rewrite lookup_insert_ne.
  - destruct (fetches st !! fid) as [f|] eqn:Hfid; [|done].
    destruct (f_done f); [done|]. destruct (fetchAborted f st); [done|].
    injection Hstep as <-. unfold V500.fetchFulfilled.
    destruct (f_cont f) as [b'|c] eqn:Hk.
    + assert (b' ≠ b) by (intros ->; apply Hno; exists f; split; [done|by left]).
      apply (kept_trans b st (markDone fid st)); [by repeat split|].
      by apply kept_dispatchEvent.
    + apply apart_fetch_settled. intros k Hc Hb. apply Hno.
      exists f. split; [done|]. right. by exists c, k.
  - destruct (fetches st !! fid) as [f|] eqn:Hfid; [|done].
    destruct (f_done f); [done|].
    assert (apart b st (V500.fetchRejected f e (markDone fid st))) as Hap.
    { unfold V500.fetchRejected. destruct (f_cont f) as [b'|c] eqn:Hk.
      - assert (b' ≠ b) by (intros ->; apply Hno; exists f; split; [done|by left]).
        unfold V500.dispatchRequest_catch. case_decide; [by repeat split|].
        apply (kept_trans b st (markDone fid st)); [by repeat split|].
        by apply kept_dispatchEvent.
      - apply apart_fetch_settled. intros k Hc Hb. apply Hno.
        exists f. split; [done|]. right. by exists c, k. }
    destruct (fetchAborted f st); [case_decide|]; first [done | by injection Hstep as <-].
  - destruct (userAborted st !! s); injection Hstep as <-; [by repeat split|].
    unfold V500.fireAbort.
    set (st1 := set_abortListeners _ (set_userAborted _ st)).
    apply (kept_trans b st st1); [by repeat split|].
    apply (kept_abort_loop b (λ c acc, runListener (V500.listenerAbort s c) acc)).
    + intros c acc Hk Hc. rewrite listenerAbort_eq.
      by apply (kept_listenerAbort (bump Aborted) (isMax Aborted) b s c st1).
    + intros [s' c] k [Heq Hin]%list_elem_of_filter Hc Hb. cbn in *. subst s'.
      apply Hno. by exists c, k.
    + apply kept_refl.
Qed.

Lemma V1000_apart_step hash ev st st' b :
  V1000.step hash ev st = Some st' →
  ¬ touches hash "options" st ev b →
  apart b st st'.
Proof.
  destruct ev as [u o|dt|tid|fid r|fid e|s e]; intros Hstep Hno.
  - cbn [V1000.step touches] in *. injection Hstep as <-.
    destruct (requestSignals st !! hash u "options" (otherOptions o)) as [ctrl|] eqn:Hs.
    + rewrite (V1000_batchFetch_late hash u o st ctrl Hs). by repeat split.
    + rewrite (V1000_batchFetch_join hash u o st Hs). by apply apart_joined.
  - by apply (apart_step hash (EvAdvance dt)).
  - by apply (apart_step hash (EvTimeout tid)).
  - rewrite (V1000_step_resolve hash hash) in Hstep.
    by apply (apart_step hash (EvFetchResolve fid r)).
  - rewrite (V1000_step_reject hash hash) in Hstep.
    by apply (apart_step hash (EvFetchReject fid e)).
  - cbn [V1000.step touches] in *.
    destruct (userAborted st !! s); injection Hstep as <-; [by repeat split|].
    unfold V1000.fireAbort.
    set (st1 := set_abortListeners _ (set_userAborted _ st)).
    apply (kept_trans b st st1); [by repeat split|].
    apply (kept_abort_loop b (λ c acc, runListener (V1000.listenerAbort s c) acc)).
    + intros c acc Hk Hc. rewrite V1000_listenerAbort_eq.
      by apply (kept_listenerAbort abortedOne abortedIsRegistered b s c st1).
    + intros [s' c] k [Heq Hin]%list_elem_of_filter Hc Hb. cbn in *. subst s'.
      apply Hno. by exists c, k.
    + apply kept_refl.
Qed.

(** X12: signatures do not interfere, in either variant.  A turn that is not
    about a signature (not a call that hashes to it, not its timer, not a
    fetch made for it or for one of its callers, not the abort of a signal
    one of its callers listens to) leaves its four table entries and the
    promises of all its callers as they were, whatever the state: every
    listener checks the [batchId] of the event against its own, and the
    tables are only ever read and written under the [batchId] at hand. *)
Theorem signatures_do_not_interfere
    (hash : string → string → list (string * string) → string) ev st st' b :
  (V500.step hash ev st = Some st' ∧ ¬ touches hash "otherOptions" st ev b)
  ∨ (V1000.step hash ev st = Some st' ∧ ¬ touches hash "options" st ev b) →
  requestPayload st' !! b = requestPayload st !! b
  ∧ requestCounter st' !! b = requestCounter st !! b
  ∧ requestDebounce st' !! b = requestDebounce st !! b
  ∧ requestSignals st' !! b = requestSignals st !! b
  ∧ ∀ c k, callers st !! c = Some k → c_batch k = b → callers st' !! c = Some k.
Proof.
  intros [[Hstep Hno]|[Hstep Hno]].
  - by apply (apart_step hash ev).
  - by apply (V1000_apart_step hash ev).
Qed.

(** The only caller of ["/users"] aborts: that batch is cancelled, the
    batch of ["/api"] is as it was. *)
Lemma signatures_do_not_interfere_witness :
  ∃ st',
    V500.step sampleHash (EvAbort 8 abortError) twoBatches = Some st'
    ∧ requestCounter twoBatches !! usersGet500
      = Some {| registered := 1; aborted := 0; processed := 0 |}
    ∧ requestCounter st' !! usersGet500 = None
    ∧ requestCounter st' !! apiGet500
      = Some {| registered := 1; aborted := 0; processed := 0 |}.
Proof.
  set (st' := default init (V500.step sampleHash (EvAbort 8 abortError) twoBatches)).
  assert (Hstep : V500.step sampleHash (EvAbort 8 abortError) twoBatches = Some st')
    by (vm_compute; reflexivity).
  exists st'. split; [exact Hstep|].
  split; [vm_compute; reflexivity|]. split; [vm_compute; reflexivity|].
  destruct (signatures_do_not_interfere sampleHash (EvAbort 8 abortError)
              twoBatches st' apiGet500) as (_ & Hc & _).
  - left. split; [exact Hstep|]. intros (c & k & Hin & Hk & Hb).
    assert (abortListeners twoBatches = [(7, 0); (8, 1)]) as Hal by (vm_compute; reflexivity).
    rewrite Hal in Hin.
    apply elem_of_cons in Hin as [Hin|Hin]; [discriminate|].
    apply list_elem_of_singleton in Hin. injection Hin as ->.
    vm_compute in Hk. injection Hk as <-. vm_compute in Hb. discriminate.
  - rewrite Hc. vm_compute. reflexivity.
Defined.

(** ** The abort listener of the 1000ms variant *)

(** X13: in the 1000ms variant the abort listener cancels the batch exactly
    when one caller is registered.  It sets [aborted] to 1 and compares it
    with [registered]: with one caller registered it aborts the batch's
    controller if there is one, clears the timer and deletes the four
    entries; with more it leaves the entry with [aborted] at 1, however many
    callers have aborted, and timer, controller and the other tables as
    they were.  In both cases it takes its two window listeners off and
    calls [reject] on its own promise with the reason of its signal. *)
Theorem v1000_abort_cancels_only_single_caller_batch b s c st cnt :
  requestCounter st !! b = Some cnt →
  (registered cnt = 1 →
     requestPayload (runListener (V1000.onAbort b s c) st) !! b = None
     ∧ requestCounter (runListener (V1000.onAbort b s c) st) !! b = None
     ∧ requestDebounce (runListener (V1000.onAbort b s c) st) !! b = None
     ∧ requestSignals (runListener (V1000.onAbort b s c) st) !! b = None
     ∧ (∀ tid, requestDebounce st !! b = Some tid →
               timers (runListener (V1000.onAbort b s c) st) !! tid = None)
     ∧ (∀ ctrl, requestSignals st !! b = Some ctrl →
                controllers (runListener (V1000.onAbort b s c) st)
                = <[ctrl := true]> (controllers st)))
  ∧ (registered cnt ≠ 1 →
       requestCounter (runListener (V1000.onAbort b s c) st)
       = <[b := {| registered := registered cnt; aborted := 1;
                   processed := processed cnt |}]> (requestCounter st)
       ∧ requestPayload (runListener (V1000.onAbort b s c) st) = requestPayload st
       ∧ requestDebounce (runListener (V1000.onAbort b s c) st) = requestDebounce st
       ∧ requestSignals (runListener (V1000.onAbort b s c) st) = requestSignals st
       ∧ timers (runListener (V1000.onAbort b s c) st) = timers st
       ∧ controllers (runListener (V1000.onAbort b s c) st) = controllers st)
  ∧ thenListeners (runListener (V1000.onAbort b s c) st) = remove c (thenListeners st)
  ∧ catchListeners (runListener (V1000.onAbort b s c) st) = remove c (catchListeners st)
  ∧ (∀ e, userAborted st !! s = Some e →
          callers (runListener (V1000.onAbort b s c) st)
          = alter (settle (Reject e)) c (callers st)).
Proof.
  intros Hcnt. rewrite V1000_onAbort_eq. unfold abortedWith. rewrite Hcnt. cbn zeta.
  unfold abortedIsRegistered, abortedOne, retired. cbn [aborted registered].
  split; [|split].
  - intros ->. cbn [Nat.eqb].
    destruct (userAborted st !! s), (requestSignals st !! b) eqn:Hs,
      (requestDebounce st !! b) eqn:Hd; unfold id; mproj;
      rewrite !lookup_delete_eq; repeat split; try done;
      intros ? [= <-]; by rewrite ?lookup_delete_eq.
  - intros Hne. destruct (Nat.eqb_spec 1 (registered cnt)); [lia|].
    by destruct (userAborted st !! s).
  - destruct (1 =? registered cnt);
      destruct (userAborted st !! s), (requestSignals st !! b),
        (requestDebounce st !! b); unfold id; mproj; repeat split; try done;
      by intros ? [= <-].
Qed.

(** Two callers have coalesced and the first aborts: the batch goes on. *)
Lemma v1000_abort_cancels_only_single_caller_batch_witness :
  requestCounter twoJoined1000 !! apiGet1000
    = Some {| registered := 2; aborted := 0; processed := 0 |}
  ∧ timers (runListener (V1000.onAbort apiGet1000 7 0) twoJoined1000)
    = timers twoJoined1000
  ∧ timers twoJoined1000 !! 2 = Some (1000, apiGet1000).
Proof.
  assert (requestCounter twoJoined1000 !! apiGet1000
          = Some {| registered := 2; aborted := 0; processed := 0 |}) as Hc
    by (vm_compute; reflexivity).
  split; [exact Hc|].
  destruct (v1000_abort_cancels_only_single_caller_batch apiGet1000 7 0 twoJoined1000 _ Hc)
    as (_ & Hmore & _).
  destruct Hmore as (_ & _ & _ & _ & Ht & _); [cbn; lia|].
  split; [exact Ht|]. vm_compute. reflexivity.
Defined.

(** ** What a partial cancellation leaves behind *)

Lemma live_count (K : gmap nat Error) c0 n :
  (∀ c, is_Some (K !! c) → c0 ≤ c < c0 + n) →
  length (filter (λ c, K !! c = None) (seq c0 n)) + size K = n.
Proof.
  intros Hdom.
  assert (NoDup (filter (λ c, K !! c = None) (seq c0 n))) as Hnd
    by apply NoDup_filter, NoDup_seq.
  rewrite <- (size_list_to_set (C := gset nat)) by done.
  rewrite <- (size_dom (D := gset nat) K).
  assert (dom K ⊆ (list_to_set (seq c0 n) : gset nat)) as Hsub.
  { intros c Hc%elem_of_dom. apply elem_of_list_to_set, elem_of_seq. by apply Hdom. }
  assert ((list_to_set (filter (λ c, K !! c = None) (seq c0 n)) : gset nat)
          = list_to_set (seq c0 n) ∖ dom K) as ->.
  { apply set_eq. intros c.
    rewrite elem_of_list_to_set, list_elem_of_filter, elem_of_difference,
      elem_of_list_to_set, elem_of_dom, <- eq_None_not_Some. tauto. }
  rewrite size_difference by done.
  apply subseteq_size in Hsub.
  rewrite size_list_to_set, length_seq in * by apply NoDup_seq. lia.
Qed.

(** X14: in the 500ms variant a batch in which some callers withdrew and the
    others received the outcome is still registered when its last caller has
    been served.  The callers joined a signature with nothing registered;
    the signals aborted were the callers' own (not aborted before the batch,
    no abort listener of a caller from before the batch on them); the fetch
    completed with a response or an error that is not an abort error, no
    listener of a caller from before the batch being left on the channel of
    that outcome.  The abort listener counts a withdrawal in [aborted] only
    and the outcome listeners count in [processed] only, so with [a >= 1]
    callers withdrawn and [p >= 1] served the entry is left at
    [aborted = a], [processed = p], [a + p = registered]: neither count has
    reached [registered], the four entries are still there, with the
    controller of the completed fetch in [requestSignals], and a call with
    the same url and options made in that state takes the late path and
    makes a fetch of its own. *)
Theorem partial_cancellation_keeps_entry
    (hash : string → string → list (string * string) → string)
    u other joins evs st st1 st2 st3 tid i0 s0 i1 s1 dt out :
  quiescent (hash u "otherOptions" other) st →
  Forall (isJoin u other) joins →
  V500.run hash joins st = Some st1 →
  requestDebounce st1 !! hash u "otherOptions" other = Some tid →
  Forall (isService st tid) evs →
  V500.run hash evs st1 = Some st2 →
  joinSignals joins !! i0 = Some s0 →
  (∀ s e, EvAbort s e ∈ evs → s0 ≠ Some s) →
  joinSignals joins !! i1 = Some (Some s1) →
  is_Some (abortsOf ∅ evs !! s1) →
  broadcastable out →
  unheard (hash u "otherOptions" other) out st →
  V500.run hash
    ((if hasTimeout evs then [] else [EvAdvance dt; EvTimeout tid])
       ++ [completion (length (fetches st)) out]) st2 = Some st3 →
  ∃ a p,
    0 < a ∧ 0 < p ∧ a + p = length (joinSignals joins)
    ∧ requestCounter st3 !! hash u "otherOptions" other
      = Some {| registered := length (joinSignals joins); aborted := a; processed := p |}
    ∧ requestPayload st3 !! hash u "otherOptions" other
      = Some {| url := u; options := other |}
    ∧ requestDebounce st3 !! hash u "otherOptions" other = Some tid
    ∧ requestSignals st3 !! hash u "otherOptions" other = Some (length (controllers st))
    ∧ ∀ o, otherOptions o = other →
           V500.batchFetch hash u o st3
           = (Ok (length (callers st3)), bypassedState hash u o st3).
Proof.
  intros Hq Hjoins Hrun1 Hd Hevs Hrun2 Hi0 Hlive Hi1 Hab1 Hout Hun0 Hrun3.
  set (b := hash u "otherOptions" other) in *.
  destruct (serving_after hash u other joins evs st st1 st2 tid i0 s0
              Hq Hjoins Hrun1 Hd Hevs Hi0 Hlive Hrun2) as (due & Htm1 & HS & HA0).
  fold b in HS. destruct HS as (K & HB & [HK Hdom] & _ & _).
  unfold phaseAfter in HB. cbn [tidOf] in HB.
  (* the batch is in flight when its fetch completes *)
  assert (∃ st', Batch b u other st (joinSignals joins) K (InFlight tid) st'
                 ∧ V500.step hash (completion (length (fetches st)) out) st' = Some st3)
    as (st' & HB' & Hstep).
  { destruct (hasTimeout evs).
    - exists st2. split; [done|]. cbn [app V500.run] in Hrun3.
      by destruct (V500.step hash _ st2).
    - destruct (decide (due ≤ clock st2 + dt)) as [Hdue|Hdue].
      2: { exfalso. cbn [app V500.run V500.step] in Hrun3. revert Hrun3. mproj.
           destruct (batch_phase _ _ _ _ _ _ _ _ HB) as (_ & _ & -> & _).
           by rewrite decide_False. }
      destruct (timeout_step hash b u other st _ K tid due st2 dt HB Hdue) as [Hrun HB3].
      eexists. split; [exact HB3|].
      rewrite run_app, Hrun in Hrun3. cbn [mbind option_bind V500.run] in Hrun3.
      by destruct (V500.step hash _ _). }
  destruct (batch_broadcast hash b u other st Hq _ K tid st' out HB' Hout Hun0)
    as [Hstep' [_ _ _ Br]].
  rewrite Hstep in Hstep'. injection Hstep' as Hst3. rewrite <- Hst3 in Br. clear Hst3.
  assert (batchOf (eventOf b out) = b) as Hbev by (by destruct out).
  rewrite Hbev in Br.
  pose proof (live_count K (length (callers st)) (length (joinSignals joins)) Hdom) as Hcount.
  set (L := filter (λ c, K !! c = None) _) in *.
  assert (0 < size K) as Hpos.
  { destruct (size K) eqn:Hsz; [|lia]. apply map_size_empty_inv in Hsz.
    pose proof (HK _ _ Hi1) as HK1. rewrite Hsz, lookup_empty in HK1. cbn in HK1.
    destruct Hab1 as [x Hx]. congruence. }
  assert (0 < length L) as HposL.
  { assert (length (callers st) + i0 ∈ L) as Hin.
    { apply list_elem_of_filter. split; [by rewrite (HK _ _ Hi0)|].
      apply elem_of_seq. apply lookup_lt_Some in Hi0. lia. }
    destruct L; [by apply elem_of_nil in Hin|cbn; lia]. }
  rewrite bool_decide_false in Br by (cbn [processed registered]; lia).
  destruct Br as (Hr1 & Hr2 & Hr3 & Hr4).
  destruct (batch_phase _ _ _ _ _ _ _ _ HB') as (Hs' & Hd' & _).
  exists (size K), (length L). split; [done|]. split; [done|]. split; [lia|].
  split; [by rewrite Hr1, lookup_insert_eq|].
  split; [rewrite Hr2; apply (batch_payload _ _ _ _ _ _ _ _ HB')|].
  split; [by rewrite Hr3|].
  assert (requestSignals st3 !! b = Some (length (controllers st))) as Hs3
    by (by rewrite Hr4).
  split; [done|]. intros o Ho.
  apply (V500_batchFetch_late hash u o st3 (length (controllers st))).
  by rewrite Ho.
Qed.

(** Three callers, two withdraw, the third receives the response: the entry
    stays at 2 aborted and 1 processed of 3 registered. *)
Lemma partial_cancellation_keeps_entry_witness :
  quiescent apiGet500 init
  ∧ Forall (isJoin "/api" [("method", "GET")]) threeCalls
  ∧ Forall (isService init 3) twoWithdraw
  ∧ ∃ st3,
      V500.run sampleHash (threeCalls ++ twoWithdraw ++ [EvFetchResolve 0 ok200]) init
        = Some st3
      ∧ requestCounter st3 !! apiGet500
        = Some {| registered := 3; aborted := 2; processed := 1 |}
      ∧ requestSignals st3 !! apiGet500 = Some 0.
Proof.
  assert (Hj : Forall (isJoin "/api" [("method", "GET")]) threeCalls)
    by (repeat constructor).
  assert (Hs : Forall (isService init 3) twoWithdraw).
  { repeat constructor; intros c Hc; by apply elem_of_nil in Hc. }
  split; [apply quiescent_init|]. do 2 (split; [done|]).
  set (st1 := default init (V500.run sampleHash threeCalls init)).
  set (st2 := default init (V500.run sampleHash twoWithdraw st1)).
  set (st3 := default init (V500.run sampleHash [EvFetchResolve 0 ok200] st2)).
  assert (H1 : V500.run sampleHash threeCalls init = Some st1) by (vm_compute; reflexivity).
  assert (H2 : V500.run sampleHash twoWithdraw st1 = Some st2) by (vm_compute; reflexivity).
  assert (H3 : V500.run sampleHash [EvFetchResolve 0 ok200] st2 = Some st3)
    by (vm_compute; reflexivity).
  assert (Hd : requestDebounce st1 !! sampleHash "/api" "otherOptions" [("method", "GET")]
               = Some 3) by (vm_compute; reflexivity).
  assert (Hi : joinSignals threeCalls !! 1 = Some None) by reflexivity.
  assert (Hi1 : joinSignals threeCalls !! 0 = Some (Some 7)) by reflexivity.
  assert (Hlive : ∀ s e, EvAbort s e ∈ twoWithdraw → (None : option nat) ≠ Some s)
    by (intros; discriminate).
  assert (Hab : is_Some (abortsOf ∅ twoWithdraw !! 7))
    by (exists abortError; vm_compute; reflexivity).
  destruct (partial_cancellation_keeps_entry sampleHash "/api" [("method", "GET")]
              threeCalls twoWithdraw init st1 st2 st3 3 1 None 0 7 0 (Resolve ok200)
              (quiescent_init _) Hj H1 Hd Hs H2 Hi Hlive Hi1 Hab I (unheard_init _ _) H3)
    as (a & p & _ & _ & _ & Hc & _ & _ & Hsg & _).
  exists st3. rewrite run_app, H1. cbn [mbind option_bind].
  rewrite run_app, H2. cbn [mbind option_bind].
  split; [exact H3|]. split; [|exact Hsg].
  vm_compute. reflexivity.
Defined.

(** ** After a full cancellation *)

(** X15: in the 500ms variant a full cancellation leaves no window listener
    behind, the signals being the callers' own: none of the signals aborted
    was aborted before the batch or carries the abort listener of a caller
    from before the batch.  Once the last caller of a batch (started on a
    signature with nothing registered) has withdrawn, before or after the
    timer ran, nothing is registered under the signature and the window
    listeners are those of before the batch: the abort listener takes both
    listeners of its caller off, so no listener of the batch is left on
    either channel, whichever outcome a later batch with the same url and
    options will have. *)
Theorem cancelled_signature_reusable
    (hash : string → string → list (string * string) → string)
    u other joins evs st st1 st2 tid i0 s e :
  quiescent (hash u "otherOptions" other) st →
  Forall (isJoin u other) joins →
  V500.run hash joins st = Some st1 →
  requestDebounce st1 !! hash u "otherOptions" other = Some tid →
  Forall (isService st tid) evs →
  V500.run hash evs st1 = Some st2 →
  joinSignals joins !! i0 = Some (Some s) →
  (∀ s' e', EvAbort s' e' ∈ evs → s' ≠ s) →
  userAborted st !! s = None →
  (∀ c, (s, c) ∉ abortListeners st) →
  (∀ i s', joinSignals joins !! i = Some s' → s' ≠ Some s →
           is_Some (s' ≫= (abortsOf ∅ evs !!.))) →
  ∃ st3,
    V500.step hash (EvAbort s e) st2 = Some st3
    ∧ quiescent (hash u "otherOptions" other) st3
    ∧ thenListeners st3 = thenListeners st
    ∧ catchListeners st3 = catchListeners st
    ∧ ∀ out, unheard (hash u "otherOptions" other) out st →
             unheard (hash u "otherOptions" other) out st3.
Proof.
  intros Hq Hjoins Hrun1 Hd Hevs Hrun2 Hi0 Hlive Hua0 Hfresh Hothers.
  set (b := hash u "otherOptions" other) in *.
  destruct (serving_after hash u other joins evs st st1 st2 tid i0 (Some s)
              Hq Hjoins Hrun1 Hd Hevs Hi0) as (due & Htm1 & HS & HA); [|done|].
  { intros s' e' Hin Heq. injection Heq as ->. by apply (Hlive _ _ Hin). }
  fold b in HS. cbn in HA.
  assert (userAborted st2 !! s = None) as Hua2.
  { destruct HS as (K & _ & _ & _ & ->). by apply lookup_union_None. }
  destruct (serving_abort_last b u other st Hq _ _ _ st2 s e i0 HS HA Hua0 Hfresh Hi0 Hothers)
    as ((Hp & Hc & Hdb & Hsg) & _ & _ & _ & _ & Hth & Hca & _ & _ & _ & Hold & Hlen).
  eexists. split; [cbn [V500.step]; by rewrite Hua2|].
  split; [|split; [done|split; [done|]]].
  - split; try done.
    + intros c Hin. rewrite Hth in Hin. apply (q_then _ _ Hq) in Hin. rewrite Hlen. lia.
    + intros c Hin. rewrite Hca in Hin. apply (q_catch _ _ Hq) in Hin. rewrite Hlen. lia.
  - intros out Hun c Hin.
    assert (c ∈ listenersOf (eventOf b out) st) as Hin'
      by (destruct out; cbn in *; congruence).
    assert (c < length (callers st)) as Hlt
      by (destruct out; [by apply (q_then _ _ Hq)|by apply (q_catch _ _ Hq)]).
    unfold isCallerOf. rewrite Hold by done. by apply (Hun c).
Qed.

(** The three callers of the shared-signal example have all withdrawn:
    nothing of the batch is left. *)
Lemma cancelled_signature_reusable_witness :
  ∃ st3,
    V500.run sampleHash (sharedCalls ++ oneWithdraws ++ [EvAbort 7 abortError]) init
      = Some st3
    ∧ quiescent apiGet500 st3
    ∧ thenListeners st3 = []
    ∧ catchListeners st3 = [].
Proof.
  assert (Hj : Forall (isJoin "/api" [("method", "GET")]) sharedCalls)
    by (repeat constructor).
  assert (Hs : Forall (isService init 3) oneWithdraws).
  { repeat constructor; intros c Hc; by apply elem_of_nil in Hc. }
  set (st1 := default init (V500.run sampleHash sharedCalls init)).
  set (st2 := default init (V500.run sampleHash oneWithdraws st1)).
  assert (H1 : V500.run sampleHash sharedCalls init = Some st1) by (vm_compute; reflexivity).
  assert (H2 : V500.run sampleHash oneWithdraws st1 = Some st2) by (vm_compute; reflexivity).
  assert (Hd : requestDebounce st1 !! sampleHash "/api" "otherOptions" [("method", "GET")]
               = Some 3) by (vm_compute; reflexivity).
  assert (Hi : joinSignals sharedCalls !! 0 = Some (Some 7)) by reflexivity.
  assert (Hlive : ∀ s' e', EvAbort s' e' ∈ oneWithdraws → s' ≠ 7).
  { intros s' e' Hin. unfold oneWithdraws in Hin.
    apply elem_of_cons in Hin as [Hin|Hin]; [by injection Hin as -> _|].
    apply list_elem_of_singleton in Hin. discriminate. }
  assert (H8 : abortsOf ∅ oneWithdraws !! 8 = Some navigatedAway)
    by (vm_compute; reflexivity).
  destruct (cancelled_signature_reusable sampleHash "/api" [("method", "GET")]
              sharedCalls oneWithdraws init st1 st2 3 0 7 abortError
              (quiescent_init _) Hj H1 Hd Hs H2 Hi Hlive)
    as (st3 & H3 & Hq & Hth & Hca & _).
  { reflexivity. }
  { intros c Hc. by apply elem_of_nil in Hc. }
  { by apply sharedCalls_others. }
  exists st3. rewrite run_app, H1. cbn [mbind option_bind].
  rewrite run_app, H2. cbn [mbind option_bind V500.run]. rewrite H3.
  split; [done|]. split; [exact Hq|]. split; [exact Hth|exact Hca].
Defined.

(** ** Cancellation in the 1000ms variant *)

Ltac mproj_all :=
  cbn [requestPayload requestCounter requestDebounce requestSignals clock timers
       nextTimer controllers fetches thenListeners catchListeners abortListeners
       userAborted callers uncaught events
       set_requestPayload set_requestCounter set_requestDebounce set_requestSignals
       set_clock set_timers set_nextTimer set_controllers set_fetches
       set_thenListeners set_catchListeners set_abortListeners set_userAborted
       set_callers set_uncaught set_events] in *.

Lemma Batch1000_ext b u other st0 sigs K ph st st' :
  Batch1000 b u other st0 sigs K ph st →
  callers st' = callers st →
  thenListeners st' = thenListeners st →
  catchListeners st' = catchListeners st →
  requestCounter st' = requestCounter st →
  requestPayload st' = requestPayload st →
  requestSignals st' = requestSignals st →
  requestDebounce st' = requestDebounce st →
  timers st' = timers st →
  fetches st' = fetches st →
  controllers st' = controllers st →
  uncaught st' = uncaught st →
  events st' = events st →
  Batch1000 b u other st0 sigs K ph st'.
Proof.
  intros [Hcnt HB] Hc Ht Hk Hn Hp Hs Hd Htm Hf Hct Hu He.
  split; [by rewrite Hn|].
  eapply Batch_ext; [exact HB|mproj; congruence..].
Qed.

Lemma Batch1000_start b u other st0 sigs ph st :
  Batch b u other st0 sigs ∅ ph st → Batch1000 b u other st0 sigs ∅ ph st.
Proof.
  intros HB. pose proof (batch_counter _ _ _ _ _ _ _ _ HB) as Hcnt.
  rewrite map_size_empty in Hcnt. split; [by rewrite map_size_empty|].
  eapply Batch_ext; [exact HB|mproj; try done..].
  rewrite map_size_empty. by apply insert_id.
Qed.

Section Withdraw1000.
Variables (b u : string) (other : list (string * string)) (st0 : State).
Hypothesis Hq : quiescent b st0.

(** A caller withdraws from a batch of two callers or more: the batch goes
    on, whoever else has withdrawn. *)
Lemma batch1000_withdraw sigs K ph st i s e :
  Batch1000 b u other st0 sigs K ph st →
  sigs !! i = Some (Some s) →
  K !! (length (callers st0) + i) = None →
  userAborted st !! s = Some e →
  2 ≤ length sigs →
  Batch1000 b u other st0 sigs (<[length (callers st0) + i := e]> K) ph
    (abortedWith abortedOne abortedIsRegistered b s (length (callers st0) + i) st)
  ∧ userAborted (abortedWith abortedOne abortedIsRegistered b s (length (callers st0) + i) st)
    = userAborted st
  ∧ abortListeners (abortedWith abortedOne abortedIsRegistered b s (length (callers st0) + i) st)
    = abortListeners st
  ∧ clock (abortedWith abortedOne abortedIsRegistered b s (length (callers st0) + i) st)
    = clock st.
Proof.
  intros [Hcnt [Hlen Hold Hnew Hthen Hcatch _ Hpay Hph Hunc Hev]] Hi HK Hua Hn.
  mproj_all.
  set (c := length (callers st0) + i) in *.
  unfold abortedWith. rewrite Hcnt, Hua.
  unfold abortedIsRegistered, abortedOne. cbn [aborted registered processed].
  replace (1 =? length sigs) with false by (symmetry; apply Nat.eqb_neq; lia).
  cbn zeta. split; [|done]. split.
  { mproj. by rewrite lookup_insert_eq, map_size_insert_None. }
  split; mproj.
  - by rewrite length_alter.
  - intros c' Hc'. rewrite list_lookup_alter_ne by (unfold c; lia). by apply Hold.
  - intros i' s' Hi'. rewrite list_lookup_alter, lookup_insert.
    destruct (decide (c = length (callers st0) + i')) as [Heq|Hne].
    + assert (i' = i) as -> by (unfold c in Heq; lia).
      unfold c. rewrite (Hnew _ _ Hi'). fold c. rewrite HK.
      assert (s' = Some s) as -> by congruence. done.
    + by rewrite (Hnew _ _ Hi').
  - rewrite Hthen. unfold remove at 1. rewrite filter_app. f_equal.
    + apply (remove_old c). intros x Hx. apply (q_then _ _ Hq) in Hx. unfold c. lia.
    + apply remove_live.
  - rewrite Hcatch. unfold remove at 1. rewrite filter_app. f_equal.
    + apply (remove_old c). intros x Hx. apply (q_catch _ _ Hq) in Hx. unfold c. lia.
    + apply remove_live.
  - by rewrite lookup_insert_eq.
  - done.
  - by destruct ph.
  - done.
  - done.
Qed.

Lemma withdraw1000_all sigs ph s e (S : list (nat * nat)) : ∀ K st,
  Batch1000 b u other st0 sigs K ph st →
  userAborted st !! s = Some e →
  2 ≤ length sigs →
  (∀ p, p ∈ S → ∃ i, p.2 = length (callers st0) + i
                     ∧ sigs !! i = Some (Some s) ∧ K !! p.2 = None) →
  NoDup S.*2 →
  ∃ K', Batch1000 b u other st0 sigs K' ph
          (foldl (λ acc p, runListener (V1000.listenerAbort s p.2) acc) st S)
        ∧ (∀ c, K' !! c = if decide (c ∈ S.*2) then Some e else K !! c)
        ∧ userAborted (foldl (λ acc p, runListener (V1000.listenerAbort s p.2) acc) st S)
          = userAborted st
        ∧ abortListeners (foldl (λ acc p, runListener (V1000.listenerAbort s p.2) acc) st S)
          = abortListeners st
        ∧ clock (foldl (λ acc p, runListener (V1000.listenerAbort s p.2) acc) st S)
          = clock st.
Proof.
  induction S as [|[s' c] S IH]; intros K st HB Hua Hn HS Hnd.
  { exists K. cbn [foldl fmap list_fmap]. split; [done|]. split; [|done].
    intros c. by rewrite decide_False by apply not_elem_of_nil. }
  cbn [foldl snd]. cbn [fmap list_fmap snd] in Hnd.
  apply NoDup_cons in Hnd as [HcS Hnd].
  destruct (HS (s', c)) as (i & Hc & Hi & HKc); [apply elem_of_cons; by left|].
  cbn [snd] in Hc, HKc. subst c.
  assert (callers st !! (length (callers st0) + i)
          = Some {| c_batch := b; c_signal := Some s;
                    c_settled := match K !! (length (callers st0) + i) with
                                 | Some e => [Reject e]
                                 | None => []
                                 end |}) as Hcaller.
  { destruct HB as [_ HB]. apply (batch_new _ _ _ _ _ _ _ _ HB _ _ Hi). }
  rewrite V1000_listenerAbort_eq, Hcaller. cbn [c_batch].
  destruct (batch1000_withdraw sigs K ph st i s e HB Hi HKc Hua Hn)
    as (HB' & Hua' & Hal' & Hck').
  destruct (IH _ _ HB') as (K' & HB'' & HK' & Hua'' & Hal'' & Hck'').
  - by rewrite Hua'.
  - done.
  - intros p Hp. destruct (HS p) as (i' & Hp2 & Hi' & HKp); [apply elem_of_cons; by right|].
    exists i'. split; [done|]. split; [done|].
    rewrite lookup_insert_ne; [done|]. intros Heq. apply HcS.
    rewrite Heq. apply list_elem_of_fmap. by exists p.
  - done.
  - exists K'. split; [done|]. split; [|by rewrite Hua'', Hal'', Hck''].
    intros c. rewrite HK'. cbn [fmap list_fmap snd].
    destruct (decide (c ∈ S.*2)) as [Hin|Hnin].
    + by rewrite decide_True by (apply elem_of_cons; by right).
    + rewrite lookup_insert. destruct (decide (length (callers st0) + i = c)) as [<-|Hne'].
      * by rewrite decide_True by (apply elem_of_cons; by left).
      * rewrite decide_False; [done|]. rewrite not_elem_of_cons. split; congruence.
Qed.

End Withdraw1000.

Section Service1000.
Variable hash : string → string → list (string * string) → string.
Variables (b u : string) (other : list (string * string)) (st0 : State).
Hypothesis Hq : quiescent b st0.

Lemma serving1000_advance sigs A ph st dt :
  Serving1000 b u other st0 sigs A ph st →
  Serving1000 b u other st0 sigs A ph (set_clock (λ t, t + dt) st).
Proof.
  intros (K & HB & HK & Hal & Hua). exists K.
  split; [by eapply Batch1000_ext|]. split; [done|]. split; done.
Qed.

Lemma serving1000_timeout sigs A tid due st :
  Serving1000 b u other st0 sigs A (Debouncing tid due) st →
  Serving1000 b u other st0 sigs A (InFlight tid)
    (dispatched b (set_timers (delete tid) st)).
Proof.
  intros (K & [Hcnt HB] & HK & Hal & Hua).
  exists K. split; [|done]. split; [done|].
  pose proof (batch_timeout _ _ _ _ _ _ _ _ _ HB) as HB'.
  eapply Batch_ext; [exact HB'|done..].
Qed.

Lemma serving1000_abort sigs A ph st s e :
  Serving1000 b u other st0 sigs A ph st →
  2 ≤ length sigs →
  A !! s = None →
  userAborted st0 !! s = None →
  (∀ c, (s, c) ∉ abortListeners st0) →
  Serving1000 b u other st0 sigs (<[s := e]> A) ph
    (V1000.fireAbort s (set_userAborted (insert s e) st)).
Proof.
  intros (K & HB & [HK Hdom] & Hal & Hua) Hn HA Hua0 Hfresh.
  set (entries := abortEntries (length (callers st0)) sigs) in *.
  unfold V1000.fireAbort. mproj.
  rewrite Hal, snapshot_entries by done.
  set (st1 := set_abortListeners _ _).
  assert (Batch1000 b u other st0 sigs K ph st1) as HB1 by (by eapply Batch1000_ext).
  destruct (withdraw1000_all b u other st0 Hq sigs ph s e
              (filter (λ p, p.1 = s) entries) K st1 HB1)
    as (K' & HB' & HK' & Hua' & Hal' & Hck').
  - unfold st1. mproj. apply lookup_insert_eq.
  - done.
  - intros [s' c] [Heq Hin]%list_elem_of_filter. cbn in Heq. subst s'.
    apply elem_of_abortEntries in Hin as (i & -> & Hi).
    exists i. split; [done|]. split; [done|]. cbn [snd].
    rewrite (HK _ _ Hi). done.
  - apply NoDup_fmap_filter, NoDup_abortEntries.
  - assert (Hin : ∀ c, c ∈ (filter (λ p, p.1 = s) entries).*2
                       ↔ ∃ i, c = length (callers st0) + i ∧ sigs !! i = Some (Some s)).
    { intros c. rewrite list_elem_of_fmap. split.
      - intros ([s' c'] & -> & [Heq Hc]%list_elem_of_filter). cbn in Heq. subst s'.
        by apply elem_of_abortEntries in Hc.
      - intros (i & -> & Hi). exists (s, length (callers st0) + i). split; [done|].
        apply list_elem_of_filter. split; [done|].
        apply elem_of_abortEntries. by exists i. }
    exists K'. split; [done|]. split; [split|split].
    + intros i s' Hi. rewrite HK'. case_decide as Hc.
      * apply Hin in Hc as (i' & Heq & Hi'). assert (i' = i) as -> by lia.
        assert (s' = Some s) as -> by congruence. cbn. by rewrite lookup_insert_eq.
      * rewrite (HK _ _ Hi). destruct s' as [s'|]; [|done]. cbn.
        rewrite lookup_insert_ne; [done|]. intros ->. apply Hc, Hin. by exists i.
    + intros c [x Hx]. rewrite HK' in Hx. case_decide as Hc.
      * apply Hin in Hc as (i & -> & Hi). apply lookup_lt_Some in Hi. lia.
      * apply Hdom. by exists x.
    + rewrite Hal'. unfold st1. mproj. rewrite Hal, filter_app. f_equal.
      * apply filter_all. intros [s' c] Hin' Heq. cbn in Heq. subst s'.
        by apply Hfresh in Hin'.
      * rewrite list_filter_filter. apply list_filter_iff.
        intros [s' c]; cbn. rewrite lookup_insert_None. intuition congruence.
    + rewrite Hua'. unfold st1. mproj. by rewrite Hua, insert_union_l.
Qed.

Lemma serving1000_run sigs tid :
  2 ≤ length sigs →
  ∀ evs st A ph st',
    Serving1000 b u other st0 sigs A ph st →
    tidOf ph = tid →
    Forall (isService st0 tid) evs →
    V1000.run hash evs st = Some st' →
    Serving1000 b u other st0 sigs (abortsOf A evs) (phaseAfter ph evs) st'.
Proof.
  intros Hn evs. induction evs as [|ev evs IH]; intros st A ph st' HS Htid Hevs Hrun.
  { cbn in Hrun. injection Hrun as <-. unfold phaseAfter. cbn. done. }
  apply Forall_cons in Hevs as [Hev Hevs].
  cbn [V1000.run] in Hrun.
  destruct ev as [?|dt|t|? ?|? ?|s e]; try done.
  - cbn [V1000.step] in Hrun.
    apply (IH _ A ph) in Hrun; [done|by apply serving1000_advance|done..].
  - cbn [isService] in Hev. subst t.
    cbn [V1000.step] in Hrun.
    destruct ph as [tid' due|tid']; cbn [tidOf] in Htid; subst tid'.
    + destruct HS as (K & [Hcnt HB] & HS).
      destruct (batch_phase _ _ _ _ _ _ _ _ HB) as (_ & _ & Htm & _). mproj_all.
      rewrite Htm in Hrun. case_decide; [|done].
      change (runListener (V1000.dispatchRequest b) (set_timers (delete tid) st))
        with (runListener (V500.dispatchRequest b) (set_timers (delete tid) st)) in Hrun.
      rewrite dispatchRequest_eq in Hrun.
      apply (IH _ A (InFlight tid)) in Hrun; try done.
      * unfold phaseAfter in *. cbn [hasTimeout existsb orb tidOf] in *.
        by destruct (hasTimeout evs).
      * apply (serving1000_timeout sigs A tid due). by exists K.
    + destruct HS as (K & [Hcnt HB] & HS).
      destruct (batch_phase _ _ _ _ _ _ _ _ HB) as (_ & _ & Htm & _). mproj_all.
      by rewrite Htm in Hrun.
  - destruct Hev as [Hua0 Hfresh].
    cbn [V1000.step] in Hrun.
    assert (userAborted st = A ∪ userAborted st0) as Hua
      by (by destruct HS as (K & _ & _ & _ & ?)).
    cbn [abortsOf foldl recordAbort]. fold (abortsOf (recordAbort A (EvAbort s e)) evs).
    cbn [recordAbort]. rewrite Hua in Hrun.
    destruct (A !! s) as [e'|] eqn:HAs.
    + rewrite (lookup_union_Some_l _ _ _ _ HAs) in Hrun.
      apply (IH _ A ph) in Hrun; done.
    + rewrite (proj2 (lookup_union_None _ _ _)) in Hrun by done.
      pose proof (serving1000_abort sigs A ph st s e HS Hn HAs Hua0 Hfresh) as HS'.
      apply (IH _ (<[s:=e]> A) ph) in Hrun; done.
Qed.

End Service1000.

Section Outcome1000.
Variable hash : string → string → list (string * string) → string.
Variables (b u : string) (other : list (string * string)) (st0 : State).
Hypothesis Hq : quiescent b st0.

(** The fetch of the batch completes: the callers that have not withdrawn
    receive the outcome. *)
Lemma batch1000_outcome sigs K tid st out :
  Batch1000 b u other st0 sigs K (InFlight tid) st →
  broadcastable out →
  unheard b out st0 →
  ∃ st', V1000.step hash (completion (length (fetches st0)) out) st = Some st'
    ∧ (∀ i s, sigs !! i = Some s →
         callers st' !! (length (callers st0) + i) =
           Some {| c_batch := b; c_signal := s;
                   c_settled := match K !! (length (callers st0) + i) with
                                | Some e => [Reject e]
                                | None => [delivery out]
                                end |})
    ∧ fetches st' = fetches st0 ++ [batchFetchOf b u other st0 true]
    ∧ controllers st' = controllers st0 ++ [false]
    ∧ uncaught st' = uncaught st0
    ∧ (length (filter (λ c, K !! c = None) (seq (length (callers st0)) (length sigs)))
         < length sigs →
       requestSignals st' !! b = Some (length (controllers st0))
       ∧ ∃ p, p < length sigs
              ∧ requestCounter st' !! b
                = Some {| registered := length sigs; aborted := Nat.min 1 (size K);
                          processed := p |}).
Proof.
  intros [Hcnt [Hlen Hold Hnew Hthen Hcatch _ Hpay Hph Hunc Hev]] Hout Hun0.
  destruct Hph as (Hs & Hd & Htm & Hf & Hct). mproj_all.
  set (c0 := length (callers st0)) in *.
  set (live := filter (λ c, K !! c = None) (seq c0 (length sigs))) in *.
  set (ev := eventOf b out).
  set (st4 := set_events (λ l, l ++ [ev]) (markDone (length (fetches st0)) st)).
  assert (V1000.step hash (completion (length (fetches st0)) out) st
          = Some (V500.dispatchEvent ev (markDone (length (fetches st0)) st))) as Hstep.
  { assert (fetches st !! length (fetches st0) = Some (batchFetchOf b u other st0 false))
      as Hl by (rewrite Hf; by apply list_lookup_middle).
    assert (fetchAborted (batchFetchOf b u other st0 false) st = None) as Hna.
    { unfold fetchAborted. cbn [batchFetchOf f_signal abortReason].
      rewrite Hct, list_lookup_middle; done. }
    destruct out as [r|e]; cbn [completion].
    - rewrite (V1000_step_resolve hash hash). cbn [V500.step]. rewrite Hl.
      cbn [batchFetchOf f_done]. fold (batchFetchOf b u other st0 false). by rewrite Hna.
    - rewrite (V1000_step_reject hash hash). cbn [V500.step]. rewrite Hl.
      cbn [batchFetchOf f_done]. fold (batchFetchOf b u other st0 false). rewrite Hna.
      unfold V500.fetchRejected. cbn [batchFetchOf f_cont].
      unfold V500.dispatchRequest_catch. by rewrite decide_False. }
  eexists. split; [exact Hstep|].
  assert (batchOf ev = b) as Hbev by (by destruct out).
  assert (settlementOf ev = delivery out) as Hsev by (by destruct out).
  assert (callers st4 = callers st) as Hcs4 by done.
  assert (∃ old, listenersOf ev st4 = old ++ live
                 ∧ ∀ c, c ∈ old → c < c0 ∧ isCallerOf b st0 c = false)
    as (old & Hls4 & Hold4).
  { destruct out; cbn [ev eventOf listenersOf].
    - exists (thenListeners st0). split; [done|].
      intros c Hc. split; [by apply (q_then _ _ Hq)|by apply (Hun0 c)].
    - exists (catchListeners st0). split; [done|].
      intros c Hc. split; [by apply (q_catch _ _ Hq)|by apply (Hun0 c)]. }
  assert (Hisold : ∀ c, c < c0 → isCallerOf b st4 c = isCallerOf b st0 c).
  { intros c Hc. unfold isCallerOf. by rewrite Hcs4, Hold. }
  assert (Hisnew : ∀ c, c ∈ seq c0 (length sigs) → isCallerOf b st4 c = true).
  { intros c [Hge Hlt]%elem_of_seq. unfold isCallerOf. rewrite Hcs4.
    destruct (lookup_lt_is_Some_2 sigs (c - c0)) as [s Hi]; [lia|].
    replace c with (c0 + (c - c0)) by lia. rewrite (Hnew _ _ Hi).
    by apply bool_decide_true. }
  assert (filter (λ c, isCallerOf (batchOf ev) st4 c = true) (listenersOf ev st4) = live)
    as HL.
  { rewrite Hbev, Hls4, filter_app.
    rewrite (filter_all _ live).
    2: { intros c [_ Hc]%list_elem_of_filter. by apply Hisnew. }
    replace (filter _ old) with (@nil nat); [done|].
    symmetry. apply length_zero_iff_nil.
    destruct (filter _ old) as [|c l] eqn:Hfo; [done|].
    assert (c ∈ filter (λ c, isCallerOf b st4 c = true) old) as Hin
      by (rewrite Hfo; apply elem_of_cons; by left).
    apply list_elem_of_filter in Hin as [Htrue Hin].
    apply Hold4 in Hin as [Hlt Hfalse]. rewrite Hisold in Htrue by done. congruence. }
  assert (fetches (V500.dispatchEvent ev (markDone (length (fetches st0)) st))
          = fetches st0 ++ [batchFetchOf b u other st0 true]) as Hfet.
  { rewrite dispatchEvent_fetches. unfold markDone. mproj. rewrite Hf.
    rewrite <- (Nat.add_0_r (length (fetches st0))), alter_app_r. done. }
  assert (controllers (V500.dispatchEvent ev (markDone (length (fetches st0)) st))
          = controllers st0 ++ [false]) as Hctl
    by (by rewrite dispatchEvent_controllers).
  revert Hfet Hctl. rewrite dispatchEvent_eq. fold st4.
  change (listenersOf ev (markDone (length (fetches st0)) st))
    with (listenersOf ev st4).
  intros Hfet Hctl.
  destruct (broadcast ev (listenersOf ev st4) st4
              {| registered := length sigs; aborted := Nat.min 1 (size K); processed := 0 |})
    as [Bc Bl Bu Br].
  { by rewrite Hbev. }
  { rewrite HL. apply NoDup_filter, NoDup_seq. }
  { rewrite HL, Hls4. intros c Hc. apply elem_of_app. by right. }
  { rewrite HL. cbn [processed registered].
    pose proof (length_filter (λ c, K !! c = None) (seq c0 (length sigs))) as Hle.
    rewrite length_seq in Hle. unfold live. lia. }
  rewrite HL in *. split; [|split; [|split; [|split]]].
  - intros i s Hi. rewrite Bc, Hcs4, (Hnew _ _ Hi).
    assert (c0 + i ∈ seq c0 (length sigs)) as Hin
      by (apply elem_of_seq; apply lookup_lt_Some in Hi; lia).
    destruct (K !! (c0 + i)) as [e|] eqn:HK.
    + rewrite decide_False; [done|].
      intros [HK' _]%list_elem_of_filter. congruence.
    + rewrite decide_True by (by apply list_elem_of_filter).
      cbn. by rewrite Hsev.
  - done.
  - done.
  - by rewrite Bu.
  - intros Hlt. rewrite bool_decide_false in Br by (cbn [processed registered]; lia).
    rewrite Hbev in Br. destruct Br as (Hr1 & _ & _ & Hr4).
    split; [by rewrite Hr4|]. exists (length live). split; [done|].
    by rewrite Hr1, lookup_insert_eq.
Qed.

End Outcome1000.

Lemma batch1000_timeout_step hash b u other st0 sigs K tid due st dt :
  Batch1000 b u other st0 sigs K (Debouncing tid due) st →
  due ≤ clock st + dt →
  V1000.run hash [EvAdvance dt; EvTimeout tid] st =
    Some (dispatched b (set_timers (delete tid) (set_clock (λ t, t + dt) st)))
  ∧ Batch1000 b u other st0 sigs K (InFlight tid)
      (dispatched b (set_timers (delete tid) (set_clock (λ t, t + dt) st))).
Proof.
  intros HB Hdue.
  assert (Batch1000 b u other st0 sigs K (Debouncing tid due) (set_clock (λ t, t + dt) st))
    as [Hcnt HB'] by (by eapply Batch1000_ext).
  split.
  - cbn [V1000.run V1000.step]. mproj.
    destruct (batch_phase _ _ _ _ _ _ _ _ HB') as (_ & _ & Htm & _). mproj_all.
    rewrite Htm, decide_True by done.
    change (V1000.dispatchRequest b) with (V500.dispatchRequest b).
    by rewrite dispatchRequest_eq.
  - split; [done|].
    pose proof (batch_timeout _ _ _ _ _ _ _ _ _ HB') as HB''.
    eapply Batch_ext; [exact HB''|done..].
Qed.

Section Cancellation1000.
Variable hash : string → string → list (string * string) → string.

(** X16: in the 1000ms variant no cancellation by its callers stops a batch
    of two callers or more.  The callers have joined a signature with
    nothing registered, and the signals aborted are their own: none was
    aborted before the batch or carries the abort listener of a caller from
    before the batch.  Whichever callers withdraw while time passes and the
    timer runs or not, some of them or all of them, the counter never holds
    more than [aborted = 1], the timer stays armed until it runs, the fetch
    is made and its controller is not aborted; [reject] is called once on
    the promise of every caller whose signal was aborted, with the reason of
    that signal.  And when the fetch completes with a response or with an
    error that is not an abort error, no listener of a caller from before
    the batch being left on the channel of that outcome, each caller that
    has not withdrawn receives the outcome, the others keeping their own
    rejection only. *)
Theorem v1000_cancellation_never_stops_batch u other joins evs st st1 st2 tid :
  quiescent (hash u "options" other) st →
  Forall (isJoin u other) joins →
  2 ≤ length (joinSignals joins) →
  V1000.run hash joins st = Some st1 →
  requestDebounce st1 !! hash u "options" other = Some tid →
  Forall (isService st tid) evs →
  V1000.run hash evs st1 = Some st2 →
  ∃ due,
    timers st1 !! tid = Some (due, hash u "options" other)
    ∧ (if hasTimeout evs
       then controllers st2 = controllers st ++ [false]
            ∧ fetches st2 =
                fetches st ++
                  [{| f_url := u; f_options := other;
                      f_signal := Some (BatchSignal (length (controllers st)));
                      f_cont := Broadcast (hash u "options" other);
                      f_done := false |}]
       else controllers st2 = controllers st ∧ fetches st2 = fetches st
            ∧ timers st2 !! tid = Some (due, hash u "options" other))
    ∧ (∃ a, a ≤ 1
            ∧ requestCounter st2 !! hash u "options" other
              = Some {| registered := length (joinSignals joins); aborted := a;
                        processed := 0 |})
    ∧ (∀ i s, joinSignals joins !! i = Some s →
         callers st2 !! (length (callers st) + i) =
           Some {| c_batch := hash u "options" other; c_signal := s;
                   c_settled := match s ≫= (abortsOf ∅ evs !!.) with
                                | Some e => [Reject e]
                                | None => []
                                end |})
    ∧ ∀ dt out,
        due ≤ clock st2 + dt →
        broadcastable out →
        unheard (hash u "options" other) out st →
        ∃ st3,
          V1000.run hash
            ((if hasTimeout evs then [] else [EvAdvance dt; EvTimeout tid])
               ++ [completion (length (fetches st)) out]) st2 = Some st3
          ∧ controllers st3 = controllers st ++ [false]
          ∧ fetches st3 =
              fetches st ++
                [{| f_url := u; f_options := other;
                    f_signal := Some (BatchSignal (length (controllers st)));
                    f_cont := Broadcast (hash u "options" other);
                    f_done := true |}]
          ∧ ∀ i s, joinSignals joins !! i = Some s →
              callers st3 !! (length (callers st) + i) =
                Some {| c_batch := hash u "options" other; c_signal := s;
                        c_settled := match s ≫= (abortsOf ∅ evs !!.) with
                                     | Some e => [Reject e]
                                     | None => [delivery out]
                                     end |}.
Proof.
  intros Hq Hjoins Hlen Hrun1 Hd Hevs Hrun2.
  set (b := hash u "options" other) in *.
  destruct (V1000_gathered_run hash u other st Hq joins Hjoins) as (st1' & Hrun1' & Hg).
  assert (st1' = st1) as -> by congruence. fold b in Hg.
  destruct Hg as (Hal & Hua & Hg).
  destruct (joinSignals joins) as [|s0 sigs0] eqn:Hsigs; [cbn in Hlen; lia|].
  rewrite <- Hsigs in *. destruct Hg as (tid' & due & HB).
  pose proof (batch_phase _ _ _ _ _ _ _ _ HB) as (_ & Hd' & Htm & _).
  assert (tid' = tid) as -> by congruence.
  exists due. split; [done|].
  assert (Serving1000 b u other st (joinSignals joins) ∅ (Debouncing tid due) st1) as HS.
  { exists ∅. split; [by apply Batch1000_start|]. split; [split|split].
    - intros i s' _. by rewrite lookup_empty, bind_lookup_empty.
    - intros c [x Hx]. by rewrite lookup_empty in Hx.
    - rewrite Hal. f_equal. symmetry. apply filter_all. intros; apply lookup_empty.
    - by rewrite Hua, (left_id_L ∅ (∪)). }
  destruct (serving1000_run hash b u other st Hq (joinSignals joins) tid Hlen
              evs st1 ∅ (Debouncing tid due) st2 HS eq_refl Hevs Hrun2)
    as (K & HB2 & [HK Hdom] & _ & _).
  set (A := abortsOf ∅ evs) in *.
  unfold phaseAfter in HB2. cbn [tidOf] in HB2.
  pose proof HB2 as [Hcnt2 HB2'].
  split; [|split; [|split]].
  - destruct (hasTimeout evs);
      destruct (batch_phase _ _ _ _ _ _ _ _ HB2') as (_ & _ & Htm2 & Hf & Hct); done.
  - exists (Nat.min 1 (size K)). split; [lia|done].
  - intros i s Hi.
    pose proof (batch_new _ _ _ _ _ _ _ _ HB2' _ _ Hi) as Hc. mproj_all.
    by rewrite Hc, (HK _ _ Hi).
  - intros dt out Hdue Hout Hun0.
    destruct (hasTimeout evs).
    + destruct (batch1000_outcome hash b u other st Hq _ _ _ _ out HB2 Hout Hun0)
        as (st3 & Hstep & Hcs3 & Hfs & Hct & _).
      exists st3. cbn [app V1000.run]. rewrite Hstep.
      split; [done|]. split; [done|]. split; [done|].
      intros i s Hi. by rewrite (Hcs3 _ _ Hi), (HK _ _ Hi).
    + destruct (batch1000_timeout_step hash b u other st _ K tid due st2 dt HB2 Hdue)
        as [Hrun3 HB3].
      destruct (batch1000_outcome hash b u other st Hq _ _ _ _ out HB3 Hout Hun0)
        as (st3 & Hstep & Hcs3 & Hfs & Hct & _).
      exists st3. rewrite V1000_run_app, Hrun3. cbn [mbind option_bind V1000.run].
      rewrite Hstep. split; [done|]. split; [done|]. split; [done|].
      intros i s Hi. by rewrite (Hcs3 _ _ Hi), (HK _ _ Hi).
Qed.

End Cancellation1000.

(** The two callers of a batch both withdraw; the timer runs all the same,
    the fetch is made and completes, and nobody is there to receive the
    response. *)
Lemma v1000_cancellation_never_stops_batch_witness :
  quiescent apiGet1000 init
  ∧ ∃ st3,
      V1000.run sampleHash
        ([EvCall "/api" (getWith 7); EvCall "/api" (getWith 8)]
           ++ [EvAbort 7 abortError; EvAbort 8 navigatedAway]
           ++ [EvAdvance 1000; EvTimeout 2; EvFetchResolve 0 ok200]) init = Some st3
      ∧ controllers st3 = [false]
      ∧ map f_done (fetches st3) = [true]
      ∧ map c_settled (callers st3) = [[Reject abortError]; [Reject navigatedAway]].
Proof.
  set (joins := [EvCall "/api" (getWith 7); EvCall "/api" (getWith 8)]).
  set (evs := [EvAbort 7 abortError; EvAbort 8 navigatedAway]).
  assert (Hj : Forall (isJoin "/api" [("method", "GET")]) joins)
    by (repeat constructor).
  assert (Hs : Forall (isService init 2) evs).
  { repeat constructor; intros c Hc; by apply elem_of_nil in Hc. }
  split; [apply quiescent_init|].
  set (st1 := default init (V1000.run sampleHash joins init)).
  set (st2 := default init (V1000.run sampleHash evs st1)).
  assert (H1 : V1000.run sampleHash joins init = Some st1) by (vm_compute; reflexivity).
  assert (H2 : V1000.run sampleHash evs st1 = Some st2) by (vm_compute; reflexivity).
  assert (Hd : requestDebounce st1 !! sampleHash "/api" "options" [("method", "GET")]
               = Some 2) by (vm_compute; reflexivity).
  destruct (v1000_cancellation_never_stops_batch sampleHash "/api" [("method", "GET")]
              joins evs init st1 st2 2 (quiescent_init _) Hj)
    as (due & Htm & _ & _ & _ & Hfin); [cbn; lia|exact H1|exact Hd|exact Hs|exact H2|].
  assert (due = 1000) as ->.
  { vm_compute in Htm. by injection Htm as <-. }
  destruct (Hfin 1000 (Resolve ok200)) as (st3 & H3 & Hct & _ & _).
  { replace (clock st2) with 0 by (vm_compute; reflexivity). lia. }
  { exact I. }
  { apply unheard_init. }
  exists st3. rewrite V1000_run_app, H1. cbn [mbind option_bind].
  rewrite V1000_run_app, H2. cbn [mbind option_bind].
  change (hasTimeout evs) with false in H3. cbn [app] in H3.
  split; [exact H3|]. split; [exact Hct|].
  vm_compute in H3. injection H3 as <-. split; vm_compute; reflexivity.
Defined.

(** X17: in the 1000ms variant a batch from which a caller has withdrawn is
    still registered when its fetch has completed, and calls for its
    signature then throw.  Two callers or more have joined a signature with
    nothing registered; the signals aborted were their own (not aborted
    before the batch, no abort listener of a caller from before the batch on
    them) and that of at least one caller was aborted; the fetch completed
    with a response or an error that is not an abort error, no listener of a
    caller from before the batch being left on the channel of that outcome.
    In the state this leaves, the counter entry is there with [aborted = 1]
    and [processed] below [registered], the controller of the completed
    fetch is in [requestSignals], and a call with the same url and options
    throws ['Request already dispatched'] and changes nothing. *)
Theorem v1000_cancellation_blocks_signature
    (hash : string → string → list (string * string) → string)
    u other joins evs st st1 st2 st3 tid i1 s1 dt out :
  quiescent (hash u "options" other) st →
  Forall (isJoin u other) joins →
  2 ≤ length (joinSignals joins) →
  V1000.run hash joins st = Some st1 →
  requestDebounce st1 !! hash u "options" other = Some tid →
  Forall (isService st tid) evs →
  V1000.run hash evs st1 = Some st2 →
  joinSignals joins !! i1 = Some (Some s1) →
  is_Some (abortsOf ∅ evs !! s1) →
  broadcastable out →
  unheard (hash u "options" other) out st →
  V1000.run hash
    ((if hasTimeout evs then [] else [EvAdvance dt; EvTimeout tid])
       ++ [completion (length (fetches st)) out]) st2 = Some st3 →
  (∃ p, p < length (joinSignals joins)
        ∧ requestCounter st3 !! hash u "options" other
          = Some {| registered := length (joinSignals joins); aborted := 1;
                    processed := p |})
  ∧ requestSignals st3 !! hash u "options" other = Some (length (controllers st))
  ∧ ∀ o, otherOptions o = other →
         V1000.batchFetch hash u o st3
         = (Throw {| name := "Error"; message := "Request already dispatched" |}, st3).
Proof.
  intros Hq Hjoins Hlen Hrun1 Hd Hevs Hrun2 Hi1 Hab1 Hout Hun0 Hrun3.
  set (b := hash u "options" other) in *.
  destruct (V1000_gathered_run hash u other st Hq joins Hjoins) as (st1' & Hrun1' & Hg).
  assert (st1' = st1) as -> by congruence. fold b in Hg.
  destruct Hg as (Hal & Hua & Hg).
  destruct (joinSignals joins) as [|s0 sigs0] eqn:Hsigs; [cbn in Hlen; lia|].
  rewrite <- Hsigs in *. destruct Hg as (tid' & due & HB).
  pose proof (batch_phase _ _ _ _ _ _ _ _ HB) as (_ & Hd' & Htm & _).
  assert (tid' = tid) as -> by congruence.
  assert (Serving1000 b u other st (joinSignals joins) ∅ (Debouncing tid due) st1) as HS.
  { exists ∅. split; [by apply Batch1000_start|]. split; [split|split].
    - intros i s' _. by rewrite lookup_empty, bind_lookup_empty.
    - intros c [x Hx]. by rewrite lookup_empty in Hx.
    - rewrite Hal. f_equal. symmetry. apply filter_all. intros; apply lookup_empty.
    - by rewrite Hua, (left_id_L ∅ (∪)). }
  destruct (serving1000_run hash b u other st Hq (joinSignals joins) tid Hlen
              evs st1 ∅ (Debouncing tid due) st2 HS eq_refl Hevs Hrun2)
    as (K & HB2 & [HK Hdom] & _ & _).
  unfold phaseAfter in HB2. cbn [tidOf] in HB2.
  assert (∃ st', Batch1000 b u other st (joinSignals joins) K (InFlight tid) st'
                 ∧ V1000.step hash (completion (length (fetches st)) out) st' = Some st3)
    as (st' & HB' & Hstep).
  { destruct (hasTimeout evs).
    - exists st2. split; [done|]. cbn [app V1000.run] in Hrun3.
      by destruct (V1000.step hash _ st2).
    - destruct (decide (due ≤ clock st2 + dt)) as [Hdue|Hdue].
      2: { exfalso. cbn [app V1000.run V1000.step] in Hrun3. revert Hrun3. mproj.
           destruct HB2 as [_ HB2].
           destruct (batch_phase _ _ _ _ _ _ _ _ HB2) as (_ & _ & Htm2 & _). mproj_all.
           rewrite Htm2. by rewrite decide_False. }
      destruct (batch1000_timeout_step hash b u other st _ K tid due st2 dt HB2 Hdue)
        as [Hrun HB3].
      eexists. split; [exact HB3|].
      rewrite V1000_run_app, Hrun in Hrun3. cbn [mbind option_bind V1000.run] in Hrun3.
      by destruct (V1000.step hash _ _). }
  destruct (batch1000_outcome hash b u other st Hq _ _ _ _ out HB' Hout Hun0)
    as (st3' & Hstep' & _ & _ & _ & _ & Hleft).
  assert (st3' = st3) as -> by congruence.
  pose proof (live_count K (length (callers st)) (length (joinSignals joins)) Hdom) as Hcount.
  assert (0 < size K) as Hpos.
  { destruct (size K) eqn:Hsz; [|lia]. apply map_size_empty_inv in Hsz.
    pose proof (HK _ _ Hi1) as HK1. rewrite Hsz, lookup_empty in HK1. cbn in HK1.
    destruct Hab1 as [x Hx]. congruence. }
  destruct Hleft as (Hs3 & p & Hp & Hc3); [lia|].
  replace (Nat.min 1 (size K)) with 1 in Hc3 by lia.
  split; [by exists p|]. split; [done|].
  intros o Ho. apply (V1000_batchFetch_late hash u o st3 (length (controllers st))).
  by rewrite Ho.
Qed.

(** Two callers, the first withdraws, the second receives the response: an
    identical call made afterwards throws. *)
Lemma v1000_cancellation_blocks_signature_witness :
  quiescent apiGet1000 init
  ∧ ∃ st3,
      V1000.run sampleHash
        ([EvCall "/api" (getWith 7); EvCall "/api" get]
           ++ [EvAbort 7 abortError; EvAdvance 1000; EvTimeout 2]
           ++ [EvFetchResolve 0 ok200]) init = Some st3
      ∧ map c_settled (callers st3) = [[Reject abortError]; [Resolve (clone ok200)]]
      ∧ requestCounter st3 !! apiGet1000
        = Some {| registered := 2; aborted := 1; processed := 1 |}
      ∧ V1000.batchFetch sampleHash "/api" get st3
        = (Throw {| name := "Error"; message := "Request already dispatched" |}, st3).
Proof.
  set (joins := [EvCall "/api" (getWith 7); EvCall "/api" get]).
  set (evs := [EvAbort 7 abortError; EvAdvance 1000; EvTimeout 2]).
  assert (Hj : Forall (isJoin "/api" [("method", "GET")]) joins)
    by (repeat constructor).
  assert (Hs : Forall (isService init 2) evs).
  { repeat constructor; intros c Hc; by apply elem_of_nil in Hc. }
  split; [apply quiescent_init|].
  set (st1 := default init (V1000.run sampleHash joins init)).
  set (st2 := default init (V1000.run sampleHash evs st1)).
  set (st3 := default init (V1000.run sampleHash [EvFetchResolve 0 ok200] st2)).
  assert (H1 : V1000.run sampleHash joins init = Some st1) by (vm_compute; reflexivity).
  assert (H2 : V1000.run sampleHash evs st1 = Some st2) by (vm_compute; reflexivity).
  assert (H3 : V1000.run sampleHash [EvFetchResolve 0 ok200] st2 = Some st3)
    by (vm_compute; reflexivity).
  assert (Hd : requestDebounce st1 !! sampleHash "/api" "options" [("method", "GET")]
               = Some 2) by (vm_compute; reflexivity).
  assert (Hi1 : joinSignals joins !! 0 = Some (Some 7)) by reflexivity.
  assert (Hab : is_Some (abortsOf ∅ evs !! 7))
    by (exists abortError; vm_compute; reflexivity).
  destruct (v1000_cancellation_blocks_signature sampleHash "/api" [("method", "GET")]
              joins evs init st1 st2 st3 2 0 7 0 (Resolve ok200)
              (quiescent_init _) Hj) as (_ & _ & Hthrow);
    [cbn; lia|exact H1|exact Hd|exact Hs|exact H2|exact Hi1|exact Hab|exact I
    |apply unheard_init|exact H3|].
  exists st3. rewrite V1000_run_app, H1. cbn [mbind option_bind].
  rewrite V1000_run_app, H2. cbn [mbind option_bind].
  split; [exact H3|]. split; [vm_compute; reflexivity|].
  split; [vm_compute; reflexivity|]. by apply Hthrow.
Defined.

(** ** A spent batch stays registered *)

Lemma inFlight_back b st st' fid :
  (∀ f, fetches st' !! fid = Some f → f_cont f = Broadcast b → f_done f = false →
        fetches st !! fid = Some f) →
  (∀ ctrl, controllers st !! ctrl = Some true → controllers st' !! ctrl = Some true) →
  userAborted st' = userAborted st →
  inFlight b st' fid → inFlight b st fid.
Proof.
  intros Hf Hc Hu (f & Hfid & Hk & Hd & Ha). exists f.
  split; [by apply Hf|]. do 2 (split; [done|]).
  unfold fetchAborted in *. destruct (f_signal f) as [[n|ctrl]|]; cbn in *;
    [congruence| |done].
  destruct (controllers st !! ctrl) as [[|]|] eqn:Hl; [|done|done].
  by rewrite (Hc _ Hl) in Ha.
Qed.

Lemma apart_entries b st st' : apart b st st' → entriesOf b st' = entriesOf b st.
Proof. intros (Hp & Hc & Hd & Hs & _). unfold entriesOf. by rewrite Hp, Hc, Hd, Hs. Qed.

Lemma markDone_undone fid st fid' f :
  fetches (markDone fid st) !! fid' = Some f → f_done f = false →
  fetches st !! fid' = Some f.
Proof.
  unfold markDone. mproj. rewrite list_lookup_alter.
  destruct (decide (fid = fid')) as [->|Hne]; [|done].
  destruct (fetches st !! fid') as [f0|]; [|done]. intros [= <-]. done.
Qed.

(** After the completion of a fetch that is not the batch's, the entries of
    [b] are as before and no fetch of [b] has come to be in flight. *)
Lemma spent_completion b fid st st' :
  st' = markDone fid st
  ∨ (∃ ev, batchOf ev ≠ b ∧ st' = V500.dispatchEvent ev (markDone fid st))
  ∨ (∃ c x, st' = set_callers (alter (settle x) c) (markDone fid st)) →
  entriesOf b st' = entriesOf b st
  ∧ ∀ fid', inFlight b st' fid' → inFlight b st fid'.
Proof.
  intros [->|[(ev & Hne & ->)|(c & x & ->)]].
  - split; [done|]. intros fid'. apply inFlight_back; [|done|done].
    intros f' Hl _ Hd. by apply (markDone_undone fid).
  - split.
    + apply apart_entries, (kept_trans b st (markDone fid st)); [by repeat split|].
      by apply kept_dispatchEvent.
    + intros fid'. apply inFlight_back.
      * rewrite dispatchEvent_fetches. intros f' Hl _ Hd. by apply (markDone_undone fid).
      * by rewrite dispatchEvent_controllers.
      * transitivity (userAborted (markDone fid st)); [|done].
        apply (dispatchEvent_frame userAborted); try done. by destruct ev.
  - split; [done|]. intros fid'. apply inFlight_back; [|done|done].
    intros f' Hl _ Hd. by apply (markDone_undone fid).
Qed.

(** A turn that is no call and no abort: the two variants take it alike. *)
Lemma spent_turn hash ev st st' b :
  consistent st → spent b st →
  match ev with EvCall _ _ | EvAbort _ _ => False | _ => True end →
  V500.step hash ev st = Some st' →
  entriesOf b st' = entriesOf b st
  ∧ ∀ fid, inFlight b st' fid → inFlight b st fid.
Proof.
  intros Hc [[ctrl Hs] Hnone].
  destruct ev as [u o|dt|tid|fid r|fid e|s e]; cbn [V500.step]; intros Hev Hstep;
    [done| | | | |done].
  - injection Hstep as <-. split; [done|]. intros fid. by apply inFlight_back.
  - destruct (timers st !! tid) as [[due b']|] eqn:Htid; [|done].
    case_decide; [|done]. injection Hstep as <-. rewrite dispatchRequest_eq.
    assert (b' ≠ b) as Hne.
    { intros ->. destruct (cs_timer _ Hc _ _ _ Htid) as (_ & _ & Hs'). congruence. }
    split.
    + unfold entriesOf, dispatched. mproj. by rewrite lookup_insert_ne.
    + intros fid. apply inFlight_back; unfold dispatched; mproj; [| |done].
      * intros f Hl Hk _. apply lookup_app_Some in Hl as [Hl|[_ Hl]]; [done|].
        apply list_lookup_singleton_Some in Hl as [_ <-]. cbn in Hk. congruence.
      * intros c Hl. by apply lookup_app_l_Some.
  - destruct (fetches st !! fid) as [f|] eqn:Hfid; [|done].
    destruct (f_done f) eqn:Hd; [done|]. destruct (fetchAborted f st) eqn:Ha; [done|].
    injection Hstep as <-.
    assert (f_cont f ≠ Broadcast b) as Hk.
    { intros Hk. apply (Hnone fid). by exists f. }
    apply (spent_completion b fid). unfold V500.fetchFulfilled.
    destruct (f_cont f) as [b'|c].
    + right; left. exists (BatchFetchThen b' r). split; [|done]. cbn. congruence.
    + right; right. by exists c, (Resolve r).
  - destruct (fetches st !! fid) as [f|] eqn:Hfid; [|done].
    destruct (f_done f) eqn:Hd; [done|].
    (* a fetch of [b] not in flight runs under an aborted controller: it
       rejects with the abort error, which is not broadcast *)
    assert (f_cont f = Broadcast b → name e = "AbortError") as Hb.
    { intros Hk. destruct (fetchAborted f st) as [reason|] eqn:Ha;
        [|exfalso; apply (Hnone fid); by exists f].
      case_decide as Hre; [|done].
      destruct (cs_fetch _ Hc _ _ _ Hfid Hk) as (ctrl' & Hsig & _).
      unfold fetchAborted in Ha. rewrite Hsig in Ha. cbn [abortReason] in Ha.
      destruct (controllers st !! ctrl') as [[|]|]; [|done|done].
      injection Ha as <-. by subst e. }
    assert (st' = V500.fetchRejected f e (markDone fid st)) as ->.
    { destruct (fetchAborted f st); [case_decide|]; congruence. }
    apply (spent_completion b fid).
    unfold V500.fetchRejected, V500.dispatchRequest_catch.
    destruct (f_cont f) as [b'|c].
    + case_decide as Hab; [by left|]. right; left.
      exists (BatchFetchCatch b' e). split; [|done]. cbn. intros ->. by apply Hab, Hb.
    + right; right. by exists c, (Reject e).
Qed.

Lemma spent_step hash ev st st' b :
  consistent st → spent b st → noAbort ev →
  V500.step hash ev st = Some st' →
  entriesOf b st' = entriesOf b st
  ∧ ∀ fid, inFlight b st' fid → inFlight b st fid.
Proof.
  intros Hc Hsp Hev Hstep.
  destruct ev as [u o|dt|tid|fid r|fid e|s e];
    [|by eapply (spent_turn hash); [| | |exact Hstep]..|done].
  cbn [V500.step] in Hstep. injection Hstep as <-. destruct Hsp as [[ctrl Hs] _].
  destruct (requestSignals st !! hash u "otherOptions" (otherOptions o)) as [ctrl'|] eqn:Hs'.
  - rewrite (V500_batchFetch_late hash u o st ctrl' Hs'). cbn [snd]. split; [done|].
    intros fid. apply inFlight_back; unfold bypassedState; mproj; [|done|done].
    intros f Hl Hk _. apply lookup_app_Some in Hl as [Hl|[_ Hl]]; [done|].
    apply list_lookup_singleton_Some in Hl as [_ <-]. done.
  - rewrite (V500_batchFetch_join hash u o st Hs'). cbn [snd]. split.
    + apply apart_entries, apart_joined. congruence.
    + intros fid. by apply inFlight_back.
Qed.

Lemma V1000_spent_step hash ev st st' b :
  consistent st → spent b st → noAbort ev →
  V1000.step hash ev st = Some st' →
  entriesOf b st' = entriesOf b st
  ∧ ∀ fid, inFlight b st' fid → inFlight b st fid.
Proof.
  intros Hc Hsp Hev Hstep.
  destruct ev as [u o|dt|tid|fid r|fid e|s e]; [| | | | |done].
  - cbn [V1000.step] in Hstep. injection Hstep as <-. destruct Hsp as [[ctrl Hs] _].
    destruct (requestSignals st !! hash u "options" (otherOptions o)) as [ctrl'|] eqn:Hs'.
    + by rewrite (V1000_batchFetch_late hash u o st ctrl' Hs').
    + rewrite (V1000_batchFetch_join hash u o st Hs'). cbn [snd]. split.
      * apply apart_entries, apart_joined. congruence.
      * intros fid. by apply inFlight_back.
  - by apply (spent_turn hash (EvAdvance dt) st).
  - by apply (spent_turn hash (EvTimeout tid) st).
  - rewrite (V1000_step_resolve hash hash) in Hstep.
    by apply (spent_turn hash (EvFetchResolve fid r) st).
  - rewrite (V1000_step_reject hash hash) in Hstep.
    by apply (spent_turn hash (EvFetchReject fid e) st).
Qed.

Lemma spent_next b st st' :
  spent b st → entriesOf b st' = entriesOf b st →
  (∀ fid, inFlight b st' fid → inFlight b st fid) → spent b st'.
Proof.
  intros [Hs Hnone] He Hback. split.
  - unfold entriesOf in He. by injection He as _ _ _ ->.
  - intros fid Hin. by apply (Hnone fid), Hback.
Qed.

Lemma spent_run hash evs : ∀ st st' b,
  consistent st → spent b st → Forall noAbort evs →
  V500.run hash evs st = Some st' →
  entriesOf b st' = entriesOf b st ∧ spent b st'.
Proof.
  induction evs as [|ev evs IH]; intros st st' b Hc Hsp Hevs Hrun.
  { injection Hrun as <-. done. }
  apply Forall_cons in Hevs as [Hev Hevs]. cbn [V500.run] in Hrun.
  destruct (V500.step hash ev st) as [st1|] eqn:Hstep; [|done].
  destruct (spent_step hash ev st st1 b Hc Hsp Hev Hstep) as [He Hback].
  destruct (IH st1 st' b) as [He' Hsp']; try done.
  - by apply (consistent_step hash ev st).
  - by apply (spent_next b st).
  - split; [congruence|done].
Qed.

Lemma V1000_spent_run hash evs : ∀ st st' b,
  consistent st → spent b st → Forall noAbort evs →
  V1000.run hash evs st = Some st' →
  entriesOf b st' = entriesOf b st ∧ spent b st'.
Proof.
  induction evs as [|ev evs IH]; intros st st' b Hc Hsp Hevs Hrun.
  { injection Hrun as <-. done. }
  apply Forall_cons in Hevs as [Hev Hevs]. cbn [V1000.run] in Hrun.
  destruct (V1000.step hash ev st) as [st1|] eqn:Hstep; [|done].
  destruct (V1000_spent_step hash ev st st1 b Hc Hsp Hev Hstep) as [He Hback].
  destruct (IH st1 st' b) as [He' Hsp']; try done.
  - by apply (V1000_consistent_step hash ev st).
  - by apply (spent_next b st).
  - split; [congruence|done].
Qed.

(** X20: a spent batch stays registered until a signal is aborted, in both
    variants.  In a reachable state where [requestSignals] holds a
    controller for a signature and no fetch made for it by
    [dispatchRequest] is in flight, no call, no timer and no completion of a
    fetch changes the four table entries of the signature or brings a fetch
    for it in flight: after any turns among which no signal is aborted, the
    entries are as they were.  A call for the signature made then takes the
    late path in the 500ms variant, and throws in the 1000ms variant. *)
Theorem spent_batch_stays
    (hash : string → string → list (string * string) → string) b evs st st' :
  reachable hash st →
  spent b st →
  Forall noAbort evs →
  V500.run hash evs st = Some st' ∨ V1000.run hash evs st = Some st' →
  entriesOf b st' = entriesOf b st
  ∧ spent b st'
  ∧ (∀ u o, hash u "otherOptions" (otherOptions o) = b →
       V500.batchFetch hash u o st'
       = (Ok (length (callers st')), bypassedState hash u o st'))
  ∧ (∀ u o, hash u "options" (otherOptions o) = b →
       V1000.batchFetch hash u o st'
       = (Throw {| name := "Error"; message := "Request already dispatched" |}, st')).
Proof.
  intros Hr%reachable_consistent Hsp Hevs Hrun.
  assert (entriesOf b st' = entriesOf b st ∧ spent b st') as [He Hsp'].
  { destruct Hrun as [Hrun|Hrun];
      [by apply (spent_run hash evs st)|by apply (V1000_spent_run hash evs st)]. }
  do 2 (split; [done|]). destruct Hsp' as [[ctrl Hs] _]. split.
  - intros u o <-. by apply (V500_batchFetch_late hash u o st' ctrl).
  - intros u o <-. by apply (V1000_batchFetch_late hash u o st' ctrl).
Qed.

(** After the partial cancellation of the worked example: a late call and
    its own fetch, a second and time passing, a call for another url; the
    entry is still at 1 aborted and 1 processed of 2 registered. *)
Lemma spent_batch_stays_witness :
  reachable sampleHash leftoverState
  ∧ spent apiGet500 leftoverState
  ∧ ∃ st',
      V500.run sampleHash
        [EvCall "/api" get; EvAdvance 1000; EvFetchResolve 1 ok200; EvCall "/users" get]
        leftoverState = Some st'
      ∧ requestCounter st' !! apiGet500
        = Some {| registered := 2; aborted := 1; processed := 1 |}
      ∧ requestSignals st' !! apiGet500 = Some 0.
Proof.
  assert (Hr : reachable sampleHash leftoverState).
  { exists [EvCall "/api" (getWith 7); EvCall "/api" get; EvAbort 7 abortError;
             EvAdvance 500; EvTimeout 2; EvFetchResolve 0 ok200].
    left. vm_compute. reflexivity. }
  assert (Hs0 : requestSignals leftoverState !! apiGet500 = Some 0)
    by (vm_compute; reflexivity).
  assert (Hc0 : requestCounter leftoverState !! apiGet500
                = Some {| registered := 2; aborted := 1; processed := 1 |})
    by (vm_compute; reflexivity).
  assert (Hall : map f_done (fetches leftoverState) = [true])
    by (vm_compute; reflexivity).
  set (evs := [EvCall "/api" get; EvAdvance 1000; EvFetchResolve 1 ok200;
               EvCall "/users" get]).
  assert (Hrun : V500.run sampleHash evs leftoverState
                 = Some (default init (V500.run sampleHash evs leftoverState)))
    by (vm_compute; reflexivity).
  assert (Hevs : Forall noAbort evs) by (repeat constructor).
  revert Hr Hs0 Hc0 Hall Hrun.
  generalize (default init (V500.run sampleHash evs leftoverState)).
  generalize leftoverState. intros st st' Hr Hs0 Hc0 Hall Hrun.
  assert (Hsp : spent apiGet500 st).
  { split; [by exists 0|].
    intros fid (f & Hf & _ & Hd & _).
    assert (map f_done (fetches st) !! fid = Some false) as Hl
      by (by rewrite list_lookup_fmap, Hf; cbn; rewrite Hd).
    rewrite Hall in Hl. by destruct fid as [|[|fid]]. }
  destruct (spent_batch_stays sampleHash apiGet500 evs st st' Hr Hsp Hevs
              (or_introl Hrun)) as (He & _).
  split; [exact Hr|]. split; [exact Hsp|]. exists st'. split; [exact Hrun|].
  unfold entriesOf in He. injection He as _ Hc _ Hs. split; congruence.
Defined.
